(** * Order lifecycle, role-based visibility and persistence mapping

    A shallow embedding of the server of the restaurant application:
    [server/firestore-storage.ts] (class [FirestoreStorage], the persistence
    gateway and record mapper) and the routes of the route file over it: the
    orders ([GET /api/orders], [POST /api/orders], [PATCH /api/orders/:id]),
    the menu items, the categories, the reservations and the staff users.
    The check of an image file that the client makes before an upload is
    embedded as well.

    JavaScript values are an inductive type, objects are finite maps from
    field names to values, the document store is a finite map from document
    paths to documents, and the asynchronous methods are computations in a
    state-and-exception monad over a [World] that holds the store, the
    in-memory users, a failure oracle for the backend, the clock and the
    source of random identifiers. *)

From Stdlib Require Import ZArith String List Ascii.
From stdpp Require Import base gmap strings list fin_maps sorting.

Local Open Scope Z_scope.
Local Set Warnings "-register-all".

(** ** JavaScript values *)

(** A number is a binary64 number.  [VNum n] is the number whose value is
    the integer [n]: identifiers, sort keys, party sizes, whole amounts and
    epoch milliseconds (binary64 holds every integer below [2^53] in
    magnitude, and beyond that those that fit its 53 bits).  A finite number
    that is not an integer is [m / 2^p] with [m] odd, in one way; binary64
    holds it when [m < 2^53] and [p <= 1074].  The negative zero is not told
    from zero: nothing the program does with a number tells them apart.
    Strings are the bytes of their UTF-8 encoding. *)
Inductive value : Type :=
  | VUndef
  | VNull
  | VBool (b : bool)
  | VNum (n : Z)
  | VFrac (negative : bool) (m p : positive)   (* [m / 2^p], with its sign *)
  | VInf (negative : bool)                     (* [Infinity], [-Infinity] *)
  | VNaN
  | VStr (s : string)
  | VDate (ms : Z)                  (* a valid JS [Date], epoch milliseconds *)
  | VTimestamp (ns : Z)             (* the store's timestamp, nanoseconds since the epoch *)
  | VArr (elems : list value)
  | VObj (fields : list (string * value)).

(** A JS object, a raw document, an update payload. *)
Abbreviation obj := (gmap string value).

(** [o.k]: reading an absent property gives [undefined]. *)
Definition get (o : obj) (k : string) : value := default VUndef (o !! k).

Definition is_undefined (v : value) : bool :=
  match v with VUndef => true | _ => false end.

(** ToBoolean. *)
Definition truthy (v : value) : bool :=
  match v with
  | VUndef | VNull => false
  | VBool b => b
  | VNum n => negb (n =? 0)
  | VNaN => false
  | VStr s => negb (String.eqb s "")
  | VFrac _ _ _ | VInf _ | VDate _ | VTimestamp _ | VArr _ | VObj _ => true
  end.

(** [a || b] *)
Definition js_or (a b : value) : value := if truthy a then a else b.

(** [a ?? b] *)
Definition nullish (a b : value) : value :=
  match a with VUndef | VNull => b | _ => a end.

(** [typeof v === 'number'] *)
Definition is_number (v : value) : bool :=
  match v with VNum _ | VFrac _ _ _ | VInf _ | VNaN => true | _ => false end.

(** [v === 'lit'] against a string literal. *)
Definition is_string_lit (v : value) (lit : string) : bool :=
  match v with VStr s => String.eqb s lit | _ => false end.

(** [v !== false] *)
Definition not_false (v : value) : bool :=
  match v with VBool false => false | _ => true end.

(** [Number.isSafeInteger(n)] *)
Definition safe_integer (n : Z) : Prop := Z.abs n < 2 ^ 53.

(** *** [Number.prototype.toString]

    Number::toString of the language specification, in radix 10: for a
    positive finite number [x], integers [n], [k] and [s] with [k >= 1],
    [10^(k-1) <= s < 10^k] and [s × 10^(n-k)] rounding to [x], [k] as small
    as possible and then [s × 10^(n-k)] as close to [x] as possible; the
    digits of [s] are then laid out by [n].  A positive finite number is
    given as [m × 2^e]. *)

(** [s × 10^q <= a × 2^b] and [a × 2^b <= s × 10^q], on integers. *)
Definition dec_le_bin (s q a b : Z) : bool :=
  s * 10 ^ Z.max q 0 * 2 ^ Z.max (- b) 0 <=? a * 2 ^ Z.max b 0 * 10 ^ Z.max (- q) 0.

Definition bin_le_dec (a b s q : Z) : bool :=
  a * 2 ^ Z.max b 0 * 10 ^ Z.max (- q) 0 <=? s * 10 ^ Z.max q 0 * 2 ^ Z.max (- b) 0.

(** The reals that round to the binary64 number [x = m × 2^e], to nearest
    and on a tie to the even significand: those between the midpoints to its
    two neighbours, the midpoints included when its significand is even.
    The last place of [x] is [2^E]; the neighbour below is half as far when
    [x] is the first number of its binade.  All in units of [2^U]. *)
Record Interval : Type := mkInterval {
  unit_exponent : Z;
  low : Z;
  high : Z;
  closed : bool;
}.

Definition rounding_interval (m : positive) (e : Z) : Interval :=
  let top := Z.log2 (Z.pos m) + e in           (* [2^top <= x < 2^(top+1)] *)
  let E := Z.max (top - 52) (-1074) in
  let U := Z.min (E - 2) e in
  let X := Z.pos m * 2 ^ (e - U) in
  let half := 2 ^ (E - 1 - U) in
  let quarter := 2 ^ (E - 2 - U) in
  let binade_start := (X =? 2 ^ (top - U)) && (-1074 <? E) in
  mkInterval U (X - (if binade_start then quarter else half)) (X + half)
             (Z.even (X / 2 ^ (E - U))).

(** The number nearest to [s × 10^q] is [m × 2^e]. *)
Definition Number_is (s q : Z) (m : positive) (e : Z) : bool :=
  let i := rounding_interval m e in
  if closed i
  then bin_le_dec (low i) (unit_exponent i) s q && dec_le_bin s q (high i) (unit_exponent i)
  else negb (dec_le_bin s q (low i) (unit_exponent i))
       && negb (bin_le_dec (high i) (unit_exponent i) s q).

(** The [n] with [10^(n-1) <= m × 2^e < 10^n]: the least from an
    underestimate on. *)
Fixpoint decimal_exponent_from (fuel : nat) (m : positive) (e n : Z) : Z :=
  match fuel with
  | O => n
  | S fuel =>
      if bin_le_dec (Z.pos m) e 1 n && negb (dec_le_bin 1 n (Z.pos m) e)
      then n else decimal_exponent_from fuel m e (n + 1)
  end.

Definition decimal_exponent (m : positive) (e : Z) : Z :=
  let top := Z.log2 (Z.pos m) + e in
  decimal_exponent_from 8 m e (top * 30103 / 100000 - 2).

(** The integer nearest to [m × 2^e / 10^q] among the [s] with [s × 10^q]
    rounding to the number, if there is one; on a tie the even one. *)
Definition nearest_digits (m : positive) (e q : Z) : option Z :=
  let num := Z.pos m * 2 ^ Z.max e 0 * 10 ^ Z.max (- q) 0 in
  let den := 2 ^ Z.max (- e) 0 * 10 ^ Z.max q 0 in
  let s0 := num / den in
  let r := num mod den in
  let below := (0 <? s0) && Number_is s0 q m e in
  let above := Number_is (s0 + 1) q m e in
  if below && above
  then Some (if 2 * r <? den then s0
             else if den <? 2 * r then s0 + 1
             else if Z.even s0 then s0 else s0 + 1)
  else if below then Some s0
  else if above then Some (s0 + 1)
  else None.

(** The decimal expansion of [m × 2^e], which is finite. *)
Definition exact_digits (m : positive) (e : Z) : Z * Z :=
  if 0 <=? e then (Z.pos m * 2 ^ e, 0) else (Z.pos m * 5 ^ (- e), e).

(** With one digit, then two, and so on.  Seventeen digits tell any two
    binary64 numbers apart; the exact expansion ends the search. *)
Fixpoint shortest_from (fuel : nat) (m : positive) (e q : Z) : Z * Z :=
  match fuel with
  | O => exact_digits m e
  | S fuel =>
      match nearest_digits m e q with
      | Some s => (s, q)
      | None => shortest_from fuel m e (q - 1)
      end
  end.

(** [s × 10^q] without the zeros at the end of [s]. *)
Fixpoint strip_zeros (fuel : nat) (s q : Z) : Z * Z :=
  match fuel with
  | O => (s, q)
  | S fuel =>
      if (s mod 10 =? 0) && negb (s =? 0) then strip_zeros fuel (s / 10) (q + 1)
      else (s, q)
  end.

(** The [s] and the [n - k] of Number::toString. *)
Definition shortest_digits (m : positive) (e : Z) : Z * Z :=
  let n := decimal_exponent m e in
  let (s, q) := shortest_from 17 m e (n - 1) in
  let (s, q) := if (0 <? s) && Number_is s q m e then (s, q) else exact_digits m e in
  strip_zeros (Z.to_nat (Z.log2 s)) s q.

(** The decimal digits of a positive integer. *)
Definition digit_char (d : Z) : ascii := ascii_of_N (Z.to_N (48 + d)).

Fixpoint print_digits (fuel : nat) (n : Z) : string :=
  match fuel with
  | O => ""
  | S fuel =>
      if n <? 10 then String (digit_char n) ""
      else print_digits fuel (n / 10) +:+ String (digit_char (n mod 10)) ""
  end.

Definition digits (n : Z) : string := print_digits (S (Z.to_nat (Z.log2 n))) n.

Fixpoint zeros (n : nat) : string :=
  match n with O => "" | S n => String "0" (zeros n) end.

Fixpoint string_take (n : nat) (s : string) : string :=
  match n, s with
  | S n, String c s => String c (string_take n s)
  | _, _ => ""
  end.

Fixpoint string_drop (n : nat) (s : string) : string :=
  match n, s with
  | S n, String _ s => string_drop n s
  | _, _ => s
  end.

(** The [k] digits [ds] laid out by [n] without an exponent: followed by
    [n - k] zeros, or with the point after [n] digits, or behind [0.] and
    [-n] zeros. *)
Definition positional (ds : string) (n : Z) : string :=
  let k := Z.of_nat (String.length ds) in
  if k <=? n then ds +:+ zeros (Z.to_nat (n - k))
  else if 0 <? n then string_take (Z.to_nat n) ds +:+ "." +:+ string_drop (Z.to_nat n) ds
  else "0." +:+ zeros (Z.to_nat (- n)) +:+ ds.

(** The digits with the exponent [n - 1]. *)
Definition exponential (ds : string) (n : Z) : string :=
  let e := n - 1 in
  let exponent := (if 0 <? e then "+" else "-") +:+ digits (Z.abs e) in
  match ds with
  | String d "" => String d "" +:+ "e" +:+ exponent
  | String d rest => String d "" +:+ "." +:+ rest +:+ "e" +:+ exponent
  | "" => ""
  end.

(** The [n] of Number::toString: the number is [0.ds × 10^n]. *)
Definition Finite_exponent (m : positive) (e : Z) : Z :=
  let (s, q) := shortest_digits m e in
  q + Z.of_nat (String.length (digits s)).

(** The number is printed without an exponent. *)
Definition is_positional (n : Z) : bool := (-6 <? n) && (n <=? 21).

Definition Finite_toString (m : positive) (e : Z) : string :=
  let (s, q) := shortest_digits m e in
  let ds := digits s in
  let n := q + Z.of_nat (String.length ds) in
  if is_positional n then positional ds n else exponential ds n.

(** [n.toString()] for a number that is an integer.  Below [2^53] every
    integer is a number of its own, which the digits of [s] and the zeros
    after them spell out: the numeral of the integer. *)
Definition Number_toString (n : Z) : string :=
  (if n <? 0 then "-" else "") +:+
  (if Z.abs n <? 9007199254740992 then digits (Z.abs n)
   else Finite_toString (Z.to_pos (Z.abs n)) 0).

(** [x.toString()] for a number that is not an integer. *)
Definition Fraction_toString (negative : bool) (m p : positive) : string :=
  (if negative then "-" else "") +:+ Finite_toString m (- Z.pos p).

(** [typeof v === 'number' ? v.toString() : v] *)
Definition number_to_string (v : value) : value :=
  match v with
  | VNum n => VStr (Number_toString n)
  | VFrac negative m p => VStr (Fraction_toString negative m p)
  | VInf negative => VStr (if negative then "-Infinity" else "Infinity")
  | VNaN => VStr "NaN"
  | _ => v
  end.

(** ** Dates and timestamps *)

(** The result of building a [Date] from a stored value.  Where the
    conversion is the host's date parser (strings, arrays, objects) the
    argument is kept as it is. *)
Inductive JsDate : Type :=
  | DateMs (ms : Z)
  | DateInvalid
  | DateNew (v : value).

(** [Timestamp.fromDate(d)] *)
Definition Timestamp_fromDate (ms : Z) : value :=
  VTimestamp (ms * 1000000).

(** [ts.toDate()] *)
Definition Timestamp_toDate (ns : Z) : Z := ns / 1000000.

(** [new Date(v)] *)
Definition Date_new (v : value) : JsDate :=
  match v with
  | VUndef => DateInvalid
  | VNull => DateMs 0
  | VBool b => DateMs (if b then 1 else 0)
  | VNum n => if Z.abs n <=? 8640000000000000 then DateMs n else DateInvalid
  | VFrac negative m p =>
      let t := Z.pos m / 2 ^ Z.pos p in          (* the integral part *)
      if t <? 8640000000000000 then DateMs (if negative then - t else t)
      else DateInvalid
  | VInf _ | VNaN => DateInvalid
  | VDate ms => DateMs ms
  | VTimestamp ns => DateMs (Timestamp_toDate ns)
  | VStr _ | VArr _ | VObj _ => DateNew v
  end.

(** [v?.toDate ? v.toDate() : new Date(v)] *)
Definition to_date (v : value) : JsDate :=
  match v with
  | VTimestamp ns => DateMs (Timestamp_toDate ns)
  | _ => Date_new v
  end.

(** ** Domain records *)

Module User.
Record t : Type := mk {
  id : Z;
  email : string;
  password : string;
  name : string;
  phone : value;
  role : string;
  active : bool;
  createdAt : Z;
}.
End User.

Module MenuItem.
Record t : Type := mk {
  id : string;
  name : value;
  description : value;
  price : value;
  deliveryFee : value;
  categoryId : value;
  imageUrl : value;
  available : value;
  popular : value;
}.

(** The record as the object handed to [setDoc]. *)
Definition to_obj (m : t) : obj :=
  <["id" := VStr (id m)]> (<["name" := name m]> (<["description" := description m]>
  (<["price" := price m]> (<["deliveryFee" := deliveryFee m]>
  (<["categoryId" := categoryId m]> (<["imageUrl" := imageUrl m]>
  (<["available" := available m]> (<["popular" := popular m]> ∅)))))))).
End MenuItem.

Module Reservation.
Record t : Type := mk {
  id : string;
  name : value;
  email : value;
  phone : value;
  date : value;
  time : value;
  partySize : value;
  specialRequests : value;
  status : value;
  createdAt : JsDate;
}.
End Reservation.

Module Order.
Record t : Type := mk {
  id : string;
  userId : value;
  customerName : value;
  customerEmail : value;
  customerPhone : value;
  items : value;
  totalAmount : value;
  orderType : value;
  deliveryAddress : value;
  notes : value;
  status : value;
  livreurId : value;
  createdAt : JsDate;
  updatedAt : JsDate;
}.
End Order.

(** ** The world: document store, users, oracles *)

(** A store call as it reaches the backend. *)
Inductive Call : Type :=
  | CGetDocs (col : string)
  | CGetDoc (col id : string)
  | CSetDoc (col id : string)
  | CUpdateDoc (col id : string)
  | CDeleteDoc (col id : string).

Definition is_write (c : Call) : bool :=
  match c with
  | CGetDocs _ | CGetDoc _ _ => false
  | CSetDoc _ _ | CUpdateDoc _ _ | CDeleteDoc _ _ => true
  end.

Record World : Type := mkWorld {
  db : gmap (string * string) obj;      (* (collection, document id), fields *)
  users : gmap Z User.t;                (* [this.users] *)
  userIdCounter : Z;                    (* [this.userIdCounter] *)
  faults : list bool;                   (* whether the next store calls fail *)
  clock : nat -> Z;                     (* the readings of [new Date()] *)
  ticks : nat;
  uuids : nat -> string;                (* the results of [randomUUID()] *)
  drawn : nat;
  calls : list Call;                    (* store calls issued so far, oldest first *)
}.

Definition set_db (s : gmap (string * string) obj) (w : World) : World :=
  mkWorld s (users w) (userIdCounter w) (faults w) (clock w) (ticks w)
          (uuids w) (drawn w) (calls w).

Definition set_faults (fs : list bool) (w : World) : World :=
  mkWorld (db w) (users w) (userIdCounter w) fs (clock w) (ticks w)
          (uuids w) (drawn w) (calls w).

Definition log_call (c : Call) (w : World) : World :=
  mkWorld (db w) (users w) (userIdCounter w) (faults w) (clock w) (ticks w)
          (uuids w) (drawn w) (calls w ++ [c]).

Definition document (w : World) (col id : string) : option obj :=
  db w !! (col, id).

(** The documents of a collection, with their identifiers. *)
Definition collection (w : World) (col : string) : list (string * obj) :=
  omap (λ pd, if String.eqb pd.1.1 col then Some (pd.1.2, pd.2) else None)
       (map_to_list (db w)).

(** No failure of the backend is pending. *)
Definition calm (w : World) : Prop := Forall (λ b, b = false) (faults w).

(** ** Computations *)

Inductive Error : Type :=
  | BackendFailure      (* the store is unreachable or rejects the call *)
  | NotFoundError       (* [updateDoc] on a missing document *)
  | InvalidData         (* a field name or value the client library refuses *)
  | TypeError.          (* a method called on a value that has none *)

Inductive Outcome (A : Type) : Type :=
  | Ok (a : A)
  | Throw (e : Error).
Arguments Ok {A} a.
Arguments Throw {A} e.

Definition M (A : Type) : Type := World -> Outcome A * World.

Definition ret {A} (a : A) : M A := λ w, (Ok a, w).

Definition bind {A B} (m : M A) (k : A -> M B) : M B :=
  λ w, match m w with
       | (Ok a, w') => k a w'
       | (Throw e, w') => (Throw e, w')
       end.

Definition throw {A} (e : Error) : M A := λ w, (Throw e, w).

(** [try { m } catch (error) { h }] *)
Definition try_catch {A} (m : M A) (h : Error -> M A) : M A :=
  λ w, match m w with
       | (Ok a, w') => (Ok a, w')
       | (Throw e, w') => h e w'
       end.

Declare Scope js_scope.
Delimit Scope js_scope with js.
Notation "x <- m ;; k" := (bind m (λ x, k))
  (at level 100, m at next level, right associativity) : js_scope.
Notation "m ;;; k" := (bind m (λ _, k))
  (at level 100, right associativity) : js_scope.
Local Open Scope js_scope.

(** The world after a reading of the clock, and after a draw of a random
    identifier. *)
Definition tick (w : World) : World :=
  mkWorld (db w) (users w) (userIdCounter w) (faults w) (clock w)
          (S (ticks w)) (uuids w) (drawn w) (calls w).

Definition draw (w : World) : World :=
  mkWorld (db w) (users w) (userIdCounter w) (faults w) (clock w)
          (ticks w) (uuids w) (S (drawn w)) (calls w).

(** [new Date()] *)
Definition newDate : M Z := λ w, (Ok (clock w (ticks w)), tick w).

(** [randomUUID()] *)
Definition randomUUID : M string := λ w, (Ok (uuids w (drawn w)), draw w).

(** Every store call is recorded, then consults the failure oracle. *)
Definition backend (c : Call) : M unit :=
  λ w, let w1 := log_call c w in
       match faults w1 with
       | true :: fs => (Throw BackendFailure, set_faults fs w1)
       | false :: fs => (Ok tt, set_faults fs w1)
       | [] => (Ok tt, w1)
       end.

(** ** Maps in insertion order *)

(** A JS [Map] with string keys, and the fields of a map value, as the entries
    in insertion order: [set] on a present key replaces the value where the
    key stands. *)
Fixpoint Map_set {V} (k : string) (v : V) (m : list (string * V)) : list (string * V) :=
  match m with
  | [] => [(k, v)]
  | e :: rest => if String.eqb e.1 k then (k, v) :: rest else e :: Map_set k v rest
  end.

(** [m.get(k)] *)
Fixpoint Map_get {V} (k : string) (m : list (string * V)) : option V :=
  match m with
  | [] => None
  | e :: rest => if String.eqb e.1 k then Some e.2 else Map_get k rest
  end.

(** ** The document store *)

(** Every finite binary64 number is a multiple of [2^-1074]. *)
Definition number_unit : Z := 2 ^ 1074.
Arguments number_unit : simpl never.

(** The store's order on field values: first by type (null, boolean, number,
    timestamp, string, array, map), then within the type; numbers by their
    value, NaN before all the others.  The key of a finite number is its
    value in units of [2^-1074].  Arrays and maps are not compared further;
    the program orders by [order] and [createdAt] only. *)
Definition fs_key (v : value) : Z * Z * string :=
  match v with
  | VUndef | VNull => (0, 0, "")
  | VBool b => (1, if b then 1 else 0, "")
  | VNaN => (2, - 2 ^ 1026 * number_unit, "")
  | VInf negative => (2, (if negative then - 2 ^ 1025 else 2 ^ 1025) * number_unit, "")
  | VNum n => (2, n * number_unit, "")
  | VFrac negative m p =>
      (2, (if negative then - Z.pos m else Z.pos m) * 2 ^ (1074 - Z.pos p), "")
  | VDate ms => (3, ms * 1000000, "")
  | VTimestamp ns => (3, ns, "")
  | VStr s => (4, 0, s)
  | VArr _ => (5, 0, "")
  | VObj _ => (6, 0, "")
  end.

(** Lexicographic order on sort keys; the last component is the document
    identifier, which breaks ties. *)
Definition key_le (x y : Z * Z * string * string) : Prop :=
  match x, y with
  | (r1, a1, s1, i1), (r2, a2, s2, i2) =>
      r1 < r2 ∨ (r1 = r2 ∧ (a1 < a2 ∨ (a1 = a2 ∧
        ((String.le s1 s2 ∧ s1 ≠ s2) ∨ (s1 = s2 ∧ String.le i1 i2)))))
  end.

#[global] Instance key_le_dec : RelDecision key_le.
Proof.
  intros [[[r1 a1] s1] i1] [[[r2 a2] s2] i2]. unfold key_le. apply _.
Defined.

(** Equality as the [where(field, '==', target)] filter tests it; the
    program filters on strings and numbers. *)
Definition fs_eqb (v target : value) : bool :=
  match v, target with
  | VNull, VNull => true
  | VBool a, VBool b => Bool.eqb a b
  | VNum a, VNum b => a =? b
  | VFrac s1 m1 p1, VFrac s2 m2 p2 => Bool.eqb s1 s2 && (m1 =? m2)%positive && (p1 =? p2)%positive
  | VInf a, VInf b => Bool.eqb a b
  | VNaN, VNaN => true
  | VStr a, VStr b => String.eqb a b
  | VTimestamp a, VTimestamp b => a =? b
  | _, _ => false
  end.

Inductive Direction : Type := Asc | Desc.

(** [query(collection(db, col), where(f, '==', v), orderBy(g, dir))] *)
Record Query : Type := mkQuery {
  q_col : string;
  q_where : option (string * value);
  q_orderBy : option (string * Direction);
}.

Definition matches_where (cond : option (string * value)) (d : string * obj) : bool :=
  match cond with
  | None => true
  | Some (f, target) => fs_eqb (get d.2 f) target
  end.

(** An [orderBy] clause keeps only the documents that have the field. *)
Definition has_order_field (ord : option (string * Direction)) (d : string * obj) : bool :=
  match ord with
  | None => true
  | Some (f, _) => bool_decide (is_Some (d.2 !! f))
  end.

Definition doc_key (ord : option (string * Direction)) (d : string * obj)
    : Z * Z * string * string :=
  match ord with
  | None => (0, 0, "", d.1)
  | Some (f, _) => (fs_key (get d.2 f), d.1)
  end.

Definition doc_le (ord : option (string * Direction)) (x y : string * obj) : Prop :=
  match ord with
  | Some (_, Desc) => key_le (doc_key ord y) (doc_key ord x)
  | _ => key_le (doc_key ord x) (doc_key ord y)
  end.

#[global] Instance doc_le_dec ord : RelDecision (doc_le ord).
Proof. intros x y. unfold doc_le. destruct ord as [[f []]|]; apply _. Defined.

(** The documents a query returns, in the order it returns them. *)
Definition run_query (q : Query) (w : World) : list (string * obj) :=
  merge_sort (doc_le (q_orderBy q))
    (List.filter (λ d, matches_where (q_where q) d && has_order_field (q_orderBy q) d)
       (collection w (q_col q))).

(** *** What the client library accepts

    [setDoc] and [updateDoc] check the data before anything is sent, and
    throw on what they refuse. *)

Fixpoint has_line_terminator (s : string) : bool :=
  match s with
  | "" => false
  | String c rest =>
      Ascii.eqb c "010" || Ascii.eqb c "013"
      || String.prefix (String "226" (String "128" (String "168" ""))) s
      || String.prefix (String "226" (String "128" (String "169" ""))) s
      || has_line_terminator rest
  end.

(** A field name of a write is refused when it is empty, or begins and ends
    with two underscores ([/^__.*__$/]). *)
Definition refused_name (s : string) : bool :=
  let len := String.length s in
  String.eqb s ""
  || (4 <=? len)%nat && String.prefix "__" s
     && String.eqb (String.substring (len - 2) 2 s) "__"
     && negb (has_line_terminator (String.substring 2 (len - 4) s)).

(** A value is refused when it is [undefined], or holds [undefined], an
    array directly inside an array, or a field with a refused name, at any
    depth. *)
Fixpoint refused_value (in_array : bool) (v : value) : bool :=
  match v with
  | VUndef => true
  | VArr elems => in_array || existsb (refused_value true) elems
  | VObj fields =>
      existsb (λ kv, refused_name (fst kv) || refused_value false (snd kv)) fields
  | _ => false
  end.

(** The data of a [setDoc]: its keys are field names. *)
Definition refused_data (data : obj) : bool :=
  existsb (λ kv, refused_name kv.1 || refused_value false kv.2) (map_to_list data).

Definition contains_any (chars : list ascii) (s : string) : bool :=
  existsb (λ c, existsb (Ascii.eqb c) chars) (list_ascii_of_string s).

(** [s.split(sep)] *)
Fixpoint split_on (sep : ascii) (s : string) : list string :=
  match s with
  | "" => [""]
  | String c rest =>
      let parts := split_on sep rest in
      if Ascii.eqb c sep then "" :: parts
      else match parts with
           | part :: parts => String c part :: parts
           | [] => [String c ""]
           end
  end.

(** The data of an [updateDoc]: each key is a path of field names
    separated by dots, from the field of the document inwards; it must not
    contain [~], [*], [/], [[] or []]. *)
Definition field_path (key : string) : option (list string) :=
  if contains_any ["~"; "*"; "/"; "["; "]"]%char key then None
  else let path := split_on "." key in
       if existsb refused_name path then None else Some path.

Definition refused_update (data : obj) : bool :=
  existsb (λ kv, match field_path kv.1 with
                 | None => true
                 | Some _ => refused_value false kv.2
                 end) (map_to_list data).

(** Two keys of an update of which one addresses a field inside the field
    the other addresses.  The client library sends such an update; the
    backend refuses it. *)
Fixpoint is_prefix (p q : list string) : bool :=
  match p, q with
  | [], _ => true
  | a :: p, b :: q => String.eqb a b && is_prefix p q
  | _ :: _, [] => false
  end.

Definition conflicting (data : obj) : bool :=
  existsb (λ kv1,
    existsb (λ kv2,
      negb (String.eqb kv1.1 kv2.1)
      && is_prefix (default [] (field_path kv1.1)) (default [] (field_path kv2.1)))
      (map_to_list data))
    (map_to_list data).

(** *** What the store keeps *)

(** What the store keeps of a written value: a [Date] becomes a timestamp,
    at any depth. *)
Fixpoint stored (v : value) : value :=
  match v with
  | VDate ms => Timestamp_fromDate ms
  | VArr elems => VArr (map stored elems)
  | VObj fields => VObj (map (λ kv, (fst kv, stored (snd kv))) fields)
  | _ => v
  end.

(** The fields of a map value; a value of another kind has none, and
    makes way for a map when a field is set inside it. *)
Definition fields (v : value) : list (string * value) :=
  match v with VObj fs => fs | _ => [] end.

(** The value [old] with [v] at the path [path] inside it. *)
Fixpoint set_in (path : list string) (v old : value) : value :=
  match path with
  | [] => v
  | k :: rest =>
      VObj (Map_set k (set_in rest v (default VUndef (Map_get k (fields old))))
                    (fields old))
  end.

(** The document [d] with [v] at the path [path]. *)
Definition set_field (path : list string) (v : value) (d : obj) : obj :=
  match path with
  | [] => d
  | k :: rest => <[k := set_in rest v (get d k)]> d
  end.

(** The document [old] with the fields of an update set. *)
Definition apply_update (data old : obj) : obj :=
  map_fold (λ key v d, set_field (default [] (field_path key)) (stored v) d) old data.

Definition write_doc (col id : string) (d : option obj) (w : World) : World :=
  set_db (match d with
          | Some fields => <[(col, id) := fields]> (db w)
          | None => delete (col, id) (db w)
          end) w.

(** [getDocs(q)] *)
Definition getDocs (q : Query) : M (list (string * obj)) :=
  backend (CGetDocs (q_col q)) ;;; λ w, (Ok (run_query q w), w).

(** [getDoc(doc(db, col, id))]; [None] is a snapshot that does not exist. *)
Definition getDoc (col id : string) : M (option obj) :=
  backend (CGetDoc col id) ;;; λ w, (Ok (document w col id), w).

(** [setDoc(doc(db, col, id), data)]: creates or replaces the document. *)
Definition setDoc (col id : string) (data : obj) : M unit :=
  if refused_data data then throw InvalidData
  else backend (CSetDoc col id) ;;;
       λ w, (Ok tt, write_doc col id (Some (stored <$> data)) w).

(** [updateDoc(doc(db, col, id), data)]: sets the fields that the keys of
    [data] address in an existing document, and leaves the others; fails on
    a missing document. *)
Definition updateDoc (col id : string) (data : obj) : M unit :=
  if refused_update data then throw InvalidData
  else backend (CUpdateDoc col id) ;;;
       λ w, if conflicting data then (Throw BackendFailure, w)
            else match document w col id with
                 | None => (Throw NotFoundError, w)
                 | Some old => (Ok tt, write_doc col id (Some (apply_update data old)) w)
                 end.

(** [deleteDoc(doc(db, col, id))]: succeeds whether or not the document
    exists. *)
Definition deleteDoc (col id : string) : M unit :=
  backend (CDeleteDoc col id) ;;; λ w, (Ok tt, write_doc col id None w).

(** ** The persistence gateway: class [FirestoreStorage] *)

(** [for (const x of l) { await f(x) }] *)
Fixpoint forEach {A} (l : list A) (f : A -> M unit) : M unit :=
  match l with
  | [] => ret tt
  | x :: rest => f x ;;; forEach rest f
  end.

Definition plain (col : string) : Query := mkQuery col None None.

(** *** Categories *)

Definition category_obj (id name description : string) (order : Z) : obj :=
  <["id" := VStr id]> (<["name" := VStr name]>
  (<["description" := VStr description]> (<["order" := VNum order]> ∅))).

Definition categoriesData : list (string * obj) :=
  [ ("crepe", category_obj "crepe" "Crêpe" "Délicieuses crêpes artisanales" 1);
    ("cheesecake", category_obj "cheesecake" "Cheesecake" "Cheesecakes onctueux et savoureux" 2);
    ("donuts", category_obj "donuts" "Donuts" "Donuts moelleux et gourmands" 3);
    ("mini-pancakes", category_obj "mini-pancakes" "Mini-Pancakes" "Mini-pancakes délicieux" 4);
    ("fondant", category_obj "fondant" "Fondant" "Fondants au chocolat fondant" 5);
    ("tiramisu", category_obj "tiramisu" "Tiramisu" "Tiramisu traditionnel et créatif" 6);
    ("boissons-fraiches", category_obj "boissons-fraiches" "Boissons Fraîches" "Jus de fruits frais" 7);
    ("boissons-chaudes", category_obj "boissons-chaudes" "Boissons Chaudes" "Café, thé et boissons chaudes" 8) ].

Definition initializeCategories : M unit :=
  try_catch
    (snapshot <- getDocs (plain "categories") ;;
     match snapshot with
     | [] => forEach categoriesData (λ category, setDoc "categories" category.1 category.2)
     | _ :: _ => ret tt
     end)
    (λ _, ret tt).

(** *** Users, kept in memory *)

Definition getUserById (id : Z) : M (option User.t) :=
  λ w, (Ok (users w !! id), w).

Definition set_users (us : gmap Z User.t) (counter : Z) (w : World) : World :=
  mkWorld (db w) us counter (faults w) (clock w) (ticks w) (uuids w) (drawn w) (calls w).

(** [insertUser] arrives validated: email, password and name are strings;
    [role] is [None] when absent. *)
Definition createUser (email password name : string) (phone : value)
    (role : option string) : M User.t :=
  now <- newDate ;;
  λ w, let id := userIdCounter w in
       let user := User.mk id email password name (nullish phone VNull)
                           (default "client" role) true now in
       (Ok user, set_users (<[id := user]> (users w)) (id + 1) w).

(** [hashed] is the result of [bcrypt.hashSync('password123', 10)]. *)
Definition initializeDefaultData (hashed : string) : M unit :=
  now <- newDate ;;
  (λ w, (Ok tt, set_users (<[1 := User.mk 1 "test@test.com" hashed "Test User" VNull
                                         "client" true now]> (users w)) 2 w)) ;;;
  initializeCategories.

Definition getCategories : M (list obj) :=
  try_catch
    (snapshot <- getDocs (mkQuery "categories" None (Some ("order", Asc))) ;;
     ret (map (λ d, d.2 ∪ {["id" := VStr d.1]}) snapshot))
    (λ _, ret []).

(** *** Menu items *)

Definition menuItem_of_doc (d : string * obj) : MenuItem.t :=
  let data := d.2 in
  {| MenuItem.id := d.1;
     MenuItem.name := get data "name";
     MenuItem.description := get data "description";
     MenuItem.price := get data "price";
     MenuItem.deliveryFee := js_or (get data "deliveryFee") (VStr "0");
     MenuItem.categoryId := get data "categoryId";
     MenuItem.imageUrl := js_or (get data "imageUrl") VNull;
     MenuItem.available := VBool (not_false (get data "available"));
     MenuItem.popular := js_or (get data "popular") (VBool false) |}.

Definition getMenuItems : M (list MenuItem.t) :=
  try_catch
    (snapshot <- getDocs (plain "menuItems") ;;
     ret (map menuItem_of_doc snapshot))
    (λ _, ret []).

Definition getMenuItem (id : string) : M (option MenuItem.t) :=
  try_catch
    (docSnap <- getDoc "menuItems" id ;;
     match docSnap with
     | None => ret None
     | Some data => ret (Some (menuItem_of_doc (id, data)))
     end)
    (λ _, ret None).

(** The record [createMenuItem] builds from its input. *)
Definition new_menuItem (id : string) (insertItem : obj) : MenuItem.t :=
  {| MenuItem.id := id;
     MenuItem.name := get insertItem "name";
     MenuItem.description := get insertItem "description";
     MenuItem.price :=
       if is_number (get insertItem "price")
       then number_to_string (get insertItem "price")
       else get insertItem "price";
     MenuItem.deliveryFee :=
       if is_number (get insertItem "deliveryFee")
       then number_to_string (get insertItem "deliveryFee")
       else nullish (get insertItem "deliveryFee") (VStr "0");
     MenuItem.categoryId := get insertItem "categoryId";
     MenuItem.imageUrl := nullish (get insertItem "imageUrl") VNull;
     MenuItem.available := nullish (get insertItem "available") (VBool true);
     MenuItem.popular := nullish (get insertItem "popular") (VBool false) |}.

Definition createMenuItem (insertItem : obj) : M MenuItem.t :=
  id <- randomUUID ;;
  let item := new_menuItem id insertItem in
  setDoc "menuItems" id (MenuItem.to_obj item) ;;;
  ret item.

(** [{...updates, price: ..., deliveryFee: ...}] *)
Definition normalizedUpdates (updates : obj) : obj :=
  <["deliveryFee" :=
      if is_undefined (get updates "deliveryFee") then VUndef
      else number_to_string (get updates "deliveryFee")]>
  (<["price" :=
      if is_undefined (get updates "price") then VUndef
      else number_to_string (get updates "price")]> updates).

(** [Object.keys(o).forEach(key => o[key] === undefined && delete o[key])] *)
Definition remove_undefined (o : obj) : obj :=
  filter (λ kv, is_undefined kv.2 = false) o.

Definition updateMenuItem (id : string) (updates : obj) : M (option MenuItem.t) :=
  try_catch
    (docSnap <- getDoc "menuItems" id ;;
     match docSnap with
     | None => ret None
     | Some _ =>
         updateDoc "menuItems" id (remove_undefined (normalizedUpdates updates)) ;;;
         getMenuItem id
     end)
    (λ _, ret None).

Definition deleteMenuItem (id : string) : M bool :=
  try_catch (deleteDoc "menuItems" id ;;; ret true) (λ _, ret false).

(** *** Reservations *)

Definition reservation_of_doc (d : string * obj) : Reservation.t :=
  let data := d.2 in
  {| Reservation.id := d.1;
     Reservation.name := get data "name";
     Reservation.email := get data "email";
     Reservation.phone := get data "phone";
     Reservation.date := get data "date";
     Reservation.time := get data "time";
     Reservation.partySize := get data "partySize";
     Reservation.specialRequests := js_or (get data "specialRequests") VNull;
     Reservation.status := js_or (get data "status") (VStr "pending");
     Reservation.createdAt := to_date (get data "createdAt") |}.

Definition getReservations : M (list Reservation.t) :=
  try_catch
    (snapshot <- getDocs (mkQuery "reservations" None (Some ("createdAt", Desc))) ;;
     ret (map reservation_of_doc snapshot))
    (λ _, ret []).

Definition new_reservation (id : string) (insertReservation : obj) (now : Z)
    : Reservation.t :=
  {| Reservation.id := id;
     Reservation.name := get insertReservation "name";
     Reservation.email := get insertReservation "email";
     Reservation.phone := get insertReservation "phone";
     Reservation.date := get insertReservation "date";
     Reservation.time := get insertReservation "time";
     Reservation.partySize := get insertReservation "partySize";
     Reservation.specialRequests := nullish (get insertReservation "specialRequests") VNull;
     Reservation.status := VStr "pending";
     Reservation.createdAt := DateMs now |}.

(** [{...reservation, createdAt: Timestamp.fromDate(reservation.createdAt)}] *)
Definition reservation_firestoreData (r : Reservation.t) (now : Z) : obj :=
  <["createdAt" := Timestamp_fromDate now]>
  (<["id" := VStr (Reservation.id r)]> (<["name" := Reservation.name r]>
  (<["email" := Reservation.email r]> (<["phone" := Reservation.phone r]>
  (<["date" := Reservation.date r]> (<["time" := Reservation.time r]>
  (<["partySize" := Reservation.partySize r]>
  (<["specialRequests" := Reservation.specialRequests r]>
  (<["status" := Reservation.status r]> ∅))))))))).

Definition createReservation (insertReservation : obj) : M Reservation.t :=
  id <- randomUUID ;;
  now <- newDate ;;
  let reservation := new_reservation id insertReservation now in
  setDoc "reservations" id (reservation_firestoreData reservation now) ;;;
  ret reservation.

(** *** Orders *)

(** The mapping of [getOrders] and [getOrder]. *)
Definition order_of_doc (d : string * obj) : Order.t :=
  let data := d.2 in
  {| Order.id := d.1;
     Order.userId := js_or (get data "userId") VNull;
     Order.customerName := get data "customerName";
     Order.customerEmail := get data "customerEmail";
     Order.customerPhone := get data "customerPhone";
     Order.items := get data "items";
     Order.totalAmount := get data "totalAmount";
     Order.orderType := get data "orderType";
     Order.deliveryAddress := js_or (get data "deliveryAddress") VNull;
     Order.notes := js_or (get data "notes") VNull;
     Order.status := js_or (get data "status") (VStr "pending");
     Order.livreurId := js_or (get data "livreurId") VNull;
     Order.createdAt := to_date (get data "createdAt");
     Order.updatedAt := to_date (get data "updatedAt") |}.

(** The mapping of [getOrdersByUser]: [userId] and [status] as stored. *)
Definition order_of_user_doc (d : string * obj) : Order.t :=
  let data := d.2 in
  {| Order.id := d.1;
     Order.userId := get data "userId";
     Order.customerName := get data "customerName";
     Order.customerEmail := get data "customerEmail";
     Order.customerPhone := get data "customerPhone";
     Order.items := get data "items";
     Order.totalAmount := get data "totalAmount";
     Order.orderType := get data "orderType";
     Order.deliveryAddress := js_or (get data "deliveryAddress") VNull;
     Order.notes := js_or (get data "notes") VNull;
     Order.status := get data "status";
     Order.livreurId := js_or (get data "livreurId") VNull;
     Order.createdAt := to_date (get data "createdAt");
     Order.updatedAt := to_date (get data "updatedAt") |}.

(** The mapping of [getOrdersByLivreur]: [status] and [livreurId] as stored. *)
Definition order_of_livreur_doc (d : string * obj) : Order.t :=
  let data := d.2 in
  {| Order.id := d.1;
     Order.userId := js_or (get data "userId") VNull;
     Order.customerName := get data "customerName";
     Order.customerEmail := get data "customerEmail";
     Order.customerPhone := get data "customerPhone";
     Order.items := get data "items";
     Order.totalAmount := get data "totalAmount";
     Order.orderType := get data "orderType";
     Order.deliveryAddress := js_or (get data "deliveryAddress") VNull;
     Order.notes := js_or (get data "notes") VNull;
     Order.status := get data "status";
     Order.livreurId := get data "livreurId";
     Order.createdAt := to_date (get data "createdAt");
     Order.updatedAt := to_date (get data "updatedAt") |}.

(** The mapping of [getPendingOrders]: [status] as stored. *)
Definition order_of_pending_doc (d : string * obj) : Order.t :=
  let data := d.2 in
  {| Order.id := d.1;
     Order.userId := js_or (get data "userId") VNull;
     Order.customerName := get data "customerName";
     Order.customerEmail := get data "customerEmail";
     Order.customerPhone := get data "customerPhone";
     Order.items := get data "items";
     Order.totalAmount := get data "totalAmount";
     Order.orderType := get data "orderType";
     Order.deliveryAddress := js_or (get data "deliveryAddress") VNull;
     Order.notes := js_or (get data "notes") VNull;
     Order.status := get data "status";
     Order.livreurId := js_or (get data "livreurId") VNull;
     Order.createdAt := to_date (get data "createdAt");
     Order.updatedAt := to_date (get data "updatedAt") |}.

Definition getOrders : M (list Order.t) :=
  try_catch
    (snapshot <- getDocs (mkQuery "orders" None (Some ("createdAt", Desc))) ;;
     ret (map order_of_doc snapshot))
    (λ _, ret []).

Definition getOrder (id : string) : M (option Order.t) :=
  try_catch
    (docSnap <- getDoc "orders" id ;;
     match docSnap with
     | None => ret None
     | Some data => ret (Some (order_of_doc (id, data)))
     end)
    (λ _, ret None).

Definition new_order (id : string) (insertOrder : obj) (now : Z) : Order.t :=
  {| Order.id := id;
     Order.userId := nullish (get insertOrder "userId") VNull;
     Order.customerName := get insertOrder "customerName";
     Order.customerEmail := get insertOrder "customerEmail";
     Order.customerPhone := get insertOrder "customerPhone";
     Order.items := get insertOrder "items";
     Order.totalAmount := get insertOrder "totalAmount";
     Order.orderType := get insertOrder "orderType";
     Order.deliveryAddress := nullish (get insertOrder "deliveryAddress") VNull;
     Order.notes := nullish (get insertOrder "notes") VNull;
     Order.status := VStr "pending";
     Order.livreurId := nullish (get insertOrder "livreurId") VNull;
     Order.createdAt := DateMs now;
     Order.updatedAt := DateMs now |}.

(** [{...order, createdAt: Timestamp.fromDate(order.createdAt),
        updatedAt: Timestamp.fromDate(order.updatedAt)}]; both dates of a new
    order are the instant [now]. *)
Definition order_firestoreData (o : Order.t) (now : Z) : obj :=
  <["updatedAt" := Timestamp_fromDate now]>
  (<["createdAt" := Timestamp_fromDate now]>
  (<["id" := VStr (Order.id o)]> (<["userId" := Order.userId o]>
  (<["customerName" := Order.customerName o]>
  (<["customerEmail" := Order.customerEmail o]>
  (<["customerPhone" := Order.customerPhone o]>
  (<["items" := Order.items o]> (<["totalAmount" := Order.totalAmount o]>
  (<["orderType" := Order.orderType o]>
  (<["deliveryAddress" := Order.deliveryAddress o]>
  (<["notes" := Order.notes o]> (<["status" := Order.status o]>
  (<["livreurId" := Order.livreurId o]> ∅))))))))))))).

Definition createOrder (insertOrder : obj) : M Order.t :=
  id <- randomUUID ;;
  now <- newDate ;;
  let order := new_order id insertOrder now in
  setDoc "orders" id (order_firestoreData order now) ;;;
  ret order.

Definition updateOrder (id : string) (updates : obj) : M (option Order.t) :=
  try_catch
    (docSnap <- getDoc "orders" id ;;
     match docSnap with
     | None => ret None
     | Some _ =>
         now <- newDate ;;
         let updateData := <["updatedAt" := Timestamp_fromDate now]> updates in
         updateDoc "orders" id (remove_undefined updateData) ;;;
         getOrder id
     end)
    (λ _, ret None).

Definition getOrdersByUser (userId : Z) : M (list Order.t) :=
  try_catch
    (snapshot <- getDocs (mkQuery "orders" (Some ("userId", VNum userId))
                                  (Some ("createdAt", Desc))) ;;
     ret (map order_of_user_doc snapshot))
    (λ _, ret []).

Definition getOrdersByLivreur (livreurId : Z) : M (list Order.t) :=
  try_catch
    (snapshot <- getDocs (mkQuery "orders" (Some ("livreurId", VNum livreurId))
                                  (Some ("createdAt", Desc))) ;;
     ret (map order_of_livreur_doc snapshot))
    (λ _, ret []).

Definition getPendingOrders : M (list Order.t) :=
  try_catch
    (snapshot <- getDocs (mkQuery "orders" (Some ("status", VStr "pending"))
                                  (Some ("createdAt", Desc))) ;;
     ret (map order_of_pending_doc snapshot))
    (λ _, ret []).

(** *** The constructor and the other user methods *)

(** [new FirestoreStorage()]: an empty user map and the counter at 1, then
    the default data.  The constructor starts [initializeDefaultData] and
    does not wait for it: this is the constructor together with the
    initialization run to its end, no other method being called in between.
    [hashed] is as in [initializeDefaultData]. *)
Definition FirestoreStorage_new (hashed : string) : M unit :=
  (λ w, (Ok tt, set_users ∅ 1 w)) ;;;
  initializeDefaultData hashed.

(** [this.users.values()]: a [Map] lists its entries in the order of their
    insertion.  The keys of [this.users] are inserted in increasing order,
    the default user under 1 and the others under the successive values of
    the counter, so that this is the order of the identifiers. *)
Definition user_le (a b : Z * User.t) : Prop := a.1 ≤ b.1.

#[global] Instance user_le_dec : RelDecision user_le.
Proof. intros a b. unfold user_le. apply _. Defined.

Definition users_values (w : World) : list User.t :=
  (merge_sort user_le (map_to_list (users w))).*2.

(** [Array.from(this.users.values()).find(u => u.email === email)] *)
Definition getUserByEmail (email : string) : M (option User.t) :=
  λ w, (Ok (List.find (λ u, String.eqb (User.email u) email) (users_values w)), w).

Definition getAllUsers : M (list User.t) :=
  λ w, (Ok (users_values w), w).

(** ** The routes *)

Inductive Body : Type :=
  | JOrders (orders : list Order.t)
  | JOrder (order : option Order.t)
  | JError (error : string)
  | JSuccess.

Record Response : Type := mkResponse { status_code : Z; body : Body }.

(** [res.json(b)] and [res.status(c).json({ error })] *)
Definition json (b : Body) : Response := mkResponse 200 b.
Definition error (c : Z) (msg : string) : Response := mkResponse c (JError msg).

Definition Map_values {V} (m : list (string * V)) : list V := map snd m.

(** [[...pendingOrders, ...assignedOrders].forEach(order => orderMap.set(order.id, order))] *)
Definition combine_orders (pendingOrders assignedOrders : list Order.t) : list Order.t :=
  Map_values (fold_left (λ orderMap order, Map_set (Order.id order) order orderMap)
                        (pendingOrders ++ assignedOrders) []).

(** [GET /api/orders], behind [requireAuth]: the session carries [userId]. *)
Definition get_orders (session_userId : Z) : M Response :=
  try_catch
    (user <- getUserById session_userId ;;
     match user with
     | None => ret (error 404 "User not found")
     | Some user =>
         orders <-
           (if String.eqb (User.role user) "owner" then getOrders
            else if String.eqb (User.role user) "livreur" then
              pendingOrders <- getPendingOrders ;;
              assignedOrders <- getOrdersByLivreur (User.id user) ;;
              ret (combine_orders pendingOrders assignedOrders)
            else getOrdersByUser (User.id user)) ;;
         ret (json (JOrders orders))
     end)
    (λ _, ret (error 500 "Failed to fetch orders")).

(** The [updates] object of [PATCH /api/orders/:id]. *)
Definition order_updates (user : User.t) (order : Order.t) (req_body : obj) (now : Z) : obj :=
  let updates := {["updatedAt" := VDate now]} in
  if truthy (get req_body "status") then
    let updates := <["status" := get req_body "status"]> updates in
    if is_string_lit (get req_body "status") "confirmed"
       && String.eqb (User.role user) "livreur"
       && negb (truthy (Order.livreurId order))
    then <["livreurId" := VNum (User.id user)]> updates
    else updates
  else updates.

(** [PATCH /api/orders/:id], behind [requireAuth]. *)
Definition patch_order (session_userId : Z) (id : string) (req_body : obj) : M Response :=
  try_catch
    (user <- getUserById session_userId ;;
     match user with
     | None => ret (error 404 "User not found")
     | Some user =>
         order <- getOrder id ;;
         match order with
         | None => ret (error 404 "Order not found")
         | Some order =>
             if String.eqb (User.role user) "livreur" || String.eqb (User.role user) "owner"
             then
               now <- newDate ;;
               updatedOrder <- updateOrder id (order_updates user order req_body now) ;;
               ret (json (JOrder updatedOrder))
             else ret (error 403 "Not authorized to update orders")
         end
     end)
    (λ _, ret (error 500 "Failed to update order")).

(** [client.delete(fileName)] on the object storage.  The object storage is
    not part of the world: the call leaves the world as it is. *)
Definition Client_delete (fileName : string) : M unit := ret tt.

(** [if (item.imageUrl && item.imageUrl.startsWith('/storage/')) { ... }]:
    the image file is deleted from the object storage, and a failure to do so
    is ignored. *)
Definition delete_image (imageUrl : value) : M unit :=
  match imageUrl with
  | VStr s =>
      if truthy imageUrl && String.prefix "/storage/" s
      then try_catch
             (Client_delete (String.substring 9 (String.length s - 9) s))
             (λ _, ret tt)
      else ret tt
  | _ => if truthy imageUrl then throw TypeError else ret tt
  end.

(** [DELETE /api/menu-items/:id], behind [requireRole("owner")]. *)
Definition delete_menu_item (id : string) : M Response :=
  try_catch
    (item <- getMenuItem id ;;
     match item with
     | None => ret (error 404 "Menu item not found")
     | Some item =>
         delete_image (MenuItem.imageUrl item) ;;;
         deleted <- deleteMenuItem id ;;
         if deleted : bool then ret (json JSuccess)
         else ret (error 404 "Menu item not found")
     end)
    (λ _, ret (error 500 "Failed to delete menu item")).

(** *** The other routes *)

(** The answer of a handler: the status, and the JSON body, which is a value
    or an object [{ error, details }]; [details] is [undefined] where the
    handler gives none. *)
Inductive Reply (A : Type) : Type :=
  | Sent (a : A)
  | Refused (error : string) (details : value).
Arguments Sent {A} a.
Arguments Refused {A} error details.

Record Answer (A : Type) : Type := mkAnswer {
  answer_status : Z;
  answer_body : Reply A;
}.
Arguments mkAnswer {A} answer_status answer_body.
Arguments answer_status {A} a.
Arguments answer_body {A} a.

(** [res.status(c).json(a)] and [res.status(c).json({ error })] *)
Definition respond {A} (c : Z) (a : A) : Answer A := mkAnswer c (Sent a).
Definition refuse {A} (c : Z) (msg : string) : Answer A := mkAnswer c (Refused msg VUndef).

(** [GET /api/categories] *)
Definition get_categories : M (Answer (list obj)) :=
  try_catch
    (categories <- getCategories ;;
     ret (respond 200 categories))
    (λ _, ret (refuse 500 "Failed to fetch categories")).

(** [GET /api/menu-items] *)
Definition get_menu_items : M (Answer (list MenuItem.t)) :=
  try_catch
    (items <- getMenuItems ;;
     ret (respond 200 items))
    (λ _, ret (refuse 500 "Failed to fetch menu items")).

(** [GET /api/menu-items/:id] *)
Definition get_menu_item (id : string) : M (Answer MenuItem.t) :=
  try_catch
    (item <- getMenuItem id ;;
     match item with
     | None => ret (refuse 404 "Menu item not found")
     | Some item => ret (respond 200 item)
     end)
    (λ _, ret (refuse 500 "Failed to fetch menu item")).

(** [GET /api/reservations] *)
Definition get_reservations : M (Answer (list Reservation.t)) :=
  try_catch
    (reservations <- getReservations ;;
     ret (respond 200 reservations))
    (λ _, ret (refuse 500 "Failed to fetch reservations")).

(** [v === 'true' || v === true] *)
Definition true_flag (v : value) : value :=
  VBool (is_string_lit v "true" || match v with VBool true => true | _ => false end).

(** [{ ...req.body, available: ..., popular: ... }] *)
Definition with_flags (req_body : obj) : obj :=
  <["popular" := true_flag (get req_body "popular")]>
  (<["available" := true_flag (get req_body "available")]> req_body).

Section Validation.

(** [schema.parse(data)] for the three schemas of [@shared/schema]: the
    validated data, or the issues of the [ZodError] that [parse] throws. *)
Variable insertReservationSchema : obj → value + obj.
Variable insertOrderSchema : obj → value + obj.
Variable insertMenuItemSchema : obj → value + obj.

(** [POST /api/reservations].  The error that [parse] throws is the one the
    handler answers with 400; everything thrown later is answered with
    500. *)
Definition post_reservations (req_body : obj) : M (Answer Reservation.t) :=
  match insertReservationSchema req_body with
  | inl errors => ret (mkAnswer 400 (Refused "Invalid reservation data" errors))
  | inr validatedData =>
      try_catch
        (reservation <- createReservation validatedData ;;
         ret (respond 201 reservation))
        (λ _, ret (refuse 500 "Failed to create reservation"))
  end.

(** [POST /api/orders]; [session_userId] is [req.session?.userId]. *)
Definition post_orders (session_userId : option Z) (req_body : obj) : M (Answer Order.t) :=
  let userId := from_option VNum VUndef session_userId in
  match insertOrderSchema (<["userId" := js_or userId VNull]> req_body) with
  | inl errors => ret (mkAnswer 400 (Refused "Invalid order data" errors))
  | inr validatedData =>
      try_catch
        (order <- createOrder validatedData ;;
         ret (respond 201 order))
        (λ _, ret (refuse 500 "Failed to create order"))
  end.

(** [POST /api/menu-items], behind [requireRole("owner")]. *)
Definition post_menu_items (req_body : obj) : M (Answer MenuItem.t) :=
  let menuItemData := with_flags req_body in
  match insertMenuItemSchema menuItemData with
  | inl errors => ret (mkAnswer 400 (Refused "Invalid menu item data" errors))
  | inr validatedData =>
      try_catch
        (menuItem <- createMenuItem validatedData ;;
         ret (respond 201 menuItem))
        (λ _, ret (refuse 500 "Failed to create menu item"))
  end.

End Validation.

(** What the handling of an uploaded file ([req.file]) takes from outside
    the world. *)
Record Upload : Type := mkUpload {
  upload_extname : string;        (* [path.extname(req.file.originalname)] *)
  upload_randomString : string;   (* [Math.random().toString(36).substring(2, 15)] *)
  upload_succeeds : bool;         (* reading the temporary file, sending it and
                                     removing it raise no exception *)
}.

(** [`menu-items/${timestamp}-${randomString}${fileExtension}`] *)
Definition upload_fileName (timestamp : Z) (file : Upload) : string :=
  "menu-items/" +:+ Number_toString timestamp +:+ "-" +:+ upload_randomString file
    +:+ upload_extname file.

(** [await client.uploadFromBytes(fileName, ...)] and the removal of the
    temporary file.  The object storage and the file system are not part of
    the world. *)
Definition Client_upload (file : Upload) : M unit :=
  if upload_succeeds file then ret tt else throw BackendFailure.

(** [PATCH /api/menu-items/:id], behind [requireRole("owner")]. *)
Definition patch_menu_item (id : string) (req_body : obj) (req_file : option Upload)
    : M (Answer MenuItem.t) :=
  try_catch
    (currentItem <- getMenuItem id ;;
     match currentItem with
     | None => ret (refuse 404 "Menu item not found")
     | Some currentItem =>
         let updates := with_flags req_body in
         updates <-
           match req_file with
           | None => ret updates
           | Some file =>
               timestamp <- newDate ;;
               let fileName := upload_fileName timestamp file in
               Client_upload file ;;;
               delete_image (MenuItem.imageUrl currentItem) ;;;
               ret (<["imageUrl" := VStr ("/storage/" +:+ fileName)]> updates)
           end ;;
         updatedItem <- updateMenuItem id updates ;;
         match updatedItem with
         | None => ret (refuse 404 "Menu item not found")
         | Some updatedItem => ret (respond 200 updatedItem)
         end
     end)
    (λ _, ret (refuse 500 "Failed to update menu item")).

(** [DELETE /api/menu-items/:id/image], behind [requireRole("owner")]; the
    body of the answer is [{ success: true, item: updatedItem }]. *)
Definition delete_menu_item_image (id : string) : M (Answer (option MenuItem.t)) :=
  try_catch
    (item <- getMenuItem id ;;
     match item with
     | None => ret (refuse 404 "Menu item not found")
     | Some item =>
         delete_image (MenuItem.imageUrl item) ;;;
         updatedItem <- updateMenuItem id {["imageUrl" := VNull]} ;;
         ret (respond 200 updatedItem)
     end)
    (λ _, ret (refuse 500 "Failed to remove menu item image")).

(** A user as the routes send it: [({ password, ...user }) => user]. *)
Module PublicUser.
Record t : Type := mk {
  id : Z;
  email : string;
  name : string;
  phone : value;
  role : string;
  active : bool;
  createdAt : Z;
}.
End PublicUser.

Definition withoutPassword (u : User.t) : PublicUser.t :=
  {| PublicUser.id := User.id u;
     PublicUser.email := User.email u;
     PublicUser.name := User.name u;
     PublicUser.phone := User.phone u;
     PublicUser.role := User.role u;
     PublicUser.active := User.active u;
     PublicUser.createdAt := User.createdAt u |}.

(** [GET /api/users], behind [requireRole("owner")]. *)
Definition get_users : M (Answer (list PublicUser.t)) :=
  try_catch
    (users <- getAllUsers ;;
     ret (respond 200 (map withoutPassword users)))
    (λ _, ret (refuse 500 "Failed to fetch users")).

(** The body of [POST /api/users/create-staff]: [email], [password] and
    [name] are JSON strings, or absent. *)
Module StaffRequest.
Record t : Type := mk {
  email : option string;
  password : option string;
  name : option string;
  phone : value;
  role : value;
}.
End StaffRequest.

(** [!s] on a string that may be absent. *)
Definition missing (s : option string) : bool :=
  match s with
  | None => true
  | Some s => String.eqb s ""
  end.

(** [POST /api/users/create-staff], behind [requireRole("owner")];
    [hashedPassword] is the result of [bcrypt.hash(password, 10)]. *)
Definition create_staff (req_body : StaffRequest.t) (hashedPassword : string)
    : M (Answer PublicUser.t) :=
  try_catch
    (let email := StaffRequest.email req_body in
     let name := StaffRequest.name req_body in
     let role := StaffRequest.role req_body in
     if missing email || missing (StaffRequest.password req_body) || missing name
        || negb (truthy role)
     then ret (refuse 400 "Email, password, name, and role are required")
     else
       match role with
       | VStr role =>
           if negb (String.eqb role "owner" || String.eqb role "livreur")
           then ret (refuse 400 "Invalid role. Must be owner or livreur")
           else
             existingUser <- getUserByEmail (default "" email) ;;
             match existingUser with
             | Some _ => ret (refuse 400 "Email already registered")
             | None =>
                 user <- createUser (default "" email) hashedPassword (default "" name)
                                    (js_or (StaffRequest.phone req_body) VNull) (Some role) ;;
                 ret (respond 201 (withoutPassword user))
             end
       | _ => ret (refuse 400 "Invalid role. Must be owner or livreur")
       end)
    (λ _, ret (refuse 500 "Failed to create staff user")).

(** *** The check of an image file in the client *)

Module ImageFile.

Definition ALLOWED_IMAGE_TYPES : list string :=
  ["image/jpeg"; "image/jpg"; "image/png"; "image/gif"; "image/webp"].

(** 5MB *)
Definition MAX_FILE_SIZE : Z := 5 * 1024 * 1024.

Record Validation : Type := mkValidation {
  valid : bool;
  error : option string;
}.

(** [validateImageFile(file)], on [file.type] and [file.size]. *)
Definition validateImageFile (file_type : string) (file_size : Z) : Validation :=
  if negb (existsb (String.eqb file_type) ALLOWED_IMAGE_TYPES)
  then mkValidation false
         (Some "Invalid file type. Only JPG, PNG, GIF, and WEBP are allowed.")
  else if MAX_FILE_SIZE <? file_size
  then mkValidation false
         (Some ("File size must be less than "
                +:+ Number_toString (MAX_FILE_SIZE / 1024 / 1024) +:+ "MB"))
  else mkValidation true None.

End ImageFile.

(** ** Vocabulary of the statements *)

(** Whether the next store call fails. *)
Definition next_fault (w : World) : bool :=
  match faults w with true :: _ => true | _ => false end.

(** The world once the backend has served, or refused, the call [c]. *)
Definition served (c : Call) (w : World) : World := (backend c w).2.

(** A read operation [m] turns a failure of the backend into [empty] and
    returns normally otherwise. *)
Definition degrades_to {A} (m : M A) (empty : A) (w : World) : Prop :=
  (next_fault w = true ∧ (m w).1 = Ok empty) ∨
  (next_fault w = false ∧ ∃ r, (m w).1 = Ok r).

(** The fields of a stored document, empty when it does not exist. *)
Definition fields_of (w : World) (col id : string) : obj :=
  default ∅ (document w col id).

(** The field [k] of the input [o] is present: it is not [undefined]. *)
Definition defined (o : obj) (k : string) : Prop := is_undefined (get o k) = false.

(** *** Decimal numerals *)

Definition digit_of_char (c : ascii) : option Z :=
  let n := Z.of_N (N_of_ascii c) in
  if (48 <=? n) && (n <=? 57) then Some (n - 48) else None.

(** The integer the digits [s] denote after the digits of [acc]. *)
Fixpoint digits_value (s : string) (acc : Z) : option Z :=
  match s with
  | "" => Some acc
  | String c rest =>
      match digit_of_char c with
      | Some d => digits_value rest (10 * acc + d)
      | None => None
      end
  end.

(** The digits behind the point, and their number. *)
Fixpoint read_fraction (s : string) (acc f : Z) : option (Z * Z) :=
  match s with
  | "" => Some (acc, f)
  | String c rest =>
      match digit_of_char c with
      | Some d => read_fraction rest (10 * acc + d) (f + 1)
      | None => None
      end
  end.

Fixpoint read_number (s : string) (acc : Z) : option (Z * Z) :=
  match s with
  | "" => Some (acc, 0)
  | String c rest =>
      if Ascii.eqb c "." then read_fraction rest acc 0
      else match digit_of_char c with
           | Some d => read_number rest (10 * acc + d)
           | None => None
           end
  end.

(** A numeral without sign: digits, with at most one point after the
    first of them. *)
Definition read_unsigned (s : string) : option (Z * Z) :=
  match s with
  | String c _ =>
      match digit_of_char c with
      | Some _ => read_number s 0
      | None => None
      end
  | "" => None
  end.

(** The decimal numeral [s], with a minus sign if negative: whether it has
    the sign, its digits as an integer [N], and the number [f] of digits
    behind the point; it denotes [N / 10^f].  [None] for any other string. *)
Definition read_decimal (s : string) : option (bool * Z * Z) :=
  match s with
  | String c rest =>
      if Ascii.eqb c "-" then (λ r, (true, r.1, r.2)) <$> read_unsigned rest
      else (λ r, (false, r.1, r.2)) <$> read_unsigned s
  | "" => None
  end.

(** The string is a decimal numeral, and the number nearest to what it
    denotes is the number [v]: [Number(s)] is [v]. *)
Definition reads_as (s : string) (v : value) : Prop :=
  ∃ negative N f, read_decimal s = Some (negative, N, f) ∧
    match v with
    | VNum 0 => N = 0
    | VNum n => negative = (n <? 0) ∧ Number_is N (- f) (Z.to_pos (Z.abs n)) 0 = true
    | VFrac sign m p => negative = sign ∧ Number_is N (- f) m (- Z.pos p) = true
    | _ => False
    end.

(** The number is printed without an exponent: it is a safe integer, or
    the exponent [n] of its digits is between -5 and 21. *)
Definition prints_positionally (v : value) : Prop :=
  match v with
  | VNum n => safe_integer n ∨ is_positional (Finite_exponent (Z.to_pos (Z.abs n)) 0) = true
  | VFrac _ m p => is_positional (Finite_exponent m (- Z.pos p)) = true
  | _ => False
  end.

(** *** What the store accepts *)

(** The client library accepts the value: it is not [undefined], and holds
    no [undefined], no array directly inside an array and no field with an
    empty or reserved name, at any depth. *)
Definition storable (v : value) : Prop := refused_value false v = false.

(** Every field that the input carries is a value the client library
    accepts. *)
Definition carries_storable (o : obj) : Prop :=
  ∀ k, get o k = VUndef ∨ storable (get o k).

(** The key of an update is the name of a field of the document, not a
    path into one. *)
Definition plain_name (k : string) : Prop := field_path k = Some [k].

(** The key of an update addresses the field [k] of the document, or a
    field inside it. *)
Definition addresses (key k : string) : Prop := ∃ rest, field_path key = Some (k :: rest).

(** The update addresses fields of the document by their names, with
    values the client library accepts. *)
Definition plain_update (data : obj) : Prop :=
  ∀ k v, data !! k = Some v → plain_name k ∧ storable v.

(** The store's order on two field values, as [orderBy] compares them;
    on two numbers, and on two timestamps, it is the numeric order. *)
Definition fs_le (a b : value) : Prop :=
  match fs_key a, fs_key b with
  | (r1, a1, s1), (r2, a2, s2) =>
      r1 < r2 ∨ (r1 = r2 ∧ (a1 < a2 ∨ (a1 = a2 ∧ String.le s1 s2)))
  end.

(** The instant [a] is not before the instant [b]. *)
Definition not_before (a b : JsDate) : Prop :=
  match a, b with
  | DateMs x, DateMs y => y ≤ x
  | _, _ => False
  end.

(** The instant [a] is strictly before the instant [b]. *)
Definition earlier (a b : JsDate) : Prop :=
  match a, b with
  | DateMs x, DateMs y => x < y
  | _, _ => False
  end.

(** Every [createdAt] of the collection is a timestamp of the store, as the
    gateway writes it. *)
Definition timestamped (w : World) (col : string) : Prop :=
  ∀ id d v, document w col id = Some d → d !! "createdAt" = Some v →
            ∃ ns, v = VTimestamp ns.

(** The snapshot holds the documents of the collection that carry the
    field, each of them once. *)
Definition listed (w : World) (col field : string) (snapshot : list (string * obj))
    : Prop :=
  NoDup snapshot.*1 ∧
  ∀ id d, (id, d) ∈ snapshot ↔ document w col id = Some d ∧ is_Some (d !! field).

(** [timestamped], as a check on the documents of the collection. *)
Definition timestamped_check (w : World) (col : string) : bool :=
  forallb (λ x, match x.2 !! "createdAt" with
                | Some (VTimestamp _) | None => true
                | Some _ => false
                end) (collection w col).

(** The users in memory are filed under their own identifiers, which are
    positive, as is the counter the next identifier comes from. *)
Definition users_wf (w : World) : Prop :=
  0 < userIdCounter w ∧
  ∀ k u, users w !! k = Some u → User.id u = k ∧ 0 < k.

(** *** The courier's view *)

Definition is_pending (d : obj) : bool := fs_eqb (get d "status") (VStr "pending").

Definition assigned_to (uid : Z) (d : obj) : bool :=
  fs_eqb (get d "livreurId") (VNum uid).

(** [!order.livreurId] on the mapped order: the stored field is absent,
    [null] or otherwise falsy. *)
Definition unassigned (d : obj) : bool := negb (truthy (get d "livreurId")).

(** The orders of the courier's view, as the route collects them: the
    pending ones and the courier's own. *)
Definition visible_to_livreur (uid : Z) (d : obj) : bool :=
  is_pending d || assigned_to uid d.

(** The orders of the courier's view in the words of the specification:
    pending with no courier assigned, or assigned to this courier. *)
Definition visible_as_specified (uid : Z) (d : obj) : bool :=
  is_pending d && unassigned d || assigned_to uid d.

(** The view of the courier [uid] is the list [os]: one order per
    identifier, and the identifiers are those of the listed orders that
    [visible] selects.  The listed orders are the documents of the collection
    that carry [createdAt], the field the lists are ordered by. *)
Definition livreur_view (visible : Z → obj → bool) (w : World) (uid : Z)
    (os : list Order.t) : Prop :=
  NoDup (Order.id <$> os) ∧
  ∀ id, id ∈ Order.id <$> os ↔
        ∃ d, document w "orders" id = Some d ∧ is_Some (d !! "createdAt") ∧
             visible uid d = true.

(** The [orderMap] of the route once the orders of [l] have been set. *)
Definition orderMap_of (l : list Order.t) (m : list (string * Order.t))
    : list (string * Order.t) :=
  fold_left (λ orderMap order, Map_set (Order.id order) order orderMap) l m.

(** *** The users in memory, continued *)

(** Every identifier in use lies below the counter, so that the next
    identifier is a new one. *)
Definition users_fresh (w : World) : Prop :=
  ∀ k, is_Some (users w !! k) → k < userIdCounter w.

(** No two users have the same email. *)
Definition emails_unique (w : World) : Prop :=
  ∀ i j u v, users w !! i = Some u → users w !! j = Some v →
             User.email u = User.email v → i = j.

(** *** What is read back of a created record *)

(** No field of the input is a [Date]: the store keeps the values of such
    an input as they are. *)
Definition dateless (o : obj) : Prop := ∀ k, stored (get o k) = get o k.

(** The value is [null] or truthy, not an empty string, a zero or [false]:
    [v || null] is [v]. *)
Definition null_or_truthy (v : value) : Prop := v = VNull ∨ truthy v = true.

(** The menu item, the reservation and the order that the read operations
    return for a document holding the fields of a record. *)
Definition menuItem_as_read (m : MenuItem.t) : MenuItem.t :=
  {| MenuItem.id := MenuItem.id m;
     MenuItem.name := MenuItem.name m;
     MenuItem.description := MenuItem.description m;
     MenuItem.price := MenuItem.price m;
     MenuItem.deliveryFee := js_or (MenuItem.deliveryFee m) (VStr "0");
     MenuItem.categoryId := MenuItem.categoryId m;
     MenuItem.imageUrl := js_or (MenuItem.imageUrl m) VNull;
     MenuItem.available := VBool (not_false (MenuItem.available m));
     MenuItem.popular := js_or (MenuItem.popular m) (VBool false) |}.

Definition reservation_as_read (r : Reservation.t) : Reservation.t :=
  {| Reservation.id := Reservation.id r;
     Reservation.name := Reservation.name r;
     Reservation.email := Reservation.email r;
     Reservation.phone := Reservation.phone r;
     Reservation.date := Reservation.date r;
     Reservation.time := Reservation.time r;
     Reservation.partySize := Reservation.partySize r;
     Reservation.specialRequests := js_or (Reservation.specialRequests r) VNull;
     Reservation.status := Reservation.status r;
     Reservation.createdAt := Reservation.createdAt r |}.

Definition order_as_read (o : Order.t) : Order.t :=
  {| Order.id := Order.id o;
     Order.userId := js_or (Order.userId o) VNull;
     Order.customerName := Order.customerName o;
     Order.customerEmail := Order.customerEmail o;
     Order.customerPhone := Order.customerPhone o;
     Order.items := Order.items o;
     Order.totalAmount := Order.totalAmount o;
     Order.orderType := Order.orderType o;
     Order.deliveryAddress := js_or (Order.deliveryAddress o) VNull;
     Order.notes := js_or (Order.notes o) VNull;
     Order.status := Order.status o;
     Order.livreurId := js_or (Order.livreurId o) VNull;
     Order.createdAt := Order.createdAt o;
     Order.updatedAt := Order.updatedAt o |}.

(** The creation [m] does not catch what the store throws.  When the
    backend fails the call, [m] throws; and when [m] throws, the store is as
    before, and either the payload had an [undefined] field and no call was
    made, or the backend refused the one call, a [setDoc] on [col]. *)
Definition fails_cleanly {A} (m : M A) (col : string) (w : World) : Prop :=
  (next_fault w = true → ∃ e, (m w).1 = Throw e) ∧
  ∀ e, (m w).1 = Throw e →
    db (m w).2 = db w ∧
    ((e = InvalidData ∧ calls (m w).2 = calls w) ∨
     (e = BackendFailure ∧ next_fault w = true ∧
      ∃ id, calls (m w).2 = calls w ++ [CSetDoc col id])).

(** *** The views of the orders *)

(** The list [os] holds one order per identifier, and the identifiers are
    those of the listed orders that [visible] selects; the listed orders
    are the documents that carry [createdAt]. *)
Definition orders_view (visible : obj → bool) (w : World) (os : list Order.t) : Prop :=
  NoDup (Order.id <$> os) ∧
  ∀ id, id ∈ Order.id <$> os ↔
        ∃ d, document w "orders" id = Some d ∧ is_Some (d !! "createdAt") ∧
             visible d = true.

(** The order belongs to the user [uid]. *)
Definition ordered_by (uid : Z) (d : obj) : bool := fs_eqb (get d "userId") (VNum uid).

(** *** Menu items and their images *)

(** The stored image reference is a string, or is falsy: the handlers call
    [startsWith] on a truthy one. *)
Definition string_or_falsy (v : value) : Prop :=
  match v with
  | VStr _ => True
  | _ => truthy v = false
  end.

(** *** The creation routes *)

(** The creation route [route] answers 400 and touches nothing, or 500 with
    the store as before, or 201 with a record which is then stored in [col]
    under its identifier, every other document being as before. *)
Definition stores_what_it_reports {A} (route : M (Answer A)) (col : string)
    (id_of : A → string) (w : World) : Prop :=
  ∃ a, (route w).1 = Ok a ∧
    ((answer_status a = 400 ∧ (route w).2 = w) ∨
     (answer_status a = 500 ∧ db (route w).2 = db w) ∨
     (answer_status a = 201 ∧
      ∃ x, answer_body a = Sent x ∧
           is_Some (document (route w).2 col (id_of x)) ∧
           ∀ col' id', (col', id') ≠ (col, id_of x) →
                       document (route w).2 col' id' = document w col' id')).

(** The validator that accepts every input and returns it as it is. *)
Definition accept_all (data : obj) : value + obj := inr data.

(** Every stored order has a status. *)
Definition orders_have_status (w : World) : Prop :=
  ∀ id d, document w "orders" id = Some d → truthy (get d "status") = true.

(** ** Sample worlds *)

(** A clock that advances by one millisecond per reading, and the
    identifiers [id-0], [id-1], ... *)
Definition sample_clock (n : nat) : Z := 1700000000000 + Z.of_nat n.
Definition sample_uuid (n : nat) : string := "id-" +:+ Number_toString (Z.of_nat n).

Definition staff (id : Z) (role : string) : User.t :=
  User.mk id "staff@test.com" "hash" "Staff" VNull role true 1700000000000.

(** An empty store and a working backend; couriers 7 and 8, the owner 3 and
    the client 4. *)
Definition empty_world : World :=
  mkWorld ∅ (<[4 := staff 4 "client"]> (<[3 := staff 3 "owner"]>
             (<[8 := staff 8 "livreur"]> (<[7 := staff 7 "livreur"]> ∅))))
          9 [] sample_clock 0 sample_uuid 0 [].

Definition sample_menuItem : obj :=
  <["name" := VStr "Crêpe sucre"]> (<["description" := VStr "Sucre"]>
  (<["price" := VNum 12]> (<["categoryId" := VStr "crepe"]> ∅))).

Definition sample_order : obj :=
  <["customerName" := VStr "Lina"]> (<["customerEmail" := VStr "lina@test.com"]>
  (<["customerPhone" := VStr "0550"]> (<["items" := VArr []]>
  (<["totalAmount" := VStr "12"]> (<["orderType" := VStr "delivery"]> ∅))))).

Definition sample_reservation : obj :=
  <["name" := VStr "Lina"]> (<["email" := VStr "lina@test.com"]>
  (<["phone" := VStr "0550"]> (<["date" := VStr "2024-05-01"]>
  (<["time" := VStr "19:30"]> (<["partySize" := VNum 4]> ∅))))).

(** The world after the menu item [id-0] and the order [id-1] have been
    created. *)
Definition stocked_world : World :=
  (createOrder sample_order (createMenuItem sample_menuItem empty_world).2).2.

(** The order [id-1] claimed by courier 7, and then set back to [pending] by
    the owner. *)
Definition claimed_world : World :=
  (patch_order 7 "id-1" {["status" := VStr "confirmed"]} stocked_world).2.

Definition reopened_world : World :=
  (patch_order 3 "id-1" {["status" := VStr "pending"]} claimed_world).2.

(** The world after a first reservation has been made. *)
Definition booked_world : World :=
  (createReservation sample_reservation empty_world).2.

(** An empty store, a clock that stands still, and the identifiers [b],
    then [a]. *)
Definition same_instant_world : World :=
  mkWorld ∅ ∅ 1 [] (λ _, 1700000000000) 0
          (λ n, match n with O => "b" | S _ => "a" end) 0 [].

(** The world once the storage has been constructed over the empty store. *)
Definition opened_world : World := (FirestoreStorage_new "hash" empty_world).2.

(** The world after the customer 4 has placed the order [id-2]. *)
Definition ordered_world : World :=
  (createOrder (<["userId" := VNum 4]> sample_order) stocked_world).2.

(** * Properties *)

(** ** The store's order *)

#[global] Instance key_le_total : Total key_le.
Proof.
  intros [[[r1 a1] s1] i1] [[[r2 a2] s2] i2]. unfold key_le.
  destruct (total String.le s1 s2), (total String.le i1 i2),
    (decide (s1 = s2)), (Z.lt_trichotomy r1 r2) as [?|[?|?]],
    (Z.lt_trichotomy a1 a2) as [?|[?|?]]; intuition auto.
Qed.

#[global] Instance key_le_trans : Transitive key_le.
Proof.
  intros [[[r1 a1] s1] i1] [[[r2 a2] s2] i2] [[[r3 a3] s3] i3]. unfold key_le.
  intros [?|[-> H12]] [?|[-> H23]]; [left; lia|by left|by left|right; split; [done|]].
  destruct H12 as [?|[-> H12]], H23 as [?|[-> H23]];
    [left; lia|by left|by left|right; split; [done|]].
  destruct H12 as [[Hle12 Hne12]|[-> H12]], H23 as [[Hle23 Hne23]|[-> H23]].
  - left. split; [by etrans|]. intros ->.
    apply Hne12. by apply (anti_symm String.le).
  - by left.
  - by left.
  - right. split; [done|]. by etrans.
Qed.

#[global] Instance doc_le_total ord : Total (doc_le ord).
Proof.
  intros x y. unfold doc_le. destruct ord as [[f []]|]; apply (total key_le).
Qed.

#[global] Instance doc_le_trans ord : Transitive (doc_le ord).
Proof.
  intros x y z. unfold doc_le.
  destruct ord as [[f []]|]; intros H1 H2; by etrans.
Qed.

Lemma run_query_sorted q w : StronglySorted (doc_le (q_orderBy q)) (run_query q w).
Proof. unfold run_query. apply StronglySorted_merge_sort; apply _. Qed.

Lemma key_le_fs_le a b i j : key_le (fs_key a, i) (fs_key b, j) → fs_le a b.
Proof.
  unfold fs_le. destruct (fs_key a) as [[r1 a1] s1], (fs_key b) as [[r2 a2] s2].
  unfold key_le. intros [?|[-> [?|[-> [[? _]|[-> _]]]]]]; auto.
Qed.

Lemma number_unit_pos : 0 < number_unit.
Proof. by vm_compute. Qed.

Lemma fs_le_num a b : fs_le (VNum a) (VNum b) ↔ a ≤ b.
Proof.
  pose proof number_unit_pos. unfold fs_le. cbn [fs_key]. split.
  - intros [?|[_ [?|[? _]]]]; nia.
  - intros Hle. right. split; [done|].
    destruct (Z.eq_dec a b) as [->|]; [right; split; [done|reflexivity]|left; nia].
Qed.

Lemma fs_le_timestamp a b : fs_le (VTimestamp a) (VTimestamp b) ↔ a ≤ b.
Proof.
  unfold fs_le. simpl. split.
  - intros [?|[_ [?|[-> _]]]]; lia.
  - intros Hle. right. split; [done|].
    destruct (Z.eq_dec a b) as [->|]; [right; split; [done|reflexivity]|left; lia].
Qed.

Lemma StronglySorted_map {A B} (R : relation A) (R' : relation B) (f : A → B) l :
  (∀ x y, x ∈ l → y ∈ l → R x y → R' (f x) (f y)) →
  StronglySorted R l → StronglySorted R' (map f l).
Proof.
  intros Hmono Hsorted. induction Hsorted as [|x l Hl IH Hx]; simpl; constructor.
  - apply IH. intros y z Hy Hz. apply Hmono; by right.
  - apply Forall_forall. intros y' Hy'.
    apply list_elem_of_In, in_map_iff in Hy' as (y & <- & Hy%list_elem_of_In).
    apply Hmono; [left|by right|].
    by apply (proj1 (Forall_forall _ _) Hx).
Qed.

Lemma StronglySorted_weaken {A} (R R' : relation A) l :
  (∀ x y, R x y → R' x y) → StronglySorted R l → StronglySorted R' l.
Proof.
  intros Himpl Hsorted. induction Hsorted as [|x l Hl IH Hx]; constructor; [done|].
  eapply Forall_impl; [exact Hx|]. intros y. apply Himpl.
Qed.

(** ** JavaScript values and objects *)

Lemma js_or_null_truthy x : js_or x VNull ≠ VNull → truthy (js_or x VNull) = true.
Proof. unfold js_or. by destruct (truthy x) eqn:E. Qed.

Lemma js_or_null_falsy x : js_or x VNull = VNull → truthy x = false.
Proof. unfold js_or. destruct (truthy x) eqn:E; [|done]. by intros ->. Qed.

Lemma nullish_null_spec x :
  nullish x VNull ≠ VUndef ∧ (x = VUndef → nullish x VNull = VNull).
Proof. by destruct x. Qed.

(** *** Numbers and numerals *)

Lemma string_app_cons c (a b : string) : String c a +:+ b = String c (a +:+ b).
Proof. reflexivity. Qed.

Lemma string_app_nil_l (s : string) : "" +:+ s = s.
Proof. reflexivity. Qed.

Lemma string_app_nil_r (s : string) : s +:+ "" = s.
Proof. induction s as [|c s IH]; [done|]. rewrite string_app_cons. by f_equal. Qed.

Lemma digit_of_digit_char d : 0 ≤ d ≤ 9 → digit_of_char (digit_char d) = Some d.
Proof.
  intros Hd.
  assert (d = 0 ∨ d = 1 ∨ d = 2 ∨ d = 3 ∨ d = 4 ∨ d = 5 ∨ d = 6 ∨ d = 7 ∨ d = 8 ∨ d = 9)
    as Hcases by lia.
  repeat (destruct Hcases as [->|Hcases]; [reflexivity|]). by subst d.
Qed.

Lemma digit_not_point c d : digit_of_char c = Some d → Ascii.eqb c "." = false.
Proof.
  destruct (Ascii.eqb_spec c ".") as [->|]; [|done]. by vm_compute.
Qed.

Lemma digits_value_app a b acc :
  digits_value (a +:+ b) acc = digits_value a acc ≫= digits_value b.
Proof.
  revert acc. induction a as [|c a IH]; intros acc; [done|].
  rewrite string_app_cons. simpl. destruct (digit_of_char c); [apply IH|done].
Qed.

Lemma read_number_digits ds rest acc v :
  digits_value ds acc = Some v → read_number (ds +:+ rest) acc = read_number rest v.
Proof.
  revert acc. induction ds as [|c ds IH]; intros acc; rewrite ?string_app_cons, ?string_app_nil_l; simpl.
  - by intros [= ->].
  - destruct (digit_of_char c) as [d|] eqn:Hc; [|done].
    rewrite (digit_not_point c d Hc). apply IH.
Qed.

Lemma read_fraction_digits ds rest acc f v :
  digits_value ds acc = Some v →
  read_fraction (ds +:+ rest) acc f = read_fraction rest v (f + Z.of_nat (String.length ds)).
Proof.
  revert acc f. induction ds as [|c ds IH]; intros acc f; rewrite ?string_app_cons, ?string_app_nil_l; simpl.
  - intros [= ->]. by rewrite Z.add_0_r.
  - destruct (digit_of_char c) as [d|] eqn:Hc; [|done].
    intros Hv. rewrite (IH _ _ Hv). f_equal. lia.
Qed.

Lemma digits_value_zeros z acc : digits_value (zeros z) acc = Some (acc * 10 ^ Z.of_nat z).
Proof.
  revert acc. induction z as [|z IH]; intros acc.
  - simpl. f_equal. lia.
  - change (digits_value (zeros (S z)) acc) with (digits_value (zeros z) (10 * acc + 0)).
    rewrite IH. f_equal. rewrite Nat2Z.inj_succ, Z.pow_succ_r by lia. lia.
Qed.

Lemma length_zeros z : String.length (zeros z) = z.
Proof. induction z as [|z IH]; simpl; [done|]. by rewrite IH. Qed.

Lemma digits_value_print fuel n :
  0 ≤ n < 10 ^ Z.of_nat fuel → digits_value (print_digits fuel n) 0 = Some n.
Proof.
  revert n. induction fuel as [|fuel IH]; intros n Hn.
  - assert (n = 0) as Hz by (simpl in Hn; lia). rewrite Hz. reflexivity.
  - cbn [print_digits]. destruct (Z.ltb_spec n 10) as [Hlt|Hge].
    + cbn [digits_value]. rewrite digit_of_digit_char by lia. f_equal; lia.
    + rewrite digits_value_app, IH.
      * cbn [mbind option_bind digits_value].
        rewrite digit_of_digit_char by (pose proof (Z.mod_pos_bound n 10); lia).
        pose proof (Z.div_mod n 10). f_equal; lia.
      * rewrite Nat2Z.inj_succ, Z.pow_succ_r in Hn by lia.
        split; [apply Z.div_pos; lia|]. apply Z.div_lt_upper_bound; lia.
Qed.

Lemma digits_value_digits n : 0 < n → digits_value (digits n) 0 = Some n.
Proof.
  intros Hn. apply digits_value_print. split; [lia|].
  rewrite Nat2Z.inj_succ, Z2Nat.id by apply Z.log2_nonneg.
  pose proof (Z.log2_spec n Hn) as [_ Hlt].
  eapply Z.lt_le_trans; [exact Hlt|].
  apply Z.pow_le_mono_l. lia.
Qed.

Lemma string_take_drop n s : string_take n s +:+ string_drop n s = s.
Proof.
  revert s. induction n as [|n IH]; intros [|c s]; simpl; try done.
  rewrite string_app_cons. by rewrite IH.
Qed.

Lemma string_length_drop n s :
  (n ≤ String.length s)%nat → String.length (string_drop n s) = (String.length s - n)%nat.
Proof.
  revert s. induction n as [|n IH]; intros [|c s]; simpl; try done; try lia.
  intros Hn. apply IH. lia.
Qed.

(** The numeral in positional notation reads as the digits it was made of,
    with the point where the exponent puts it. *)
Lemma read_positional ds n s :
  digits_value ds 0 = Some s →
  let k := Z.of_nat (String.length ds) in
  read_number (positional ds n) 0
  = Some (if k <=? n then (s * 10 ^ (n - k), 0) else (s, k - n)).
Proof.
  intros Hds k. unfold positional. fold k.
  destruct (Z.leb_spec k n) as [Hkn|Hkn].
  - rewrite (read_number_digits _ _ _ _ Hds).
    rewrite <- (string_app_nil_r (zeros _)).
    rewrite (read_number_digits _ "" _ _ (digits_value_zeros _ _)).
    simpl. by rewrite Z2Nat.id by lia.
  - destruct (Z.ltb_spec 0 n) as [Hn|Hn].
    + pose proof (string_take_drop (Z.to_nat n) ds) as Hsplit.
      rewrite <- Hsplit, digits_value_app in Hds.
      destruct (digits_value (string_take (Z.to_nat n) ds) 0) as [v1|] eqn:Hv1; [|done].
      cbn [mbind option_bind] in Hds.
      rewrite (read_number_digits _ _ _ _ Hv1). rewrite string_app_cons, string_app_nil_l.
      cbn [read_number].
      change (Ascii.eqb "." ".") with true. cbn iota.
      rewrite <- (string_app_nil_r (string_drop _ _)).
      rewrite (read_fraction_digits _ "" _ _ _ Hds). cbn [read_fraction].
      rewrite string_length_drop by (unfold k in Hkn; lia).
      do 2 f_equal. unfold k. lia.
    + rewrite !string_app_cons, string_app_nil_l.
      cbn [read_number]. change (Ascii.eqb "0" ".") with false. cbn iota.
      change (digit_of_char "0") with (Some 0). cbn iota.
      cbn [read_number]. change (Ascii.eqb "." ".") with true. cbn iota.
      rewrite (read_fraction_digits _ _ _ _ _ (digits_value_zeros _ _)).
      rewrite Z.mul_0_l in *. change (10 * 0 + 0) with 0.
      rewrite <- (string_app_nil_r ds) at 1.
      rewrite (read_fraction_digits _ "" _ _ _ Hds). cbn [read_fraction].
      rewrite length_zeros. do 2 f_equal. unfold k. lia.
Qed.

Lemma dec_le_bin_shift s q a b : dec_le_bin (10 * s) q a b = dec_le_bin s (q + 1) a b.
Proof.
  unfold dec_le_bin.
  assert (0 < 2 ^ Z.max (- b) 0) as HP by (apply Z.pow_pos_nonneg; lia).
  assert (0 < 2 ^ Z.max b 0) as HQ by (apply Z.pow_pos_nonneg; lia).
  set (P := 2 ^ Z.max (- b) 0) in *. set (Q := 2 ^ Z.max b 0) in *.
  destruct (Z.lt_ge_cases q 0) as [Hneg|Hpos].
  - rewrite (Z.max_r q 0), (Z.max_r (q + 1) 0), (Z.max_l (- q) 0) by lia.
    rewrite (Z.max_l (- (q + 1)) 0) by lia.
    replace (- q) with (Z.succ (- (q + 1))) by lia.
    rewrite Z.pow_succ_r by lia.
    assert (0 < 10 ^ (- (q + 1))) as HT by (apply Z.pow_pos_nonneg; lia).
    set (T := 10 ^ (- (q + 1))) in *. rewrite !Z.pow_0_r, !Z.mul_1_r.
    apply eq_true_iff_eq. rewrite !Z.leb_le. nia.
  - rewrite (Z.max_l q 0), (Z.max_l (q + 1) 0), (Z.max_r (- q) 0) by lia.
    rewrite (Z.max_r (- (q + 1)) 0) by lia.
    replace (q + 1) with (Z.succ q) by lia. rewrite Z.pow_succ_r by lia.
    f_equal. ring.
Qed.

Lemma bin_le_dec_shift a b s q : bin_le_dec a b (10 * s) q = bin_le_dec a b s (q + 1).
Proof.
  unfold bin_le_dec.
  assert (0 < 2 ^ Z.max (- b) 0) as HP by (apply Z.pow_pos_nonneg; lia).
  assert (0 < 2 ^ Z.max b 0) as HQ by (apply Z.pow_pos_nonneg; lia).
  set (P := 2 ^ Z.max (- b) 0) in *. set (Q := 2 ^ Z.max b 0) in *.
  destruct (Z.lt_ge_cases q 0) as [Hneg|Hpos].
  - rewrite (Z.max_r q 0), (Z.max_r (q + 1) 0), (Z.max_l (- q) 0) by lia.
    rewrite (Z.max_l (- (q + 1)) 0) by lia.
    replace (- q) with (Z.succ (- (q + 1))) by lia.
    rewrite Z.pow_succ_r by lia.
    assert (0 < 10 ^ (- (q + 1))) as HT by (apply Z.pow_pos_nonneg; lia).
    set (T := 10 ^ (- (q + 1))) in *. rewrite !Z.pow_0_r, !Z.mul_1_r.
    apply eq_true_iff_eq. rewrite !Z.leb_le. nia.
  - rewrite (Z.max_l q 0), (Z.max_l (q + 1) 0), (Z.max_r (- q) 0) by lia.
    rewrite (Z.max_r (- (q + 1)) 0) by lia.
    replace (q + 1) with (Z.succ q) by lia. rewrite Z.pow_succ_r by lia.
    f_equal. ring.
Qed.

Lemma Number_is_shift s q m e : Number_is (10 * s) q m e = Number_is s (q + 1) m e.
Proof. unfold Number_is. by rewrite !dec_le_bin_shift, !bin_le_dec_shift. Qed.

Lemma Number_is_zeros s (z : nat) m e :
  Number_is (s * 10 ^ Z.of_nat z) 0 m e = Number_is s (Z.of_nat z) m e.
Proof.
  revert s. induction z as [|z IH]; intros s.
  - by rewrite Z.mul_1_r.
  - rewrite Nat2Z.inj_succ, Z.pow_succ_r by lia.
    replace (s * (10 * 10 ^ Z.of_nat z)) with ((10 * s) * 10 ^ Z.of_nat z) by ring.
    rewrite IH, Number_is_shift. f_equal; lia.
Qed.

Lemma strip_zeros_spec fuel s q m e :
  0 < s → Number_is s q m e = true →
  0 < (strip_zeros fuel s q).1 ∧
  Number_is (strip_zeros fuel s q).1 (strip_zeros fuel s q).2 m e = true.
Proof.
  revert s q. induction fuel as [|fuel IH]; intros s q Hs His; [done|].
  cbn [strip_zeros].
  destruct (Z.eqb_spec (s mod 10) 0) as [Hmod|]; [|done].
  destruct (Z.eqb_spec s 0); [lia|]. cbn [andb negb].
  pose proof (Z.div_mod s 10 ltac:(lia)) as Hdiv. rewrite Hmod, Z.add_0_r in Hdiv.
  apply IH; [lia|]. rewrite <- Number_is_shift. by rewrite <- Hdiv.
Qed.

Lemma exact_digits_spec m e :
  0 < (exact_digits m e).1 ∧
  Number_is (exact_digits m e).1 (exact_digits m e).2 m e = true.
Proof.
  unfold Number_is, rounding_interval.
  set (top := Z.log2 (Z.pos m) + e).
  set (E := Z.max (top - 52) (-1074)).
  set (U := Z.min (E - 2) e).
  cbn [closed low high unit_exponent].
  set (X := Z.pos m * 2 ^ (e - U)).
  assert (0 < 2 ^ (E - 1 - U)) as Hhalf by (apply Z.pow_pos_nonneg; lia).
  assert (0 < 2 ^ (E - 2 - U)) as Hquarter by (apply Z.pow_pos_nonneg; lia).
  assert (0 < 2 ^ (e - U)) as HX by (apply Z.pow_pos_nonneg; lia).
  set (lo := X - _). set (hi := X + _).
  assert (lo < X < hi) as Hin by (unfold lo, hi; destruct (_ && _); lia).
  clearbody lo hi.
  assert (∀ a, dec_le_bin (exact_digits m e).1 (exact_digits m e).2 a U = (X <=? a)) as Hle.
  { intros a. unfold dec_le_bin, exact_digits.
    apply eq_true_iff_eq. rewrite !Z.leb_le.
    destruct (Z.leb_spec 0 e) as [He|He]; cbn [fst snd].
    - change (Z.max 0 0) with 0. change (Z.max (- 0) 0) with 0.
      rewrite Z.pow_0_r, !Z.mul_1_r.
      destruct (Z.le_ge_cases 0 U) as [HU|HU].
      + rewrite (Z.max_r (- U)), (Z.max_l U), Z.pow_0_r, Z.mul_1_r by lia.
        replace (2 ^ e) with (2 ^ (e - U) * 2 ^ U)
          by (rewrite <- Z.pow_add_r by lia; f_equal; lia).
        assert (0 < 2 ^ U) by (apply Z.pow_pos_nonneg; lia).
        unfold X. nia.
      + rewrite (Z.max_l (- U)), (Z.max_r U), Z.pow_0_r, Z.mul_1_r by lia.
        rewrite <- Z.mul_assoc.
        replace (2 ^ e * 2 ^ (- U)) with (2 ^ (e - U)); [unfold X; lia|].
        rewrite <- Z.pow_add_r by lia. f_equal; lia.
    - assert (U ≤ e) by (unfold U; lia).
      rewrite (Z.max_r e), (Z.max_l (- U)), (Z.max_r U), (Z.max_l (- e)) by lia.
      rewrite !Z.pow_0_r, !Z.mul_1_r.
      replace (10 ^ (- e)) with (2 ^ (- e) * 5 ^ (- e))
        by (rewrite <- Z.pow_mul_l; reflexivity).
      replace (2 ^ (- U)) with (2 ^ (e - U) * 2 ^ (- e))
        by (rewrite <- Z.pow_add_r by lia; f_equal; lia).
      assert (0 < 2 ^ (- e)) by (apply Z.pow_pos_nonneg; lia).
      assert (0 < 5 ^ (- e)) by (apply Z.pow_pos_nonneg; lia).
      unfold X. nia. }
  assert (∀ a, bin_le_dec a U (exact_digits m e).1 (exact_digits m e).2 = (a <=? X)) as Hge.
  { intros a. unfold bin_le_dec, exact_digits.
    apply eq_true_iff_eq. rewrite !Z.leb_le.
    destruct (Z.leb_spec 0 e) as [He|He]; cbn [fst snd].
    - change (Z.max 0 0) with 0. change (Z.max (- 0) 0) with 0.
      rewrite Z.pow_0_r, !Z.mul_1_r.
      destruct (Z.le_ge_cases 0 U) as [HU|HU].
      + rewrite (Z.max_r (- U)), (Z.max_l U), Z.pow_0_r, Z.mul_1_r by lia.
        replace (2 ^ e) with (2 ^ (e - U) * 2 ^ U)
          by (rewrite <- Z.pow_add_r by lia; f_equal; lia).
        assert (0 < 2 ^ U) by (apply Z.pow_pos_nonneg; lia).
        unfold X. nia.
      + rewrite (Z.max_l (- U)), (Z.max_r U), Z.pow_0_r, Z.mul_1_r by lia.
        rewrite <- Z.mul_assoc.
        replace (2 ^ e * 2 ^ (- U)) with (2 ^ (e - U)); [unfold X; lia|].
        rewrite <- Z.pow_add_r by lia. f_equal; lia.
    - assert (U ≤ e) by (unfold U; lia).
      rewrite (Z.max_r e), (Z.max_l (- U)), (Z.max_r U), (Z.max_l (- e)) by lia.
      rewrite !Z.pow_0_r, !Z.mul_1_r.
      replace (10 ^ (- e)) with (2 ^ (- e) * 5 ^ (- e))
        by (rewrite <- Z.pow_mul_l; reflexivity).
      replace (2 ^ (- U)) with (2 ^ (e - U) * 2 ^ (- e))
        by (rewrite <- Z.pow_add_r by lia; f_equal; lia).
      assert (0 < 2 ^ (- e)) by (apply Z.pow_pos_nonneg; lia).
      assert (0 < 5 ^ (- e)) by (apply Z.pow_pos_nonneg; lia).
      unfold X. nia. }
  split.
  - unfold exact_digits. destruct (Z.leb_spec 0 e); cbn [fst].
    + assert (0 < 2 ^ e) by (apply Z.pow_pos_nonneg; lia). nia.
    + assert (0 < 5 ^ (- e)) by (apply Z.pow_pos_nonneg; lia). nia.
  - rewrite !Hle, !Hge. destruct (Z.even _); cbn [negb andb].
    + apply andb_true_iff. rewrite !Z.leb_le. lia.
    + apply andb_true_iff. rewrite !negb_true_iff, !Z.leb_gt. lia.
Qed.

Lemma shortest_digits_spec m e :
  0 < (shortest_digits m e).1 ∧
  Number_is (shortest_digits m e).1 (shortest_digits m e).2 m e = true.
Proof.
  unfold shortest_digits. destruct (shortest_from _ _ _ _) as [s q].
  destruct ((0 <? s) && Number_is s q m e) eqn:Hok.
  - apply andb_true_iff in Hok as [Hs%Z.ltb_lt His]. by apply strip_zeros_spec.
  - pose proof (exact_digits_spec m e) as [Hs His].
    destruct (exact_digits m e) as [s' q']. by apply strip_zeros_spec.
Qed.

(** A number is the number nearest to itself. *)
Lemma Number_is_self m : Number_is (Z.pos m) 0 m 0 = true.
Proof.
  pose proof (exact_digits_spec m 0) as [_ His].
  unfold exact_digits in His. cbn [Z.leb Z.compare fst snd] in His.
  by rewrite Z.pow_0_r, Z.mul_1_r in His.
Qed.

Lemma print_digits_cons fuel n :
  0 ≤ n → ∃ c rest d, print_digits (S fuel) n = String c rest ∧ digit_of_char c = Some d.
Proof.
  revert n. induction fuel as [|fuel IH]; intros n Hn; cbn [print_digits].
  - destruct (Z.ltb_spec n 10).
    + eexists _, _, _. split; [done|]. apply digit_of_digit_char. lia.
    + rewrite string_app_nil_l. eexists _, _, _. split; [done|].
      apply digit_of_digit_char. pose proof (Z.mod_pos_bound n 10). lia.
  - destruct (Z.ltb_spec n 10).
    + eexists _, _, _. split; [done|]. apply digit_of_digit_char. lia.
    + destruct (IH (n / 10)) as (c & rest & d & Hprint & Hc); [apply Z.div_pos; lia|].
      cbn [print_digits] in Hprint. rewrite Hprint, string_app_cons. by eexists _, _, _.
Qed.

Lemma digits_value_digits_0 n : 0 ≤ n → digits_value (digits n) 0 = Some n.
Proof.
  intros Hn. destruct (Z.eq_dec n 0) as [->|]; [done|]. apply digits_value_digits. lia.
Qed.

Lemma read_unsigned_digits n : 0 ≤ n → read_unsigned (digits n) = Some (n, 0).
Proof.
  intros Hn. destruct (print_digits_cons (Z.to_nat (Z.log2 n)) n Hn) as (c & rest & d & Hds & Hc).
  fold (digits n) in Hds. unfold read_unsigned. rewrite Hds, Hc, <- Hds.
  rewrite <- (string_app_nil_r (digits n)).
  by rewrite (read_number_digits _ _ _ _ (digits_value_digits_0 n Hn)).
Qed.

Lemma read_unsigned_positional ds n s c rest d :
  ds = String c rest → digit_of_char c = Some d →
  digits_value ds 0 = Some s →
  let k := Z.of_nat (String.length ds) in
  read_unsigned (positional ds n)
  = Some (if k <=? n then (s * 10 ^ (n - k), 0) else (s, k - n)).
Proof.
  intros Hds Hc Hs. pose proof (read_positional ds n s Hs) as Hread.
  cbv zeta in *. rewrite <- Hread. clear Hread.
  unfold read_unsigned, positional. set (k := Z.of_nat (String.length ds)).
  destruct (k <=? n).
  - rewrite Hds at 1. rewrite string_app_cons. by rewrite Hc.
  - destruct (Z.ltb_spec 0 n) as [Hn|Hn].
    + destruct (Z.to_nat n) as [|n'] eqn:Hnat; [lia|].
      rewrite Hds at 1. cbn [string_take]. rewrite string_app_cons. by rewrite Hc.
    + by rewrite string_app_cons.
Qed.

Lemma Finite_toString_reads m e :
  is_positional (Finite_exponent m e) = true →
  ∃ N f, read_unsigned (Finite_toString m e) = Some (N, f) ∧
         Number_is N (- f) m e = true.
Proof.
  unfold Finite_exponent, Finite_toString.
  pose proof (shortest_digits_spec m e) as [Hs His].
  destruct (shortest_digits m e) as [s q]. cbn [fst snd] in Hs, His.
  intros ->.
  destruct (print_digits_cons (Z.to_nat (Z.log2 s)) s ltac:(lia)) as (c & rest & d & Hds & Hc).
  fold (digits s) in Hds.
  rewrite (read_unsigned_positional (digits s) _ s c rest d Hds Hc
             (digits_value_digits s Hs)).
  set (k := Z.of_nat (String.length (digits s))).
  destruct (Z.leb_spec k (q + k)) as [Hq|Hq].
  - eexists _, _. split; [reflexivity|]. change (- 0) with 0.
    replace (q + k - k) with (Z.of_nat (Z.to_nat q)) by lia.
    rewrite Number_is_zeros. by rewrite Z2Nat.id by lia.
  - eexists _, _. split; [reflexivity|]. by replace (- (k - (q + k))) with q by lia.
Qed.

Lemma read_decimal_signed (negative : bool) (X : string) r :
  read_unsigned X = Some r →
  read_decimal ((if negative then "-" else "") +:+ X) = Some (negative, r.1, r.2).
Proof.
  intros HX. destruct negative.
  - rewrite string_app_cons, string_app_nil_l. cbn [read_decimal].
    change (Ascii.eqb "-" "-") with true. cbn iota. by rewrite HX.
  - rewrite string_app_nil_l. destruct X as [|c rest]; [done|]. cbn [read_decimal].
    destruct (Ascii.eqb_spec c "-") as [->|_]; [done|]. by rewrite HX.
Qed.

(** [n.toString()] for a safe integer is the numeral of [n]. *)
Lemma Number_toString_safe n :
  safe_integer n → read_decimal (Number_toString n) = Some (n <? 0, Z.abs n, 0).
Proof.
  unfold safe_integer, Number_toString. intros Hsafe.
  change (2 ^ 53) with 9007199254740992 in Hsafe.
  rewrite (proj2 (Z.ltb_lt _ _) Hsafe).
  apply (read_decimal_signed _ _ (Z.abs n, 0)), read_unsigned_digits. lia.
Qed.

(** A number that is printed without an exponent is printed as a decimal
    numeral, and the number nearest to what the numeral denotes is the
    number itself. *)
Lemma number_to_string_reads v :
  prints_positionally v → ∃ s, number_to_string v = VStr s ∧ reads_as s v.
Proof.
  destruct v as [| | |n|negative m p| | | | | | |]; try done; cbn [prints_positionally].
  - intros Hpos. eexists. split; [reflexivity|].
    destruct (Z.lt_ge_cases (Z.abs n) 9007199254740992) as [Hsafe|Hlarge].
    + exists (n <? 0), (Z.abs n), 0. split; [by apply Number_toString_safe|].
      destruct n as [|n|n]; [done| |]; (split; [done|]); apply Number_is_self.
    + destruct Hpos as [Hsafe|Hpos]; [unfold safe_integer in Hsafe; lia|].
      destruct (Finite_toString_reads _ _ Hpos) as (N & f & Hread & His).
      exists (n <? 0), N, f. split.
      * unfold Number_toString. rewrite (proj2 (Z.ltb_ge _ _) Hlarge).
        apply (read_decimal_signed _ _ (N, f) Hread).
      * destruct n as [|n|n]; [done|done|done].
  - intros Hpos. eexists. split; [reflexivity|].
    destruct (Finite_toString_reads _ _ Hpos) as (N & f & Hread & His).
    exists negative, N, f. split; [|done].
    apply (read_decimal_signed _ _ (N, f) Hread).
Qed.

Lemma refused_data_spec (o : obj) :
  refused_data o = false ↔
  ∀ k v, o !! k = Some v → refused_name k = false ∧ refused_value false v = false.
Proof.
  unfold refused_data. split.
  - intros Hno k v Hk. apply orb_false_iff.
    destruct (refused_name k || refused_value false v) eqn:Hkv; [|done].
    rewrite <- Hno. symmetry. apply existsb_exists. exists (k, v).
    split; [|done]. by apply list_elem_of_In, elem_of_map_to_list.
  - intros Hdef. destruct (existsb _ _) eqn:E; [|done].
    apply existsb_exists in E as ([k v] & Hin & Hu).
    apply list_elem_of_In, elem_of_map_to_list in Hin.
    apply Hdef in Hin as [Hname Hvalue]. cbn [fst snd] in Hu.
    by rewrite Hname, Hvalue in Hu.
Qed.

Lemma refused_data_empty : refused_data ∅ = false.
Proof. apply refused_data_spec. by intros k v; rewrite lookup_empty. Qed.

Lemma refused_data_insert (o : obj) k v :
  refused_name k = false → refused_value false v = false → refused_data o = false →
  refused_data (<[k := v]> o) = false.
Proof.
  intros Hk Hv Ho. apply refused_data_spec. intros k' v'.
  rewrite lookup_insert. case_decide; [by intros [= <-]; subst k'|].
  by apply refused_data_spec.
Qed.

Lemma lookup_remove_undefined (o : obj) k v :
  remove_undefined o !! k = Some v ↔ o !! k = Some v ∧ is_undefined v = false.
Proof. unfold remove_undefined. by rewrite map_lookup_filter_Some. Qed.

Lemma lookup_remove_undefined_None (o : obj) k :
  get o k = VUndef → remove_undefined o !! k = None.
Proof.
  intros Hget. destruct (remove_undefined o !! k) as [v|] eqn:E; [|done].
  apply lookup_remove_undefined in E as [Hk Hv].
  unfold get in Hget. rewrite Hk in Hget. simpl in Hget. by subst v.
Qed.

(** The document [updateOrder] leaves behind keeps every field that its
    payload does not carry. *)
Lemma written_field_kept (payload old : obj) k :
  payload !! k = None → ((stored <$> payload) ∪ old) !! k = old !! k.
Proof. intros Hk. apply lookup_union_r. by rewrite lookup_fmap, Hk. Qed.

Lemma written_field_set (payload old : obj) k v :
  payload !! k = Some v → ((stored <$> payload) ∪ old) !! k = Some (stored v).
Proof. intros Hk. apply lookup_union_Some_l. by rewrite lookup_fmap, Hk. Qed.

(** *** Updates *)

Lemma refused_update_spec (data : obj) :
  refused_update data = false ↔
  ∀ k v, data !! k = Some v → is_Some (field_path k) ∧ refused_value false v = false.
Proof.
  unfold refused_update. split.
  - intros Hno k v Hk.
    destruct (field_path k) as [path|] eqn:Hpath.
    + split; [done|]. destruct (refused_value false v) eqn:Hv; [|done].
      rewrite <- Hno. symmetry. apply existsb_exists. exists (k, v).
      split; [by apply list_elem_of_In, elem_of_map_to_list|].
      cbn [fst snd]. by rewrite Hpath.
    + exfalso. apply diff_false_true. rewrite <- Hno. apply existsb_exists. exists (k, v).
      split; [by apply list_elem_of_In, elem_of_map_to_list|].
      cbn [fst snd]. by rewrite Hpath.
  - intros Hdef. destruct (existsb _ _) eqn:E; [|done].
    apply existsb_exists in E as ([k v] & Hin & Hu).
    apply list_elem_of_In, elem_of_map_to_list in Hin.
    apply Hdef in Hin as [[path Hpath] Hvalue]. cbn [fst snd] in Hu.
    by rewrite Hpath, Hvalue in Hu.
Qed.

Lemma conflicting_spec (data : obj) :
  conflicting data = true ↔
  ∃ k1 v1 k2 v2, data !! k1 = Some v1 ∧ data !! k2 = Some v2 ∧ k1 ≠ k2 ∧
    is_prefix (default [] (field_path k1)) (default [] (field_path k2)) = true.
Proof.
  unfold conflicting. rewrite existsb_exists. split.
  - intros ([k1 v1] & Hin1%list_elem_of_In%elem_of_map_to_list & Hex).
    apply existsb_exists in Hex as ([k2 v2] & Hin2%list_elem_of_In%elem_of_map_to_list & H).
    cbn [fst snd] in H. apply andb_true_iff in H as [Hne Hpre].
    exists k1, v1, k2, v2. split_and!; [done|done| |done].
    intros ->. by rewrite String.eqb_refl in Hne.
  - intros (k1 & v1 & k2 & v2 & H1 & H2 & Hne & Hpre).
    exists (k1, v1). split; [by apply list_elem_of_In, elem_of_map_to_list|].
    apply existsb_exists. exists (k2, v2).
    split; [by apply list_elem_of_In, elem_of_map_to_list|].
    cbn [fst snd]. rewrite Hpre, andb_true_r.
    by destruct (String.eqb_spec k1 k2).
Qed.

Lemma lookup_set_field path v (d : obj) k :
  set_field path v d !! k =
    match path with
    | k' :: rest => if decide (k' = k) then Some (set_in rest v (get d k')) else d !! k
    | [] => d !! k
    end.
Proof.
  destruct path as [|k' rest]; [done|]. cbn [set_field].
  by rewrite lookup_insert.
Qed.

(** An update leaves alone the fields that none of its keys addresses. *)
Lemma apply_update_frame (data old : obj) k :
  (∀ key v rest, data !! key = Some v → field_path key ≠ Some (k :: rest)) →
  apply_update data old !! k = old !! k.
Proof.
  unfold apply_update.
  apply (map_fold_weak_ind
    (λ r (m : obj),
       (∀ key v rest, m !! key = Some v → field_path key ≠ Some (k :: rest)) →
       r !! k = old !! k)); [done|].
  intros key v m r Hfresh IH Hno.
  rewrite lookup_set_field.
  destruct (field_path key) as [[|k' rest]|] eqn:Hpath; cbn [from_option id].
  - apply IH. intros key' v' rest' Hkey'. apply (Hno key' v').
    rewrite lookup_insert_ne; [done|]. intros ->. by rewrite Hfresh in Hkey'.
  - case_decide as Hk.
    + subst k'. destruct (Hno key v rest); [apply lookup_insert_eq|done].
    + apply IH. intros key' v' rest' Hkey'. apply (Hno key' v').
      rewrite lookup_insert_ne; [done|]. intros ->. by rewrite Hfresh in Hkey'.
  - apply IH. intros key' v' rest' Hkey'. apply (Hno key' v').
    rewrite lookup_insert_ne; [done|]. intros ->. by rewrite Hfresh in Hkey'.
Qed.

(** An update sets the field that a key names when no other key addresses
    a field inside it. *)
Lemma apply_update_set (data old : obj) k v :
  data !! k = Some v → field_path k = Some [k] →
  (∀ key v' rest, data !! key = Some v' → key ≠ k → field_path key ≠ Some (k :: rest)) →
  apply_update data old !! k = Some (stored v).
Proof.
  intros Hk Hplain. revert Hk. unfold apply_update.
  apply (map_fold_weak_ind
    (λ r (m : obj),
       m !! k = Some v →
       (∀ key v' rest, m !! key = Some v' → key ≠ k → field_path key ≠ Some (k :: rest)) →
       r !! k = Some (stored v))); [done|].
  intros key x m r Hfresh IH Hk Hno.
  rewrite lookup_set_field.
  destruct (decide (key = k)) as [->|Hne].
  - rewrite lookup_insert_eq in Hk. injection Hk as ->.
    rewrite Hplain. cbn [from_option id]. by rewrite decide_True.
  - rewrite lookup_insert_ne in Hk by done.
    assert (r !! k = Some (stored v)) as Hr.
    { apply IH; [done|]. intros key' v' rest' Hkey' Hne'. apply (Hno key' v'); [|done].
      rewrite lookup_insert_ne; [done|]. intros ->. by rewrite Hfresh in Hkey'. }
    destruct (field_path key) as [[|k' rest]|] eqn:Hpath; cbn [from_option id]; [done| |done].
    case_decide as Hk'; [|done]. subst k'.
    destruct (Hno key x rest); [apply lookup_insert_eq|done|done].
Qed.

(** An update whose keys are names of fields overwrites the old document
    with what the store keeps of its values. *)
Lemma apply_update_plain (data old : obj) :
  (∀ k v, data !! k = Some v → field_path k = Some [k]) →
  apply_update data old = (stored <$> data) ∪ old.
Proof.
  unfold apply_update.
  apply (map_fold_weak_ind
    (λ r (m : obj),
       (∀ k v, m !! k = Some v → field_path k = Some [k]) →
       r = (stored <$> m) ∪ old)).
  - intros _. by rewrite fmap_empty, (left_id_L ∅ (∪)).
  - intros key v m r Hfresh IH Hplain.
    rewrite (Hplain key v) by apply lookup_insert_eq. cbn [from_option id set_field set_in].
    rewrite IH.
    + by rewrite fmap_insert, insert_union_l.
    + intros k' v' Hk'. apply (Hplain k' v').
      rewrite lookup_insert_ne; [done|]. intros ->. by rewrite Hfresh in Hk'.
Qed.

Lemma conflicting_plain (data : obj) :
  (∀ k v, data !! k = Some v → field_path k = Some [k]) → conflicting data = false.
Proof.
  intros Hplain. destruct (conflicting data) eqn:Hc; [|done].
  apply conflicting_spec in Hc as (k1 & v1 & k2 & v2 & H1 & H2 & Hne & Hpre).
  rewrite (Hplain _ _ H1), (Hplain _ _ H2) in Hpre. cbn in Hpre.
  apply andb_true_iff in Hpre as [Heq%String.eqb_eq _]. done.
Qed.

Lemma plain_update_accepted (data : obj) :
  plain_update data →
  refused_update data = false ∧ conflicting data = false ∧
  ∀ old, apply_update data old = (stored <$> data) ∪ old.
Proof.
  intros Hplain.
  assert (∀ k v, data !! k = Some v → field_path k = Some [k]) as Hnames
    by (intros k v Hk; by destruct (Hplain k v Hk)).
  split_and!.
  - apply refused_update_spec. intros k v Hk. destruct (Hplain k v Hk) as [Hname Hv].
    split; [|exact Hv]. rewrite Hname. by eexists.
  - by apply conflicting_plain.
  - intros old. by apply apply_update_plain.
Qed.

(** In an update that the backend accepts, no other key addresses the
    field that a key names. *)
Lemma unconflicting_name (data : obj) k v key v' :
  conflicting data = false → data !! k = Some v → plain_name k →
  data !! key = Some v' → key ≠ k → ¬ addresses key k.
Proof.
  intros Hno Hk Hplain Hkey Hne [rest Hpath].
  apply diff_false_true. rewrite <- Hno. apply conflicting_spec.
  exists k, v, key, v'. split_and!; [done|done|done|].
  rewrite Hplain, Hpath. cbn. by rewrite String.eqb_refl.
Qed.

Section JsMap.
Context {V : Type}.
Implicit Types (m : list (string * V)) (k : string) (v : V).

Lemma Map_get_set_eq k v m : Map_get k (Map_set k v m) = Some v.
Proof.
  induction m as [|[k0 v0] m IH]; cbn [Map_set Map_get fst snd].
  - by rewrite String.eqb_refl.
  - destruct (String.eqb_spec k0 k) as [->|Hne]; cbn [Map_get fst snd].
    + by rewrite String.eqb_refl.
    + by destruct (String.eqb_spec k0 k).
Qed.

Lemma Map_get_set_ne k k' v m : k ≠ k' → Map_get k' (Map_set k v m) = Map_get k' m.
Proof.
  intros Hne. induction m as [|[k0 v0] m IH]; cbn [Map_set Map_get fst snd].
  - by destruct (String.eqb_spec k k').
  - destruct (String.eqb_spec k0 k) as [->|Hek]; cbn [Map_get fst snd].
    + by destruct (String.eqb_spec k k').
    + by rewrite IH.
Qed.

Lemma Map_get_None k m : Map_get k m = None ↔ k ∉ m.*1.
Proof.
  induction m as [|[k0 v0] m IH]; cbn [Map_get fmap list_fmap fst snd].
  - split; [intros _; apply not_elem_of_nil|done].
  - rewrite not_elem_of_cons. destruct (String.eqb_spec k0 k) as [->|Hne].
    + split; [done|]. by intros [? _].
    + rewrite IH. split; [by intros ?; split|by intros [_ ?]].
Qed.

Lemma Map_get_Some k v m : NoDup m.*1 → Map_get k m = Some v ↔ (k, v) ∈ m.
Proof.
  induction m as [|[k0 v0] m IH]; simpl; intros Hnd.
  - split; [done|]. by intros ?%elem_of_nil.
  - apply NoDup_cons in Hnd as [Hk0 Hnd]. rewrite elem_of_cons.
    destruct (String.eqb_spec k0 k) as [->|Hne].
    + split; [by intros [= ->]; left|].
      intros [[= ->]|Hin]; [done|].
      destruct Hk0. apply list_elem_of_fmap. by exists (k, v).
    + rewrite IH by done. split; [by right|]. intros [[= -> ->]|?]; done.
Qed.

Lemma Map_set_keys k v m :
  (Map_set k v m).*1 = if decide (k ∈ m.*1) then m.*1 else m.*1 ++ [k].
Proof.
  induction m as [|[k0 v0] m IH]; cbn [Map_set fmap list_fmap fst snd].
  - rewrite decide_False; [done|apply not_elem_of_nil].
  - destruct (String.eqb_spec k0 k) as [->|Hne]; cbn [fmap list_fmap fst snd].
    + rewrite decide_True; [done|left].
    + fold (fmap (M := list) (@fst string V)). rewrite IH.
      destruct (decide (k ∈ m.*1)) as [Hin|Hnin].
      * rewrite decide_True; [done|by right].
      * rewrite decide_False; [done|]. rewrite not_elem_of_cons. by split.
Qed.

Lemma Map_set_NoDup k v m : NoDup m.*1 → NoDup (Map_set k v m).*1.
Proof.
  intros Hnd. rewrite Map_set_keys. case_decide; [done|].
  apply NoDup_app. split_and!; [done| |apply NoDup_singleton].
  intros x Hx ->%list_elem_of_singleton. done.
Qed.

End JsMap.

(** ** The backend and the store calls *)

Lemma backend_eq c w :
  backend c w = (if next_fault w then Throw BackendFailure else Ok tt, served c w).
Proof.
  unfold served, backend, next_fault. simpl. by destruct (faults w) as [|[] fs].
Qed.

Lemma db_served c w : db (served c w) = db w.
Proof. unfold served, backend. simpl. by destruct (faults w) as [|[] fs]. Qed.

Lemma users_served c w : users (served c w) = users w.
Proof. unfold served, backend. simpl. by destruct (faults w) as [|[] fs]. Qed.

Lemma calls_served c w : calls (served c w) = calls w ++ [c].
Proof. unfold served, backend. simpl. by destruct (faults w) as [|[] fs]. Qed.

Lemma faults_served c w : faults (served c w) = tail (faults w).
Proof. unfold served, backend. simpl. by destruct (faults w) as [|[] fs] eqn:E. Qed.

Lemma clock_served c w : clock (served c w) = clock w ∧ ticks (served c w) = ticks w.
Proof. unfold served, backend. simpl. by destruct (faults w) as [|[] fs]. Qed.

Lemma calm_next_fault w : calm w → next_fault w = false.
Proof.
  unfold calm, next_fault. destruct (faults w) as [|[] fs]; [done| |done].
  intros H. by apply Forall_cons in H as [? _].
Qed.

Lemma calm_served c w : calm w → calm (served c w).
Proof.
  unfold calm. rewrite faults_served. destruct (faults w); [done|].
  intros H. by apply Forall_cons in H as [_ ?].
Qed.

Lemma calm_write_doc col id d w : calm w → calm (write_doc col id d w).
Proof. done. Qed.

Lemma calm_tick w : calm w → calm (tick w).
Proof. done. Qed.

Lemma calm_draw w : calm w → calm (draw w).
Proof. done. Qed.

Create HintDb calm.
#[global] Hint Resolve calm_served calm_write_doc calm_tick calm_draw : calm.

(** Projects the resulting world and moves the store calls inwards. *)
Ltac world_simpl := cbn [fst snd]; autorewrite with world.

(** Rewrites the pending failure of a calm world to [false]. *)
Ltac calm_rw :=
  repeat match goal with
  | |- context [next_fault ?w] => rewrite (calm_next_fault w) by auto 20 with calm
  end.

Lemma document_served c w col id : document (served c w) col id = document w col id.
Proof. unfold document. by rewrite db_served. Qed.

Lemma document_tick w col id : document (tick w) col id = document w col id.
Proof. done. Qed.

Lemma document_draw w col id : document (draw w) col id = document w col id.
Proof. done. Qed.

Lemma next_fault_tick w : next_fault (tick w) = next_fault w.
Proof. done. Qed.

Lemma next_fault_draw w : next_fault (draw w) = next_fault w.
Proof. done. Qed.

Lemma next_fault_write_doc col id d w : next_fault (write_doc col id d w) = next_fault w.
Proof. done. Qed.

Lemma served_tick c w : served c (tick w) = tick (served c w).
Proof. unfold served, backend. simpl. by destruct (faults w) as [|[] fs]. Qed.

Lemma served_draw c w : served c (draw w) = draw (served c w).
Proof. unfold served, backend. simpl. by destruct (faults w) as [|[] fs]. Qed.

Lemma served_write_doc c col id d w :
  served c (write_doc col id d w) = write_doc col id d (served c w).
Proof.
  unfold served, backend, write_doc, set_db. simpl.
  destruct (faults w) as [|[] fs] eqn:E; simpl; rewrite ?E; by destruct d.
Qed.

Lemma db_tick w : db (tick w) = db w.
Proof. done. Qed.

Lemma db_draw w : db (draw w) = db w.
Proof. done. Qed.

Create Rewrite HintDb world.
#[global] Hint Rewrite served_tick served_draw served_write_doc
  document_served document_tick document_draw db_served db_tick db_draw
  next_fault_tick next_fault_draw next_fault_write_doc : world.

Lemma collection_served c w col : collection (served c w) col = collection w col.
Proof. unfold collection. by rewrite db_served. Qed.

Lemma run_query_served c q w : run_query q (served c w) = run_query q w.
Proof. unfold run_query. by rewrite collection_served. Qed.

Lemma document_write_doc col id d w col' id' :
  document (write_doc col id d w) col' id' =
    if decide ((col, id) = (col', id')) then d else document w col' id'.
Proof.
  unfold document, write_doc. simpl. destruct d.
  - by rewrite lookup_insert.
  - by rewrite lookup_delete.
Qed.

Lemma document_fields_of w col id :
  is_Some (document w col id) → document w col id = Some (fields_of w col id).
Proof. unfold fields_of. by intros [d ->]. Qed.

Lemma run_pair {A} (m : M A) (w : World) (r : A) :
  (m w).1 = Ok r → m w = (Ok r, (m w).2).
Proof. destruct (m w) as [o w']. cbn [fst snd]. by intros ->. Qed.

Lemma getDocs_eq q w :
  getDocs q w = (if next_fault w then Throw BackendFailure else Ok (run_query q w),
                 served (CGetDocs (q_col q)) w).
Proof.
  unfold getDocs, bind. rewrite backend_eq.
  destruct (next_fault w); [done|]. by rewrite run_query_served.
Qed.

Lemma getDoc_eq col id w :
  getDoc col id w = (if next_fault w then Throw BackendFailure else Ok (document w col id),
                     served (CGetDoc col id) w).
Proof.
  unfold getDoc, bind. rewrite backend_eq.
  destruct (next_fault w); [done|]. by rewrite document_served.
Qed.

Lemma setDoc_eq col id data w :
  setDoc col id data w =
    if refused_data data then (Throw InvalidData, w)
    else if next_fault w then (Throw BackendFailure, served (CSetDoc col id) w)
    else (Ok tt, write_doc col id (Some (stored <$> data)) (served (CSetDoc col id) w)).
Proof.
  unfold setDoc. destruct (refused_data data); [done|].
  unfold bind. rewrite backend_eq. by destruct (next_fault w).
Qed.

Lemma updateDoc_eq col id data w :
  updateDoc col id data w =
    if refused_update data then (Throw InvalidData, w)
    else if next_fault w then (Throw BackendFailure, served (CUpdateDoc col id) w)
    else if conflicting data then (Throw BackendFailure, served (CUpdateDoc col id) w)
    else match document w col id with
         | None => (Throw NotFoundError, served (CUpdateDoc col id) w)
         | Some old => (Ok tt, write_doc col id (Some (apply_update data old))
                                         (served (CUpdateDoc col id) w))
         end.
Proof.
  unfold updateDoc. destruct (refused_update data); [done|].
  unfold bind. rewrite backend_eq. destruct (next_fault w); [done|].
  destruct (conflicting data); [done|].
  by rewrite document_served.
Qed.

Lemma deleteDoc_eq col id w :
  deleteDoc col id w =
    if next_fault w then (Throw BackendFailure, served (CDeleteDoc col id) w)
    else (Ok tt, write_doc col id None (served (CDeleteDoc col id) w)).
Proof. unfold deleteDoc, bind. rewrite backend_eq. by destruct (next_fault w). Qed.

(** ** Collections and queries *)

Lemma elem_of_collection w col id d :
  (id, d) ∈ collection w col ↔ document w col id = Some d.
Proof.
  unfold collection, document. rewrite list_elem_of_omap. split.
  - intros ([[c i] d'] & Hin & Hsome). simpl in Hsome.
    destruct (String.eqb_spec c col) as [->|]; [|done].
    injection Hsome as -> ->. by apply elem_of_map_to_list in Hin.
  - intros Hdoc. exists ((col, id), d). split; [by apply elem_of_map_to_list|].
    simpl. by rewrite String.eqb_refl.
Qed.

Lemma collection_nil w col :
  collection w col = [] ↔ ∀ id, document w col id = None.
Proof.
  split.
  - intros Hnil id. destruct (document w col id) as [d|] eqn:Hdoc; [|done].
    apply elem_of_collection in Hdoc. rewrite Hnil in Hdoc. by apply elem_of_nil in Hdoc.
  - intros Hnone. destruct (collection w col) as [|[id d] l] eqn:Hcol; [done|].
    assert ((id, d) ∈ collection w col) as Hin by (rewrite Hcol; left).
    apply elem_of_collection in Hin. by rewrite Hnone in Hin.
Qed.

(** Documents of a collection have distinct identifiers, and so have the
    documents of a query. *)
Lemma collection_NoDup w col : NoDup (collection w col).*1.
Proof.
  unfold collection.
  pose proof (NoDup_fst_map_to_list (db w)) as Hnd.
  induction (map_to_list (db w)) as [|[[c i] d] l IH]; [constructor|].
  cbn [fmap list_fmap fst] in Hnd. apply NoDup_cons in Hnd as [Hhd Hnd].
  cbn [omap list_omap fst snd].
  destruct (String.eqb_spec c col) as [->|Hne]; [|by apply IH].
  cbn [fmap list_fmap fst]. apply NoDup_cons. split; [|by apply IH].
  intros Hin. apply Hhd.
  apply list_elem_of_fmap in Hin as ([i' d'] & Hi & Hin). cbn in Hi. subst i'.
  apply list_elem_of_omap in Hin as ([[c' i'] d''] & Hin & Hsome). cbn in Hsome.
  destruct (String.eqb_spec c' col) as [->|]; [|done]. injection Hsome as -> ->.
  apply list_elem_of_fmap. by exists ((col, i), d').
Qed.

Lemma filter_true {A} (f : A → bool) (l : list A) :
  (∀ x, f x = true) → List.filter f l = l.
Proof. intros Hf. induction l as [|x l IH]; simpl; [done|]. by rewrite Hf, IH. Qed.

Lemma filter_sublist {A} (f : A → bool) (l : list A) : List.filter f l `sublist_of` l.
Proof.
  induction l as [|x l IH]; simpl; [done|].
  destruct (f x); [by apply sublist_skip|by apply sublist_cons].
Qed.

Lemma run_query_plain w col : run_query (plain col) w ≡ₚ collection w col.
Proof.
  unfold run_query. rewrite merge_sort_Permutation.
  by rewrite filter_true.
Qed.

Lemma run_query_plain_nil w col :
  run_query (plain col) w = [] ↔ collection w col = [].
Proof.
  split; intros Hnil.
  - apply Permutation_nil_r. by rewrite <- Hnil, run_query_plain.
  - apply Permutation_nil_r. by rewrite run_query_plain, Hnil.
Qed.

Lemma elem_of_run_query q w x :
  x ∈ run_query q w ↔
  x ∈ collection w (q_col q) ∧ matches_where (q_where q) x = true ∧
  has_order_field (q_orderBy q) x = true.
Proof.
  unfold run_query. rewrite merge_sort_Permutation.
  rewrite !list_elem_of_In, filter_In, andb_true_iff. tauto.
Qed.

Lemma run_query_NoDup q w : NoDup (run_query q w).*1.
Proof.
  unfold run_query. rewrite merge_sort_Permutation.
  eapply sublist_NoDup; [apply (collection_NoDup w (q_col q))|].
  apply fmap_sublist, filter_sublist.
Qed.

(** The documents of an ordered query come in the store's order of the
    field. *)
Lemma run_query_asc col cond f w :
  StronglySorted (λ x y, fs_le (get x.2 f) (get y.2 f))
                 (run_query (mkQuery col cond (Some (f, Asc))) w).
Proof.
  eapply StronglySorted_weaken; [|apply run_query_sorted].
  intros x y. cbn. apply key_le_fs_le.
Qed.

Lemma run_query_desc col cond f w :
  StronglySorted (λ x y, fs_le (get y.2 f) (get x.2 f))
                 (run_query (mkQuery col cond (Some (f, Desc))) w).
Proof.
  eapply StronglySorted_weaken; [|apply run_query_sorted].
  intros x y. cbn. apply key_le_fs_le.
Qed.

Lemma timestamped_check_sound w col :
  timestamped_check w col = true → timestamped w col.
Proof.
  unfold timestamped_check. rewrite forallb_forall.
  intros Hall id d v Hdoc Hv.
  apply elem_of_collection, list_elem_of_In, Hall in Hdoc. cbn in Hdoc.
  rewrite Hv in Hdoc. destruct v; try done. by eexists.
Qed.

Lemma ordered_doc_timestamped w col cond x :
  timestamped w col →
  x ∈ run_query (mkQuery col cond (Some ("createdAt", Desc))) w →
  ∃ ns, get x.2 "createdAt" = VTimestamp ns.
Proof.
  intros Hts (Hcol & _ & Hfield)%elem_of_run_query. destruct x as [id d].
  apply elem_of_collection in Hcol. cbn in Hfield.
  apply bool_decide_eq_true in Hfield as [v Hv].
  destruct (Hts id d v Hcol Hv) as [ns ->]. exists ns. unfold get. cbn. by rewrite Hv.
Qed.

(** Two documents with timestamps, in the store's descending order, map to
    instants in descending order. *)
Lemma to_date_desc (a b : value) :
  (∃ ns, a = VTimestamp ns) → (∃ ns, b = VTimestamp ns) →
  fs_le b a → not_before (to_date a) (to_date b).
Proof.
  intros [x ->] [y ->] Hle%fs_le_timestamp. simpl. unfold Timestamp_toDate.
  by apply Z.div_le_mono.
Qed.

(** ** The read operations of the gateway *)

Ltac run_read :=
  unfold try_catch, bind, ret; simpl;
  rewrite ?getDocs_eq, ?getDoc_eq; simpl;
  destruct (next_fault _); simpl; try done.

Lemma getCategories_eq w :
  getCategories w =
    (Ok (if next_fault w then []
         else map (λ d, d.2 ∪ {["id" := VStr d.1]})
                  (run_query (mkQuery "categories" None (Some ("order", Asc))) w)),
     served (CGetDocs "categories") w).
Proof. unfold getCategories. by run_read. Qed.

Lemma getMenuItems_eq w :
  getMenuItems w =
    (Ok (if next_fault w then []
         else map menuItem_of_doc (run_query (plain "menuItems") w)),
     served (CGetDocs "menuItems") w).
Proof. unfold getMenuItems. by run_read. Qed.

Lemma getMenuItem_eq id w :
  getMenuItem id w =
    (Ok (if next_fault w then None
         else (λ data, menuItem_of_doc (id, data)) <$> document w "menuItems" id),
     served (CGetDoc "menuItems" id) w).
Proof. unfold getMenuItem. run_read. by destruct (document w "menuItems" id). Qed.

Lemma getReservations_eq w :
  getReservations w =
    (Ok (if next_fault w then []
         else map reservation_of_doc
                  (run_query (mkQuery "reservations" None (Some ("createdAt", Desc))) w)),
     served (CGetDocs "reservations") w).
Proof. unfold getReservations. by run_read. Qed.

Lemma getOrders_eq w :
  getOrders w =
    (Ok (if next_fault w then []
         else map order_of_doc
                  (run_query (mkQuery "orders" None (Some ("createdAt", Desc))) w)),
     served (CGetDocs "orders") w).
Proof. unfold getOrders. by run_read. Qed.

Lemma getOrder_eq id w :
  getOrder id w =
    (Ok (if next_fault w then None
         else (λ data, order_of_doc (id, data)) <$> document w "orders" id),
     served (CGetDoc "orders" id) w).
Proof. unfold getOrder. run_read. by destruct (document w "orders" id). Qed.

Lemma getOrdersByUser_eq userId w :
  getOrdersByUser userId w =
    (Ok (if next_fault w then []
         else map order_of_user_doc
                  (run_query (mkQuery "orders" (Some ("userId", VNum userId))
                                      (Some ("createdAt", Desc))) w)),
     served (CGetDocs "orders") w).
Proof. unfold getOrdersByUser. by run_read. Qed.

Lemma getOrdersByLivreur_eq livreurId w :
  getOrdersByLivreur livreurId w =
    (Ok (if next_fault w then []
         else map order_of_livreur_doc
                  (run_query (mkQuery "orders" (Some ("livreurId", VNum livreurId))
                                      (Some ("createdAt", Desc))) w)),
     served (CGetDocs "orders") w).
Proof. unfold getOrdersByLivreur. by run_read. Qed.

Lemma getPendingOrders_eq w :
  getPendingOrders w =
    (Ok (if next_fault w then []
         else map order_of_pending_doc
                  (run_query (mkQuery "orders" (Some ("status", VStr "pending"))
                                      (Some ("createdAt", Desc))) w)),
     served (CGetDocs "orders") w).
Proof. unfold getPendingOrders. by run_read. Qed.

(** C7. Every read operation of the gateway returns normally in every world:
    when the backend fails the call, the failure is caught inside the
    operation and the result is the empty list, or the not-found value of a
    point lookup.  No read operation throws. *)
Theorem read_failures_degrade_to_empty (w : World) (id : string) (uid : Z) :
  degrades_to getCategories [] w ∧
  degrades_to getMenuItems [] w ∧
  degrades_to (getMenuItem id) None w ∧
  degrades_to getReservations [] w ∧
  degrades_to getOrders [] w ∧
  degrades_to (getOrder id) None w ∧
  degrades_to (getOrdersByUser uid) [] w ∧
  degrades_to (getOrdersByLivreur uid) [] w ∧
  degrades_to getPendingOrders [] w.
Proof.
  unfold degrades_to.
  rewrite getCategories_eq, getMenuItems_eq, getMenuItem_eq, getReservations_eq,
    getOrders_eq, getOrder_eq, getOrdersByUser_eq, getOrdersByLivreur_eq,
    getPendingOrders_eq.
  simpl. destruct (next_fault w); repeat split; first [by left | right; eauto].
Qed.

(** ** Menu items: creation *)

Lemma createMenuItem_eq insertItem w :
  let id := uuids w (drawn w) in
  let item := new_menuItem id insertItem in
  let w1 := served (CSetDoc "menuItems" id) (draw w) in
  createMenuItem insertItem w =
    if refused_data (MenuItem.to_obj item) then (Throw InvalidData, draw w)
    else if next_fault w then (Throw BackendFailure, w1)
    else (Ok item, write_doc "menuItems" id (Some (stored <$> MenuItem.to_obj item)) w1).
Proof.
  simpl. unfold createMenuItem, bind, ret, randomUUID. rewrite setDoc_eq.
  destruct (refused_data _); [done|].
  autorewrite with world. by destruct (next_fault w).
Qed.

(** An input given field by field carries what its fields are. *)
Ltac carries_sample :=
  let k := fresh "k" in
  intros k; unfold get, sample_menuItem, sample_order, sample_reservation;
  repeat (rewrite lookup_insert; case_decide; [by right|]);
  rewrite ?lookup_empty; by left.

Lemma carries_required (o : obj) k : carries_storable o → defined o k → storable (get o k).
Proof. intros Hc Hk. destruct (Hc k) as [Hu|?]; [|done]. unfold defined in Hk. by rewrite Hu in Hk. Qed.

Lemma nullish_storable x y : x = VUndef ∨ storable x → storable y → storable (nullish x y).
Proof. intros [->|Hx] Hy; [done|]. by destruct x. Qed.

Lemma price_storable p :
  storable p → storable (if is_number p then number_to_string p else p).
Proof. by destruct p. Qed.

Lemma deliveryFee_storable f :
  f = VUndef ∨ storable f →
  storable (if is_number f then number_to_string f else nullish f (VStr "0")).
Proof. intros [->|Hf]; [done|]. by destruct f. Qed.

(** The client library accepts the object of a new menu item when the input
    has the required fields and carries nothing the library refuses. *)
Lemma menuItem_obj_accepted id insertItem :
  defined insertItem "name" → defined insertItem "description" →
  defined insertItem "price" → defined insertItem "categoryId" →
  carries_storable insertItem →
  refused_data (MenuItem.to_obj (new_menuItem id insertItem)) = false.
Proof.
  intros ? ? ? ? Hc. unfold MenuItem.to_obj.
  cbn [new_menuItem MenuItem.id MenuItem.name MenuItem.description MenuItem.price
       MenuItem.deliveryFee MenuItem.categoryId MenuItem.imageUrl MenuItem.available
       MenuItem.popular].
  repeat (apply refused_data_insert;
          [reflexivity
          |first [ reflexivity
                 | by apply carries_required
                 | by apply price_storable, carries_required
                 | apply deliveryFee_storable, Hc
                 | apply nullish_storable; [apply Hc|reflexivity] ]|]).
  apply refused_data_empty.
Qed.

(** C5. In the record [createMenuItem] returns, [price] and [deliveryFee] are
    strings whether the input gave a number or a string: a string is kept as
    it is, and a number becomes what [toString] gives for it.  For a number
    that is printed without an exponent this is a decimal numeral, and the
    number nearest to what the numeral denotes is the number itself; for a
    safe integer it is the numeral of the integer.  A price of 12 and a price
    of "12" both give "12", and an absent [deliveryFee] gives "0".  With a
    working backend and an input that has the required fields and carries
    nothing the client library refuses, [createMenuItem] does return, and
    the stored document has the same two fields. *)
Theorem createMenuItem_monetary (insertItem : obj) (w : World) :
  let r := createMenuItem insertItem w in
  let monetary (field : MenuItem.t → value) (input : value) (item : MenuItem.t) :=
    (∀ s, input = VStr s → field item = VStr s) ∧
    (is_number input = true → field item = number_to_string input) ∧
    (prints_positionally input → ∃ s, field item = VStr s ∧ reads_as s input) ∧
    (∀ n, safe_integer n → input = VNum n →
          ∃ s, field item = VStr s ∧ read_decimal s = Some (n <? 0, Z.abs n, 0)) in
  (∀ item, r.1 = Ok item →
     monetary MenuItem.price (get insertItem "price") item ∧
     monetary MenuItem.deliveryFee (get insertItem "deliveryFee") item ∧
     (get insertItem "price" = VNum 12 ∨ get insertItem "price" = VStr "12" →
      MenuItem.price item = VStr "12") ∧
     (get insertItem "deliveryFee" = VUndef → MenuItem.deliveryFee item = VStr "0")) ∧
  (calm w →
   defined insertItem "name" → defined insertItem "description" →
   defined insertItem "price" → defined insertItem "categoryId" →
   carries_storable insertItem →
   ∃ item d, r.1 = Ok item ∧
             document r.2 "menuItems" (MenuItem.id item) = Some d ∧
             get d "price" = stored (MenuItem.price item) ∧
             get d "deliveryFee" = stored (MenuItem.deliveryFee item)).
Proof.
  cbv zeta. rewrite createMenuItem_eq. split.
  - intros item Hitem.
    assert (item = new_menuItem (uuids w (drawn w)) insertItem) as ->.
    { destruct (refused_data _); [done|]. destruct (next_fault w); [done|].
      by injection Hitem. }
    cbn [new_menuItem MenuItem.price MenuItem.deliveryFee].
    generalize (get insertItem "price") (get insertItem "deliveryFee").
    intros p f. split_and!.
    + by intros s ->.
    + by intros ->.
    + intros Hpos. destruct (number_to_string_reads p Hpos) as (s & Hs & Hreads).
      exists s. split; [|done]. by destruct p.
    + intros n Hsafe ->. eexists. split; [reflexivity|]. by apply Number_toString_safe.
    + by intros s ->.
    + by intros ->.
    + intros Hpos. destruct (number_to_string_reads f Hpos) as (s & Hs & Hreads).
      exists s. split; [|done]. by destruct f.
    + intros n Hsafe ->. eexists. split; [reflexivity|]. by apply Number_toString_safe.
    + by intros [-> | ->].
    + by intros ->.
  - intros Hcalm ? ? ? ? Hcarries.
    rewrite menuItem_obj_accepted by done. calm_rw.
    eexists _, _. split; [reflexivity|]. cbn [fst snd new_menuItem MenuItem.id].
    rewrite document_write_doc, decide_True by done.
    split; [reflexivity|]. unfold get. rewrite !lookup_fmap.
    split; reflexivity.
Qed.

Lemma createMenuItem_monetary_witness :
  let half_price := <["price" := VFrac false 25 1]> sample_menuItem in
  (∃ item, (createMenuItem sample_menuItem empty_world).1 = Ok item ∧
           MenuItem.price item = VStr "12" ∧ MenuItem.deliveryFee item = VStr "0" ∧
           ∃ s, MenuItem.price item = VStr s ∧ read_decimal s = Some (false, 12, 0)) ∧
  (∃ item, (createMenuItem half_price empty_world).1 = Ok item ∧
           MenuItem.price item = VStr "12.5" ∧
           ∃ s, MenuItem.price item = VStr s ∧ reads_as s (VFrac false 25 1)).
Proof.
  cbv zeta. split.
  - destruct (createMenuItem_monetary sample_menuItem empty_world) as [Hret Hlive].
    destruct Hlive as (item & d & Hitem & _);
      [by (vm_compute; constructor) | by vm_compute..|by carries_sample|].
    destruct (Hret item Hitem) as ((_ & _ & _ & Hnum) & _ & H12 & Hfee).
    exists item. split; [exact Hitem|].
    split; [apply H12; left; by vm_compute|].
    split; [apply Hfee; by vm_compute|].
    apply (Hnum 12); [by vm_compute | by vm_compute].
  - destruct (createMenuItem_monetary (<["price" := VFrac false 25 1]> sample_menuItem)
                empty_world) as [Hret Hlive].
    destruct Hlive as (item & d & Hitem & _);
      [by (vm_compute; constructor) | by vm_compute..|by carries_sample|].
    destruct (Hret item Hitem) as ((_ & Hstring & Hreads & _) & _).
    exists item. split; [exact Hitem|]. split.
    + rewrite Hstring by (by vm_compute).
      apply (f_equal VStr). by vm_compute.
    + apply Hreads. by vm_compute.
Defined.

(** A price of [10^21] is stored with an exponent, as "1e+21", which is no
    decimal numeral. *)
Lemma createMenuItem_exponent_notation :
  let input := <["price" := VNum (10 ^ 21)]> sample_menuItem in
  ∃ item, (createMenuItem input empty_world).1 = Ok item ∧
          MenuItem.price item = VStr "1e+21" ∧
          read_decimal "1e+21" = None ∧
          ¬ ∃ s, MenuItem.price item = VStr s ∧ is_Some (read_decimal s).
Proof.
  cbv zeta. eexists. split; [vm_compute; reflexivity|].
  cbn [MenuItem.price]. split; [reflexivity|]. split; [reflexivity|].
  intros (s & [= <-] & [r Hr]). discriminate Hr.
Qed.

(** ** Menu items: partial update *)

Lemma updateMenuItem_eq id updates w :
  let w1 := served (CGetDoc "menuItems" id) w in
  let w2 := served (CUpdateDoc "menuItems" id) w1 in
  let payload := remove_undefined (normalizedUpdates updates) in
  updateMenuItem id updates w =
    if next_fault w then (Ok None, w1)
    else match document w "menuItems" id with
         | None => (Ok None, w1)
         | Some old =>
             if refused_update payload then (Ok None, w1)
             else if next_fault w1 || conflicting payload then (Ok None, w2)
             else getMenuItem id
                    (write_doc "menuItems" id (Some (apply_update payload old)) w2)
         end.
Proof.
  simpl. unfold updateMenuItem, try_catch, bind, ret.
  rewrite getDoc_eq. destruct (next_fault w) eqn:Hf; [done|].
  destruct (document w "menuItems" id) as [old|] eqn:Hdoc; [|done].
  rewrite updateDoc_eq. destruct (refused_update _); [done|].
  destruct (next_fault (served _ w)); [done|]. cbn [orb].
  destruct (conflicting _); [done|].
  rewrite document_served, Hdoc. by rewrite getMenuItem_eq.
Qed.

(** The document that [updateMenuItem] leaves under the identifier: the
    old one, or the old one with the fields of the payload set. *)
Lemma updateMenuItem_document id updates w old :
  document w "menuItems" id = Some old →
  let payload := remove_undefined (normalizedUpdates updates) in
  let d := document (updateMenuItem id updates w).2 "menuItems" id in
  d = Some old ∨ d = Some (apply_update payload old).
Proof.
  intros Hdoc. cbv zeta. rewrite updateMenuItem_eq. cbv zeta.
  destruct (next_fault w); [left; by world_simpl|]. rewrite Hdoc.
  destruct (refused_update _); [left; by world_simpl|].
  destruct (next_fault (served _ w) || conflicting _); [left; by world_simpl|].
  right. rewrite getMenuItem_eq. cbn [fst snd].
  by rewrite document_served, document_write_doc, decide_True.
Qed.

Lemma get_normalizedUpdates updates k :
  get updates k = VUndef → get (normalizedUpdates updates) k = VUndef.
Proof.
  intros Hk. unfold normalizedUpdates, get at 1.
  rewrite lookup_insert. case_decide as Hfee.
  { subst k. by rewrite Hk. }
  rewrite lookup_insert. case_decide as Hprice.
  { subst k. by rewrite Hk. }
  exact Hk.
Qed.

(** A field of the normalized update that is not [undefined] is the supplied
    value, turned into a string when it is a numeric [price] or
    [deliveryFee]. *)
Lemma lookup_normalizedUpdates updates k v :
  normalizedUpdates updates !! k = Some v → is_undefined v = false →
  v = if decide (k = "price" ∨ k = "deliveryFee")
      then number_to_string (get updates k) else get updates k.
Proof.
  unfold normalizedUpdates. rewrite lookup_insert. case_decide as Hfee.
  { subst k. rewrite decide_True by by right. intros [= <-].
    by destruct (is_undefined (get updates "deliveryFee")). }
  rewrite lookup_insert. case_decide as Hprice.
  { subst k. rewrite decide_True by by left. intros [= <-].
    by destruct (is_undefined (get updates "price")). }
  rewrite decide_False by (intros [?|?]; congruence).
  intros Hk _. unfold get. by rewrite Hk.
Qed.

(** C4. [updateMenuItem] writes the supplied fields and nothing else: a field
    that is [undefined] in the update, absent or explicitly so, is not in the
    payload handed to the store; a field of the payload is never [undefined]
    and is the supplied value, as a string when [price] or [deliveryFee] was
    a number.  A key of the payload is the name of a field, or a path into
    one: after the call a field that no key of the payload addresses is in
    the stored document what it was, and so is, when the keys are names of
    fields, every field that was not supplied; every other document of the
    store is untouched.  With a working backend and a payload of names and
    of values that the client library accepts, the stored document becomes
    the old one overwritten by the payload; with any payload that the
    library and the backend accept, the old one with the fields set that
    the keys address, a field that a key names being the value of the key. *)
Theorem updateMenuItem_writes_supplied_fields (id : string) (updates : obj) (w : World) :
  let r := updateMenuItem id updates w in
  let payload := remove_undefined (normalizedUpdates updates) in
  let field k w := document w "menuItems" id ≫= (.!! k) in
  (∀ k, get updates k = VUndef → payload !! k = None) ∧
  (∀ k v, payload !! k = Some v →
          v ≠ VUndef ∧
          v = if decide (k = "price" ∨ k = "deliveryFee")
              then number_to_string (get updates k) else get updates k) ∧
  (∀ k, (∀ key v, payload !! key = Some v → ¬ addresses key k) →
        field k r.2 = field k w) ∧
  ((∀ key v, payload !! key = Some v → plain_name key) →
   ∀ k, get updates k = VUndef → field k r.2 = field k w) ∧
  (∀ col id', (col, id') ≠ ("menuItems", id) →
              document r.2 col id' = document w col id') ∧
  (calm w → ∀ old, document w "menuItems" id = Some old →
     plain_update payload →
     document r.2 "menuItems" id = Some ((stored <$> payload) ∪ old) ∧
     r.1 = Ok (Some (menuItem_of_doc (id, (stored <$> payload) ∪ old)))) ∧
  (calm w → ∀ old, document w "menuItems" id = Some old →
     refused_update payload = false → conflicting payload = false →
     document r.2 "menuItems" id = Some (apply_update payload old) ∧
     r.1 = Ok (Some (menuItem_of_doc (id, apply_update payload old))) ∧
     ∀ k v, payload !! k = Some v → plain_name k →
            apply_update payload old !! k = Some (stored v)).
Proof.
  cbv zeta.
  assert (∀ k, get updates k = VUndef →
               remove_undefined (normalizedUpdates updates) !! k = None) as Hstrip.
  { intros k Hk. by apply lookup_remove_undefined_None, get_normalizedUpdates. }
  assert (∀ k, (∀ key v, remove_undefined (normalizedUpdates updates) !! key = Some v →
                         ¬ addresses key k) →
               document (updateMenuItem id updates w).2 "menuItems" id ≫= (.!! k)
               = document w "menuItems" id ≫= (.!! k)) as Hframe.
  { intros k Hk. destruct (document w "menuItems" id) as [old|] eqn:Hdoc.
    - destruct (updateMenuItem_document id updates w old Hdoc) as [-> | ->]; [done|].
      cbn [mbind option_bind]. apply apply_update_frame.
      intros key v rest Hkey Hpath. apply (Hk key v Hkey). by exists rest.
    - rewrite updateMenuItem_eq. cbv zeta. rewrite Hdoc.
      destruct (next_fault w); world_simpl; by rewrite Hdoc. }
  split_and!.
  - exact Hstrip.
  - intros k v [Hk Hv]%lookup_remove_undefined. split; [by intros ->|].
    by apply lookup_normalizedUpdates.
  - exact Hframe.
  - intros Hplain k Hk. apply Hframe. intros key v Hkey [rest Hpath].
    rewrite (Hplain key v Hkey) in Hpath. injection Hpath as <- _.
    by rewrite (Hstrip key Hk) in Hkey.
  - intros col id' Hne. rewrite updateMenuItem_eq. cbv zeta.
    destruct (next_fault w); [by world_simpl|].
    destruct (document w "menuItems" id) as [old|] eqn:Hdoc;
      [|by world_simpl].
    destruct (refused_update _); [by world_simpl|].
    destruct (next_fault (served _ w) || conflicting _); [by world_simpl|].
    rewrite getMenuItem_eq. cbn [fst snd].
    rewrite document_served, document_write_doc, decide_False by congruence.
    by world_simpl.
  - intros Hcalm old Hdoc Hplain.
    destruct (plain_update_accepted _ Hplain) as (Hok & Hfree & Happly).
    rewrite updateMenuItem_eq. cbv zeta. calm_rw. rewrite Hdoc, Hok, Hfree. calm_rw.
    cbn [orb]. rewrite getMenuItem_eq. calm_rw. cbn [fst snd].
    rewrite document_served, !document_write_doc, !decide_True by done.
    rewrite Happly. done.
  - intros Hcalm old Hdoc Hok Hfree.
    rewrite updateMenuItem_eq. cbv zeta. calm_rw. rewrite Hdoc, Hok, Hfree. calm_rw.
    cbn [orb]. rewrite getMenuItem_eq. calm_rw. cbn [fst snd].
    rewrite document_served, !document_write_doc, !decide_True by done.
    split_and!; [done|done|].
    intros k v Hk Hname. apply apply_update_set; [done|done|].
    intros key v' rest Hkey Hne Hpath.
    apply (unconflicting_name _ k v key v' Hfree Hk Hname Hkey Hne). by exists rest.
Qed.

Lemma updateMenuItem_writes_supplied_fields_witness :
  let r := updateMenuItem "id-0" {["available" := VBool false]} stocked_world in
  let field k w := document w "menuItems" "id-0" ≫= (.!! k) in
  field "name" r.2 = field "name" stocked_world ∧
  field "price" r.2 = field "price" stocked_world ∧
  field "imageUrl" r.2 = field "imageUrl" stocked_world ∧
  ∃ d, document r.2 "menuItems" "id-0" = Some d ∧ d !! "available" = Some (VBool false).
Proof.
  cbv zeta.
  destruct (updateMenuItem_writes_supplied_fields "id-0" {["available" := VBool false]}
              stocked_world) as (_ & _ & _ & Hframe & _ & Hlive & _).
  assert (∀ key v, remove_undefined (normalizedUpdates {["available" := VBool false]}) !! key
                   = Some v → key = "available" ∧ v = VBool false) as Hkeys.
  { intros key v [Hkey Hv]%lookup_remove_undefined. unfold normalizedUpdates in Hkey.
    rewrite lookup_insert in Hkey. case_decide; [by simplify_eq|].
    rewrite lookup_insert in Hkey. case_decide; [by simplify_eq|].
    by apply lookup_singleton_Some in Hkey as [<- <-]. }
  assert (∀ key v, remove_undefined (normalizedUpdates {["available" := VBool false]}) !! key
                   = Some v → plain_name key) as Hnames.
  { intros key v [-> _]%Hkeys. reflexivity. }
  split; [apply (Hframe Hnames); by vm_compute|].
  split; [apply (Hframe Hnames); by vm_compute|].
  split; [apply (Hframe Hnames); by vm_compute|].
  destruct (Hlive ltac:(vm_compute; constructor)
                  (fields_of stocked_world "menuItems" "id-0")) as [Hdoc _].
  { apply document_fields_of, (bool_decide_unpack _). by vm_compute. }
  { intros key v Hkey. destruct (Hkeys key v Hkey) as [-> ->]. by split. }
  eexists. split; [exact Hdoc|].
  apply lookup_union_Some_l. rewrite lookup_fmap. by vm_compute.
Defined.

(** A key that is a path into [name] replaces the name of the item, though
    the update supplies no field [name]. *)
Lemma updateMenuItem_path_changes_unsupplied_field :
  let updates : obj := {["name.first" := VStr "x"]} in
  let r := updateMenuItem "id-0" updates stocked_world in
  let field k w := document w "menuItems" "id-0" ≫= (.!! k) in
  get updates "name" = VUndef ∧
  field "name" stocked_world = Some (VStr "Crêpe sucre") ∧
  field "name" r.2 = Some (VObj [("first", VStr "x")]) ∧
  field "name" r.2 ≠ field "name" stocked_world.
Proof.
  cbv zeta. split; [reflexivity|].
  assert (document stocked_world "menuItems" "id-0" ≫= (.!! "name")
          = Some (VStr "Crêpe sucre")) as Hold by (vm_compute; reflexivity).
  assert (document (updateMenuItem "id-0" {["name.first" := VStr "x"]} stocked_world).2
                   "menuItems" "id-0" ≫= (.!! "name")
          = Some (VObj [("first", VStr "x")])) as Hnew by (vm_compute; reflexivity).
  rewrite Hold, Hnew. split_and!; [reflexivity|reflexivity|discriminate].
Qed.

(** ** Menu items: deletion *)

Lemma deleteMenuItem_eq id w :
  deleteMenuItem id w =
    (Ok (negb (next_fault w)),
     if next_fault w then served (CDeleteDoc "menuItems" id) w
     else write_doc "menuItems" id None (served (CDeleteDoc "menuItems" id) w)).
Proof.
  unfold deleteMenuItem, try_catch, bind, ret. rewrite deleteDoc_eq.
  by destruct (next_fault w).
Qed.

(** C6. [deleteMenuItem] never throws, and its result is decided by the
    backend alone: it is [true] unless the store call fails, whether or not
    the document exists, so two calls under the same pending failures give
    the same outcome, whatever the stores and the identifiers.  With a
    working backend a second call on the same identifier returns [true] as
    the first did and leaves the store as it was.  The route on top of it
    answers 404 for an identifier that does not exist, the second time as
    the first. *)
Theorem deleteMenuItem_idempotent (id id' : string) (w w' : World) :
  (deleteMenuItem id w).1 = Ok (negb (next_fault w)) ∧
  (faults w = faults w' → (deleteMenuItem id w).1 = (deleteMenuItem id' w').1) ∧
  (calm w →
     let w1 := (deleteMenuItem id w).2 in
     let w2 := (deleteMenuItem id w1).2 in
     (deleteMenuItem id w).1 = Ok true ∧ (deleteMenuItem id w1).1 = Ok true ∧
     document w1 "menuItems" id = None ∧ db w2 = db w1) ∧
  (calm w → document w "menuItems" id = None →
     let not_found := Ok (error 404 "Menu item not found") in
     (delete_menu_item id w).1 = not_found ∧
     (delete_menu_item id (delete_menu_item id w).2).1 = not_found).
Proof.
  split_and!.
  - by rewrite deleteMenuItem_eq.
  - intros Hf. rewrite !deleteMenuItem_eq. unfold next_fault. by rewrite Hf.
  - intros Hcalm. simpl. rewrite deleteMenuItem_eq, (calm_next_fault w Hcalm). simpl.
    set (w1 := write_doc _ _ _ _).
    assert (calm w1) as Hcalm1 by by apply calm_write_doc, calm_served.
    rewrite deleteMenuItem_eq, (calm_next_fault w1 Hcalm1). simpl.
    assert (document w1 "menuItems" id = None) as Hgone.
    { unfold w1. rewrite document_write_doc. by rewrite decide_True. }
    split_and!; [done..|].
    rewrite db_served. by apply delete_id.
  - intros Hcalm Hnone. simpl.
    unfold delete_menu_item, try_catch, bind, ret.
    rewrite getMenuItem_eq, (calm_next_fault w Hcalm), Hnone. simpl.
    split; [done|].
    set (w1 := served _ w).
    assert (calm w1) as Hcalm1 by by apply calm_served.
    rewrite getMenuItem_eq, (calm_next_fault w1 Hcalm1).
    unfold w1. by rewrite document_served, Hnone.
Qed.

Lemma deleteMenuItem_idempotent_witness :
  is_Some (document stocked_world "menuItems" "id-0") ∧
  document stocked_world "menuItems" "id-9" = None ∧
  (deleteMenuItem "id-0" stocked_world).1 = (deleteMenuItem "id-9" stocked_world).1 ∧
  (deleteMenuItem "id-0" stocked_world).1 = Ok true ∧
  (deleteMenuItem "id-0" (deleteMenuItem "id-0" stocked_world).2).1 = Ok true ∧
  (delete_menu_item "id-9" stocked_world).1 = Ok (error 404 "Menu item not found").
Proof.
  assert (calm stocked_world) as Hcalm by (vm_compute; constructor).
  assert (document stocked_world "menuItems" "id-9" = None) as Hnone
    by (vm_compute; reflexivity).
  destruct (deleteMenuItem_idempotent "id-0" "id-9" stocked_world stocked_world)
    as (_ & Hsame & Htwice & _).
  destruct (deleteMenuItem_idempotent "id-9" "id-9" stocked_world stocked_world)
    as (_ & _ & _ & Hroute).
  destruct (Htwice Hcalm) as (H1 & H2 & _).
  destruct (Hroute Hcalm Hnone) as [H404 _].
  split; [apply (bool_decide_unpack _); by vm_compute|].
  exact (conj Hnone (conj (Hsame eq_refl) (conj H1 (conj H2 H404)))).
Defined.

(** ** Seeding the categories *)

(** A loop of [setDoc] calls against a working backend writes every
    document of the list. *)
Lemma forEach_setDoc_calm (col : string) (l : list (string * obj)) w :
  calm w → Forall (λ c, refused_data c.2 = false) l →
  ∃ w', forEach l (λ c, setDoc col c.1 c.2) w = (Ok tt, w') ∧
        calm w' ∧
        db w' = foldl (λ s c, <[(col, c.1) := stored <$> c.2]> s) (db w) l ∧
        calls w' = calls w ++ map (λ c, CSetDoc col c.1) l.
Proof.
  revert w. induction l as [|c l IH]; intros w Hcalm Hdef.
  - exists w. simpl. by rewrite app_nil_r.
  - apply Forall_cons in Hdef as [Hc Hl].
    cbn [forEach]. unfold bind at 1. rewrite setDoc_eq, Hc. calm_rw.
    destruct (IH (write_doc col c.1 (Some (stored <$> c.2)) (served (CSetDoc col c.1) w)))
      as (w' & Hrun & Hcalm' & Hdb & Hcalls); [auto with calm|done|].
    exists w'. split_and!; [done|done| |].
    + rewrite Hdb. cbn [foldl]. unfold write_doc. simpl. by rewrite db_served.
    + rewrite Hcalls. unfold write_doc. simpl. rewrite calls_served.
      by rewrite <- app_assoc.
Qed.

Lemma foldl_setDoc_lookup (col : string) (l : list (string * obj))
    (m : gmap (string * string) obj) (id : string) :
  NoDup l.*1 →
  foldl (λ s c, <[(col, c.1) := stored <$> c.2]> s) m l !! (col, id) =
    match (list_to_map l : gmap string obj) !! id with
    | Some d => Some (stored <$> d)
    | None => m !! (col, id)
    end.
Proof.
  revert m. induction l as [|[i d] l IH]; intros m Hnd; [done|].
  apply NoDup_cons in Hnd as [Hi Hnd]. cbn [foldl]. rewrite IH by done.
  cbn [list_to_map foldr fst snd]. rewrite (lookup_insert (list_to_map l)).
  case_decide as Heq.
  - subst id. rewrite (not_elem_of_list_to_map_1 l i) by done.
    by rewrite lookup_insert_eq.
  - destruct (list_to_map l !! id); [done|].
    rewrite lookup_insert_ne; [done|congruence].
Qed.

Lemma foldl_setDoc_lookup_other (col : string) (l : list (string * obj))
    (m : gmap (string * string) obj) (col' id : string) :
  col' ≠ col →
  foldl (λ s c, <[(col, c.1) := stored <$> c.2]> s) m l !! (col', id) = m !! (col', id).
Proof.
  intros Hne. revert m. induction l as [|c l IH]; intros m; [done|].
  cbn [foldl]. rewrite IH. rewrite lookup_insert_ne; [done|congruence].
Qed.

Lemma categoriesData_NoDup : NoDup categoriesData.*1.
Proof. apply (bool_decide_unpack _). by vm_compute. Qed.

Lemma categoriesData_defined : Forall (λ c, refused_data c.2 = false) categoriesData.
Proof. unfold categoriesData. repeat (constructor; [by vm_compute|]). constructor. Qed.

Lemma category_obj_stored id name description order :
  stored <$> category_obj id name description order
  = category_obj id name description order.
Proof. unfold category_obj. by rewrite !fmap_insert, fmap_empty. Qed.

Lemma categoriesData_stored : Forall (λ c, stored <$> c.2 = c.2) categoriesData.
Proof.
  unfold categoriesData. repeat (constructor; [apply category_obj_stored|]). constructor.
Qed.

Lemma initializeCategories_eq w :
  let w1 := served (CGetDocs "categories") w in
  initializeCategories w =
    if next_fault w then (Ok tt, w1)
    else match collection w "categories" with
         | [] => try_catch (forEach categoriesData
                              (λ category, setDoc "categories" category.1 category.2))
                           (λ _, ret tt) w1
         | _ :: _ => (Ok tt, w1)
         end.
Proof.
  simpl. unfold initializeCategories, try_catch at 1, bind. rewrite getDocs_eq.
  destruct (next_fault w); [done|].
  destruct (run_query (plain "categories") w) as [|x l] eqn:Hq.
  - apply run_query_plain_nil in Hq. by rewrite Hq.
  - destruct (collection w "categories") eqn:Hc; [|done].
    apply run_query_plain_nil in Hc. by rewrite Hc in Hq.
Qed.

(** Seeding an empty collection against a working backend. *)
Lemma initializeCategories_seeds w :
  calm w → collection w "categories" = [] →
  ∃ w', initializeCategories w = (Ok tt, w') ∧ calm w' ∧
        db w' = foldl (λ s c, <[("categories", c.1) := stored <$> c.2]> s)
                      (db w) categoriesData.
Proof.
  intros Hcalm Hnil. rewrite initializeCategories_eq. cbv zeta. calm_rw. rewrite Hnil.
  destruct (forEach_setDoc_calm "categories" categoriesData
              (served (CGetDocs "categories") w))
    as (w' & Hrun & Hcalm' & Hdb & _);
    [auto with calm | apply categoriesData_defined |].
  exists w'. unfold try_catch. rewrite Hrun, Hdb, db_served.
  split_and!; [reflexivity|assumption|reflexivity].
Qed.

Lemma initializeCategories_keeps w :
  collection w "categories" ≠ [] →
  initializeCategories w = (Ok tt, served (CGetDocs "categories") w).
Proof.
  intros Hne. rewrite initializeCategories_eq. cbv zeta.
  destruct (next_fault w); [done|]. by destruct (collection w "categories").
Qed.

(** C8. Initialization never throws.  On a store that already holds
    categories it writes nothing, its one store call being the read, whether
    or not the backend fails.  On an empty category collection and a working
    backend it writes the eight default categories and these only, and
    leaves the other collections as they were.  Running it a second time
    changes nothing. *)
Theorem initializeCategories_seeds_once (w : World) :
  let w1 := (initializeCategories w).2 in
  (initializeCategories w).1 = Ok tt ∧
  length categoriesData = 8%nat ∧
  (collection w "categories" ≠ [] →
     db w1 = db w ∧ calls w1 = calls w ++ [CGetDocs "categories"]) ∧
  (calm w → collection w "categories" = [] →
     (∀ id d, document w1 "categories" id = Some d ↔ (id, d) ∈ categoriesData) ∧
     (∀ col id, col ≠ "categories" → document w1 col id = document w col id)) ∧
  (calm w → db (initializeCategories w1).2 = db w1).
Proof.
  cbv zeta.
  assert (calm w → collection w "categories" = [] →
          (∀ id d, document (initializeCategories w).2 "categories" id = Some d
                   ↔ (id, d) ∈ categoriesData) ∧
          (∀ col id, col ≠ "categories" →
                     document (initializeCategories w).2 col id = document w col id))
    as Hseed.
  { intros Hcalm Hnil.
    destruct (initializeCategories_seeds w Hcalm Hnil) as (w' & -> & _ & Hdb).
    cbn [snd]. unfold document. rewrite Hdb. split.
    - intros id d. rewrite foldl_setDoc_lookup by apply categoriesData_NoDup.
      rewrite (elem_of_list_to_map (M := gmap string)) by apply categoriesData_NoDup.
      destruct (list_to_map categoriesData !! id) as [d0|] eqn:Hd0.
      + assert (stored <$> d0 = d0) as ->; [|done].
        apply elem_of_list_to_map_2 in Hd0.
        by apply (proj1 (Forall_forall _ _) categoriesData_stored (id, d0)).
      + fold (document w "categories" id).
        by rewrite (proj1 (collection_nil w "categories") Hnil id).
    - intros col id Hne. by apply foldl_setDoc_lookup_other. }
  split_and!.
  - unfold initializeCategories, try_catch. by destruct (bind _ _ w) as [[[]|e] w'].
  - done.
  - intros Hne. rewrite initializeCategories_keeps by done. cbn [snd].
    by rewrite db_served, calls_served.
  - exact Hseed.
  - intros Hcalm.
    destruct (collection w "categories") as [|x l] eqn:Hcol.
    + destruct (Hseed Hcalm eq_refl) as [Hcats _].
      rewrite (initializeCategories_keeps (initializeCategories w).2).
      { cbn [snd]. by rewrite db_served. }
      intros Hnil. apply collection_nil with (id := "crepe") in Hnil.
      destruct (Hcats "crepe" (category_obj "crepe" "Crêpe" "Délicieuses crêpes artisanales" 1))
        as [_ Hin].
      rewrite Hin in Hnil; [done|]. unfold categoriesData. left.
    + rewrite (initializeCategories_keeps w) by by rewrite Hcol.
      cbn [snd]. rewrite initializeCategories_keeps.
      { cbn [snd]. by rewrite !db_served. }
      by rewrite collection_served, Hcol.
Qed.

Lemma initializeCategories_seeds_once_witness :
  let w1 := (initializeCategories empty_world).2 in
  document w1 "categories" "tiramisu"
    = Some (category_obj "tiramisu" "Tiramisu" "Tiramisu traditionnel et créatif" 6) ∧
  document w1 "menuItems" "id-0" = document empty_world "menuItems" "id-0" ∧
  db (initializeCategories w1).2 = db w1.
Proof.
  cbv zeta.
  assert (calm empty_world) as Hcalm by (vm_compute; constructor).
  assert (collection empty_world "categories" = []) as Hnil by (vm_compute; reflexivity).
  destruct (initializeCategories_seeds_once empty_world) as (_ & _ & _ & Hseed & Htwice).
  destruct (Hseed Hcalm Hnil) as [Hcats Hothers].
  split; [|split].
  - apply Hcats. unfold categoriesData. do 5 right. left.
  - apply Hothers. by vm_compute.
  - exact (Htwice Hcalm).
Defined.

(** ** Reservations and the sort orders of the list reads *)

Lemma createReservation_eq insertReservation w :
  let id := uuids w (drawn w) in
  let now := clock w (ticks w) in
  let reservation := new_reservation id insertReservation now in
  let data := reservation_firestoreData reservation now in
  let w1 := served (CSetDoc "reservations" id) (tick (draw w)) in
  createReservation insertReservation w =
    if refused_data data then (Throw InvalidData, tick (draw w))
    else if next_fault w then (Throw BackendFailure, w1)
    else (Ok reservation, write_doc "reservations" id (Some (stored <$> data)) w1).
Proof.
  simpl. unfold createReservation, bind, ret, randomUUID, newDate.
  cbn [clock ticks draw tick]. rewrite setDoc_eq.
  destruct (refused_data _); [done|].
  autorewrite with world. by destruct (next_fault w).
Qed.

(** What [createReservation] leaves in the store. *)
Lemma createReservation_stored insertReservation w r w1 :
  createReservation insertReservation w = (Ok r, w1) →
  let now := clock w (ticks w) in
  r = new_reservation (uuids w (drawn w)) insertReservation now ∧
  ∃ d, d !! "createdAt" = Some (Timestamp_fromDate now) ∧
       ∀ col id, document w1 col id =
                 if decide (("reservations", Reservation.id r) = (col, id))
                 then Some d else document w col id.
Proof.
  rewrite createReservation_eq. cbv zeta. intros Hrun.
  do 2 (case_match; [done|]). injection Hrun as <- <-.
  split; [done|].
  exists (stored <$> reservation_firestoreData
            (new_reservation (uuids w (drawn w)) insertReservation (clock w (ticks w)))
            (clock w (ticks w))).
  split.
  - rewrite lookup_fmap. unfold reservation_firestoreData.
    by rewrite lookup_insert_eq.
  - intros col id. rewrite document_write_doc. cbn [new_reservation Reservation.id].
    case_decide; [done|]. by autorewrite with world.
Qed.

Lemma createReservation_timestamped insertReservation w r w1 :
  timestamped w "reservations" →
  createReservation insertReservation w = (Ok r, w1) →
  timestamped w1 "reservations".
Proof.
  intros Hts Hrun. destruct (createReservation_stored _ _ _ _ Hrun) as (_ & d & Hd & Hdoc).
  intros id d' v. rewrite Hdoc. case_decide.
  - intros [= <-]. rewrite Hd. intros [= <-]. by eexists.
  - apply Hts.
Qed.

Lemma get_category_order (d : string * obj) :
  get (d.2 ∪ {["id" := VStr d.1]}) "order" = get d.2 "order".
Proof. unfold get. by rewrite lookup_union_l. Qed.

Lemma earlier_not_before a b : earlier a b → not_before a b → False.
Proof. destruct a, b; simpl; try done. lia. Qed.

(** The reservation just created stands in the next list before everything
    that is not at least as recent. *)
Lemma created_reservation_first insertReservation w r w1 :
  timestamped w "reservations" →
  createReservation insertReservation w = (Ok r, w1) →
  next_fault w1 = false →
  ∃ before r' after,
    (getReservations w1).1 = Ok (before ++ r' :: after) ∧
    Reservation.id r' = Reservation.id r ∧
    Reservation.createdAt r' = Reservation.createdAt r ∧
    ∀ x, x ∈ before → not_before (Reservation.createdAt x) (Reservation.createdAt r).
Proof.
  intros Hts Hrun Hcalm.
  pose proof (createReservation_timestamped _ _ _ _ Hts Hrun) as Hts1.
  destruct (createReservation_stored _ _ _ _ Hrun) as (Hr & d & Hd & Hdoc).
  cbv zeta in Hr, Hd.
  set (q := mkQuery "reservations" None (Some ("createdAt", Desc))).
  assert ((Reservation.id r, d) ∈ run_query q w1) as Hin.
  { apply elem_of_run_query. split_and!.
    - apply elem_of_collection. rewrite Hdoc. by rewrite decide_True.
    - done.
    - cbn. apply bool_decide_eq_true. by rewrite Hd. }
  destruct (list_elem_of_split _ _ Hin) as (l1 & l2 & Hsplit).
  exists (map reservation_of_doc l1), (reservation_of_doc (Reservation.id r, d)),
         (map reservation_of_doc l2).
  rewrite getReservations_eq, Hcalm. fold q. rewrite Hsplit, map_app.
  split_and!; [done|done| |].
  - cbn [reservation_of_doc Reservation.createdAt snd]. unfold get. rewrite Hd, Hr.
    cbn. unfold Timestamp_toDate. by rewrite Z.div_mul.
  - intros x Hx. apply list_elem_of_In, in_map_iff in Hx as (y & <- & Hy%list_elem_of_In).
    assert (Reservation.createdAt r = to_date (get d "createdAt")) as ->.
    { unfold get. rewrite Hd, Hr. cbn. unfold Timestamp_toDate. by rewrite Z.div_mul. }
    cbn [reservation_of_doc Reservation.createdAt].
    apply to_date_desc.
    + apply (ordered_doc_timestamped w1 "reservations" None); [done|].
      fold q. rewrite Hsplit. apply elem_of_app. by left.
    + unfold get. rewrite Hd. by eexists.
    + pose proof (run_query_desc "reservations" None "createdAt" w1) as Hsorted.
      fold q in Hsorted. rewrite Hsplit in Hsorted.
      apply (StronglySorted_app_1_elem_of _ _ _ y (Reservation.id r, d)) in Hsorted;
        [done|done|left].
Qed.

(** An ordered read of a whole collection lists the documents that carry
    the field of the order. *)
Lemma run_query_listed w col f dir :
  listed w col f (run_query (mkQuery col None (Some (f, dir))) w).
Proof.
  split; [apply run_query_NoDup|].
  intros id d. rewrite elem_of_run_query, elem_of_collection. cbn.
  rewrite bool_decide_eq_true. tauto.
Qed.

(** C9. Each of the three list reads returns the mapping of a snapshot of
    its collection: with a working backend the snapshot holds the documents
    that carry the field of the sort, each once, and when the backend fails
    it is empty.  [getCategories] returns the categories in ascending order
    of their [order] field.  [getReservations] and [getOrders] return their
    records in the store's descending order of [createdAt]; on collections
    whose [createdAt] fields are the timestamps the gateway writes, the
    records are in descending order of their [createdAt] instants.  A
    reservation just created is in the next result of [getReservations],
    and every reservation there whose [createdAt] is an earlier instant
    comes after it, none before it. *)
Theorem list_reads_sorted (w : World) :
  (∃ snapshot,
     (getCategories w).1 = Ok (map (λ d, d.2 ∪ {["id" := VStr d.1]}) snapshot) ∧
     (next_fault w = false → listed w "categories" "order" snapshot) ∧
     (next_fault w = true → snapshot = []) ∧
     StronglySorted (λ a b, fs_le (get a "order") (get b "order"))
                    (map (λ d, d.2 ∪ {["id" := VStr d.1]}) snapshot)) ∧
  (∃ snapshot,
     (getReservations w).1 = Ok (map reservation_of_doc snapshot) ∧
     (next_fault w = false → listed w "reservations" "createdAt" snapshot) ∧
     (next_fault w = true → snapshot = []) ∧
     StronglySorted (λ x y, fs_le (get y.2 "createdAt") (get x.2 "createdAt")) snapshot ∧
     (timestamped w "reservations" →
      StronglySorted (λ a b, not_before (Reservation.createdAt a)
                                        (Reservation.createdAt b))
                     (map reservation_of_doc snapshot))) ∧
  (∃ snapshot,
     (getOrders w).1 = Ok (map order_of_doc snapshot) ∧
     (next_fault w = false → listed w "orders" "createdAt" snapshot) ∧
     (next_fault w = true → snapshot = []) ∧
     StronglySorted (λ x y, fs_le (get y.2 "createdAt") (get x.2 "createdAt")) snapshot ∧
     (timestamped w "orders" →
      StronglySorted (λ a b, not_before (Order.createdAt a) (Order.createdAt b))
                     (map order_of_doc snapshot))) ∧
  (timestamped w "reservations" →
   ∀ insertReservation r w1,
     createReservation insertReservation w = (Ok r, w1) →
     next_fault w1 = false →
     ∃ before r' after,
       (getReservations w1).1 = Ok (before ++ r' :: after) ∧
       Reservation.id r' = Reservation.id r ∧
       Reservation.createdAt r' = Reservation.createdAt r ∧
       ∀ x, x ∈ before ++ r' :: after →
            earlier (Reservation.createdAt x) (Reservation.createdAt r) →
            x ∈ after ∧ x ∉ before).
Proof.
  split_and!.
  - rewrite getCategories_eq. cbn [fst]. destruct (next_fault w).
    + exists []. split_and!; [done|done|done|constructor].
    + eexists. split_and!; [reflexivity| |done|].
      * intros _. apply run_query_listed.
      * eapply StronglySorted_map; [|apply run_query_asc].
        intros x y _ _. by rewrite !get_category_order.
  - rewrite getReservations_eq. cbn [fst]. destruct (next_fault w).
    + exists []. split_and!; [done|done|done|constructor|constructor].
    + eexists. split_and!; [reflexivity| |done| |].
      * intros _. apply run_query_listed.
      * apply run_query_desc.
      * intros Hts. eapply StronglySorted_map; [|apply run_query_desc].
        intros x y Hx Hy. cbn [reservation_of_doc Reservation.createdAt].
        apply to_date_desc; by eapply ordered_doc_timestamped.
  - rewrite getOrders_eq. cbn [fst]. destruct (next_fault w).
    + exists []. split_and!; [done|done|done|constructor|constructor].
    + eexists. split_and!; [reflexivity| |done| |].
      * intros _. apply run_query_listed.
      * apply run_query_desc.
      * intros Hts. eapply StronglySorted_map; [|apply run_query_desc].
        intros x y Hx Hy. cbn [order_of_doc Order.createdAt].
        apply to_date_desc; by eapply ordered_doc_timestamped.
  - intros Hts insertReservation r w1 Hrun Hcalm.
    destruct (created_reservation_first _ _ _ _ Hts Hrun Hcalm)
      as (before & r' & after & Hrs & Hid & Hat & Hbefore).
    exists before, r', after. split_and!; [exact Hrs|exact Hid|exact Hat|].
    clear Hrs Hrun. intros x Hx Hearlier.
    assert (x ∉ before) as Hnot.
    { intros Hin. exact (earlier_not_before _ _ Hearlier (Hbefore x Hin)). }
    split; [|exact Hnot].
    apply elem_of_app in Hx as [Hx|Hx]; [by destruct (Hnot Hx)|].
    apply elem_of_cons in Hx as [->|Hx]; [|exact Hx].
    rewrite Hat in Hearlier.
    destruct (Reservation.createdAt r); simpl in Hearlier; [lia|done..].
Qed.

Lemma list_reads_sorted_witness :
  let w1 := (createReservation sample_reservation booked_world).2 in
  (∃ snapshot,
     (getReservations w1).1 = Ok (map reservation_of_doc snapshot) ∧
     listed w1 "reservations" "createdAt" snapshot) ∧
  ∃ before r' after,
    (getReservations w1).1 = Ok (before ++ r' :: after) ∧
    Reservation.id r' = "id-1" ∧
    Reservation.createdAt r' = DateMs 1700000000001 ∧
    ∀ x, x ∈ before ++ r' :: after →
         earlier (Reservation.createdAt x) (DateMs 1700000000001) →
         x ∈ after ∧ x ∉ before.
Proof.
  cbv zeta.
  destruct (list_reads_sorted booked_world) as (_ & _ & _ & Hfirst).
  destruct (list_reads_sorted (createReservation sample_reservation booked_world).2)
    as (_ & (snapshot & Hread & Hlisted & _) & _).
  assert (timestamped booked_world "reservations") as Hts.
  { apply timestamped_check_sound. vm_compute. reflexivity. }
  set (r := new_reservation "id-1" sample_reservation 1700000000001).
  assert (createReservation sample_reservation booked_world
          = (Ok r, (createReservation sample_reservation booked_world).2)) as Hrun.
  { apply run_pair. vm_compute. reflexivity. }
  assert (next_fault (createReservation sample_reservation booked_world).2 = false)
    as Hcalm by (vm_compute; reflexivity).
  split.
  - exists snapshot. exact (conj Hread (Hlisted Hcalm)).
  - destruct (Hfirst Hts sample_reservation r _ Hrun Hcalm)
      as (before & r' & after & Hrs & Hid & Hat & Hall).
    exists before, r', after.
    exact (conj Hrs (conj Hid (conj Hat Hall))).
Defined.

(** Two reservations made at the same reading of the clock are listed in
    descending order of their identifiers: the second one, the reservation
    just created, comes after the one created before it. *)
Lemma new_reservation_listed_after_an_earlier_one :
  let first := createReservation sample_reservation same_instant_world in
  let second := createReservation sample_reservation first.2 in
  (∃ r, first.1 = Ok r ∧ Reservation.id r = "b" ∧
        Reservation.createdAt r = DateMs 1700000000000) ∧
  (∃ r, second.1 = Ok r ∧ Reservation.id r = "a" ∧
        Reservation.createdAt r = DateMs 1700000000000) ∧
  timestamped first.2 "reservations" ∧
  next_fault second.2 = false ∧
  ∃ rs, (getReservations second.2).1 = Ok rs ∧ Reservation.id <$> rs = ["b"; "a"].
Proof.
  cbv zeta. split_and!.
  - eexists. split_and!; vm_compute; reflexivity.
  - eexists. split_and!; vm_compute; reflexivity.
  - apply timestamped_check_sound. vm_compute. reflexivity.
  - vm_compute. reflexivity.
  - eexists. split; vm_compute; reflexivity.
Qed.

(** ** Orders: creation *)

Lemma createOrder_eq insertOrder w :
  let id := uuids w (drawn w) in
  let now := clock w (ticks w) in
  let order := new_order id insertOrder now in
  let data := order_firestoreData order now in
  let w1 := served (CSetDoc "orders" id) (tick (draw w)) in
  createOrder insertOrder w =
    if refused_data data then (Throw InvalidData, tick (draw w))
    else if next_fault w then (Throw BackendFailure, w1)
    else (Ok order, write_doc "orders" id (Some (stored <$> data)) w1).
Proof.
  simpl. unfold createOrder, bind, ret, randomUUID, newDate.
  cbn [clock ticks draw tick]. rewrite setDoc_eq.
  destruct (refused_data _); [done|].
  autorewrite with world. by destruct (next_fault w).
Qed.

(** The client library accepts the payload of a new order when the input
    has the required fields and carries nothing the library refuses. *)
Lemma order_firestoreData_accepted id insertOrder now :
  defined insertOrder "customerName" → defined insertOrder "customerEmail" →
  defined insertOrder "customerPhone" → defined insertOrder "items" →
  defined insertOrder "totalAmount" → defined insertOrder "orderType" →
  carries_storable insertOrder →
  refused_data (order_firestoreData (new_order id insertOrder now) now) = false.
Proof.
  intros ? ? ? ? ? ? Hc. unfold order_firestoreData. cbn [new_order Order.id Order.userId
    Order.customerName Order.customerEmail Order.customerPhone Order.items
    Order.totalAmount Order.orderType Order.deliveryAddress Order.notes Order.status
    Order.livreurId].
  repeat (apply refused_data_insert;
          [reflexivity
          |first [ reflexivity
                 | by apply carries_required
                 | apply nullish_storable; [apply Hc|reflexivity] ]|]).
  apply refused_data_empty.
Qed.

(** C10. Whatever the input, an order that [createOrder] returns has status
    [pending], whatever status the input carries, and its [createdAt] and
    [updatedAt] are the same instant, the one reading of the clock; each of
    [userId], [deliveryAddress], [notes] and [livreurId] is the input's value,
    or [null] when the input has none, and never [undefined].  With a working
    backend and an input that has the required fields and carries nothing the
    client library refuses, [createOrder] does return, and the document it
    stores has the same status and timestamps. *)
Theorem createOrder_pending (insertOrder : obj) (w : World) :
  let r := createOrder insertOrder w in
  let now := clock w (ticks w) in
  let normalized (field : Order.t → value) (k : string) (o : Order.t) :=
    field o = nullish (get insertOrder k) VNull ∧
    field o ≠ VUndef ∧
    (get insertOrder k = VUndef → field o = VNull) in
  (∀ o, r.1 = Ok o →
     Order.status o = VStr "pending" ∧
     Order.createdAt o = Order.updatedAt o ∧
     Order.createdAt o = DateMs now ∧
     normalized Order.userId "userId" o ∧
     normalized Order.deliveryAddress "deliveryAddress" o ∧
     normalized Order.notes "notes" o ∧
     normalized Order.livreurId "livreurId" o) ∧
  (calm w →
   defined insertOrder "customerName" → defined insertOrder "customerEmail" →
   defined insertOrder "customerPhone" → defined insertOrder "items" →
   defined insertOrder "totalAmount" → defined insertOrder "orderType" →
   carries_storable insertOrder →
   ∃ o d, r.1 = Ok o ∧
          document r.2 "orders" (Order.id o) = Some d ∧
          get d "status" = VStr "pending" ∧
          get d "createdAt" = Timestamp_fromDate now ∧
          get d "updatedAt" = Timestamp_fromDate now).
Proof.
  simpl. rewrite createOrder_eq. split.
  - intros o Ho.
    assert (o = new_order (uuids w (drawn w)) insertOrder (clock w (ticks w))) as ->.
    { destruct (refused_data _); [done|]. destruct (next_fault w); [done|].
      by injection Ho. }
    cbn [new_order Order.status Order.createdAt Order.updatedAt Order.userId
         Order.deliveryAddress Order.notes Order.livreurId].
    repeat split; first [reflexivity | apply nullish_null_spec].
  - intros Hcalm ? ? ? ? ? ? ?.
    rewrite order_firestoreData_accepted by done. calm_rw.
    eexists _, _. split; [done|]. cbn [fst snd new_order Order.id].
    rewrite document_write_doc, decide_True by done.
    split; [reflexivity|]. unfold get. rewrite !lookup_fmap.
    split_and!; reflexivity.
Qed.

Lemma createOrder_pending_witness :
  ∃ o, (createOrder (<["status" := VStr "delivered"]> sample_order) empty_world).1 = Ok o ∧
       Order.status o = VStr "pending" ∧
       Order.createdAt o = Order.updatedAt o ∧
       Order.livreurId o = VNull.
Proof.
  destruct (createOrder_pending (<["status" := VStr "delivered"]> sample_order) empty_world)
    as [Hret Hlive].
  destruct Hlive as (o & d & Ho & _);
    [by (vm_compute; constructor) | by vm_compute..|by carries_sample|].
  destruct (Hret o Ho) as (Hs & Hd & _ & _ & _ & _ & _ & _ & Hl).
  exists o. split; [exact Ho|]. split; [exact Hs|]. split; [exact Hd|].
  apply Hl. by vm_compute.
Defined.

(** The gateway keeps the [createdAt] fields of the orders timestamps: a new
    order gets one, and a status update leaves the field alone. *)
Lemma createOrder_timestamped insertOrder w o w1 :
  timestamped w "orders" →
  createOrder insertOrder w = (Ok o, w1) →
  timestamped w1 "orders".
Proof.
  intros Hts. rewrite createOrder_eq. cbv zeta. intros Hrun.
  do 2 (case_match; [done|]). injection Hrun as <- <-.
  intros id d v. rewrite document_write_doc. case_decide.
  - intros [= <-]. rewrite lookup_fmap. unfold order_firestoreData.
    rewrite lookup_insert_ne, lookup_insert_eq by done. intros [= <-]. by eexists.
  - autorewrite with world. apply Hts.
Qed.

(** ** Orders: status updates and the claim of a courier *)

(** What [updateOrder] writes at the instant [now]. *)
Lemma updateOrder_eq id updates w :
  let w1 := served (CGetDoc "orders" id) w in
  let now := clock w (ticks w) in
  let w2 := served (CUpdateDoc "orders" id) (tick w1) in
  let payload := remove_undefined (<["updatedAt" := Timestamp_fromDate now]> updates) in
  updateOrder id updates w =
    if next_fault w then (Ok None, w1)
    else match document w "orders" id with
         | None => (Ok None, w1)
         | Some old =>
             if refused_update payload then (Ok None, tick w1)
             else if next_fault w1 || conflicting payload then (Ok None, w2)
             else getOrder id
                    (write_doc "orders" id (Some (apply_update payload old)) w2)
         end.
Proof.
  simpl. unfold updateOrder, try_catch, bind, ret, newDate.
  rewrite getDoc_eq. destruct (next_fault w) eqn:Hf; [done|].
  destruct (document w "orders" id) as [old|] eqn:Hdoc; [|done].
  rewrite updateDoc_eq.
  replace (clock (served (CGetDoc "orders" id) w) (ticks (served (CGetDoc "orders" id) w)))
    with (clock w (ticks w))
    by (by destruct (clock_served (CGetDoc "orders" id) w) as [-> ->]).
  destruct (refused_update _); [done|].
  change (next_fault (tick ?x)) with (next_fault x).
  destruct (next_fault (served _ w)); [done|]. cbn [orb].
  destruct (conflicting _); [done|].
  change (document (tick ?x) ?c ?i) with (document x c i).
  rewrite document_served, Hdoc.
  by rewrite getOrder_eq.
Qed.

(** The payload of the route carries [livreurId] only for an order nobody
    has claimed. *)
Lemma order_updates_livreurId user order req_body now :
  truthy (Order.livreurId order) = true →
  order_updates user order req_body now !! "livreurId" = None.
Proof.
  intros Ht. unfold order_updates. rewrite Ht, andb_false_r.
  by destruct (truthy (get req_body "status")).
Qed.

Lemma order_updates_claim user order req_body now :
  get req_body "status" = VStr "confirmed" →
  User.role user = "livreur" →
  truthy (Order.livreurId order) = false →
  order_updates user order req_body now =
    <["livreurId" := VNum (User.id user)]>
      (<["status" := VStr "confirmed"]> {["updatedAt" := VDate now]}).
Proof. intros Hs Hr Ht. unfold order_updates. by rewrite Hs, Hr, Ht. Qed.

Lemma order_updates_keys user order req_body now k :
  k ≠ "updatedAt" → k ≠ "status" → k ≠ "livreurId" →
  order_updates user order req_body now !! k = None.
Proof.
  intros ? ? ?. unfold order_updates.
  repeat case_match;
    rewrite ?lookup_insert_ne, ?lookup_singleton_ne by done; done.
Qed.

(** The payload that [updateOrder] hands to the store for the updates of
    the route: the new [updatedAt], the status of the request when it is
    truthy, and the courier when the order is claimed. *)
Lemma order_payload_lookup user order req_body now ts k v :
  remove_undefined (<["updatedAt" := ts]> (order_updates user order req_body now)) !! k
  = Some v →
  (k = "updatedAt" ∧ v = ts) ∨
  (k = "status" ∧ v = get req_body "status" ∧ truthy v = true) ∨
  (k = "livreurId" ∧ v = VNum (User.id user)).
Proof.
  intros [Hk _]%lookup_remove_undefined. revert Hk.
  rewrite lookup_insert. case_decide as Hat; [intros [= <-]; by left|].
  unfold order_updates.
  destruct (truthy (get req_body "status")) eqn:Hs.
  - destruct (_ && _ && _).
    + rewrite lookup_insert. case_decide; [intros [= <-]; right; by right|].
      rewrite lookup_insert. case_decide; [intros [= <-]; right; by left|].
      by rewrite lookup_singleton_ne.
    + rewrite lookup_insert. case_decide; [intros [= <-]; right; by left|].
      by rewrite lookup_singleton_ne.
  - by rewrite lookup_singleton_ne.
Qed.

Lemma order_payload_status user order req_body now ts :
  truthy (get req_body "status") = true →
  remove_undefined (<["updatedAt" := ts]> (order_updates user order req_body now)) !! "status"
  = Some (get req_body "status").
Proof.
  intros Hs. apply lookup_remove_undefined. split; [|by destruct (get req_body "status")].
  rewrite lookup_insert_ne by done. unfold order_updates. rewrite Hs.
  destruct (_ && _ && _).
  - by rewrite lookup_insert_ne, lookup_insert_eq.
  - by rewrite lookup_insert_eq.
Qed.

(** The client library refuses the payload of the route when the status of
    the request is truthy and is a value it refuses, and then only; the
    keys of the payload are names of fields. *)
Lemma order_payload_accepted user order req_body now ns :
  let payload := remove_undefined (<["updatedAt" := VTimestamp ns]>
                                     (order_updates user order req_body now)) in
  refused_update payload
  = truthy (get req_body "status") && refused_value false (get req_body "status") ∧
  conflicting payload = false ∧
  ∀ old, apply_update payload old = (stored <$> payload) ∪ old.
Proof.
  cbv zeta.
  assert (∀ k v, remove_undefined (<["updatedAt" := VTimestamp ns]>
                    (order_updates user order req_body now)) !! k = Some v →
                 field_path k = Some [k]) as Hnames.
  { intros k v [[-> _]|[[-> _]|[-> _]]]%order_payload_lookup; reflexivity. }
  split_and!.
  - destruct (truthy (get req_body "status") && refused_value false (get req_body "status"))
      eqn:Hstatus.
    + apply andb_true_iff in Hstatus as [Hs Hrefused].
      destruct (refused_update _) eqn:Hr; [done|].
      destruct (proj1 (refused_update_spec _) Hr "status" (get req_body "status")) as [_ Hok];
        [by apply order_payload_status|]. congruence.
    + apply refused_update_spec. intros k v Hk.
      split; [rewrite (Hnames k v Hk); by eexists|].
      apply order_payload_lookup in Hk as [[_ ->]|[(_ & -> & Hs)|[_ ->]]]; [done| |done].
      rewrite Hs in Hstatus. exact Hstatus.
  - by apply conflicting_plain.
  - intros old. by apply apply_update_plain.
Qed.

(** [updateOrder] on the updates of the route. *)
Lemma updateOrder_route id user order req_body now0 w :
  let w1 := served (CGetDoc "orders" id) w in
  let now := clock w (ticks w) in
  let w2 := served (CUpdateDoc "orders" id) (tick w1) in
  let updates := order_updates user order req_body now0 in
  let payload := remove_undefined (<["updatedAt" := Timestamp_fromDate now]> updates) in
  updateOrder id updates w =
    if next_fault w then (Ok None, w1)
    else match document w "orders" id with
         | None => (Ok None, w1)
         | Some old =>
             if truthy (get req_body "status")
                && refused_value false (get req_body "status")
             then (Ok None, tick w1)
             else if next_fault w1 then (Ok None, w2)
             else getOrder id
                    (write_doc "orders" id (Some ((stored <$> payload) ∪ old)) w2)
         end.
Proof.
  cbv zeta. rewrite updateOrder_eq. cbv zeta.
  destruct (order_payload_accepted user order req_body now0
              (clock w (ticks w) * 1000000)) as (Hrefused & Hfree & Happly).
  cbv zeta in Hrefused, Hfree, Happly. unfold Timestamp_fromDate.
  rewrite Hrefused, Hfree, orb_false_r.
  destruct (next_fault w); [done|].
  destruct (document w "orders" id) as [old|]; [|done].
  by rewrite Happly.
Qed.

(** What a status update leaves in the store: nothing new, or the order
    overwritten by the fields of the payload. *)
Lemma patch_order_writes session_userId id req_body w :
  let w' := (patch_order session_userId id req_body w).2 in
  db w' = db w ∨
  ∃ user old now now',
    document w "orders" id = Some old ∧
    db w' = <[("orders", id) :=
                (stored <$> remove_undefined
                   (<["updatedAt" := Timestamp_fromDate now']>
                      (order_updates user (order_of_doc (id, old)) req_body now))) ∪ old]>
              (db w).
Proof.
  cbv zeta. unfold patch_order, try_catch, bind, getUserById, ret, newDate.
  destruct (users w !! session_userId) as [user|]; cbn [fst snd]; [|by left].
  rewrite getOrder_eq.
  destruct (next_fault w) eqn:Hf; [left; by world_simpl|].
  destruct (document w "orders" id) as [old|] eqn:Hdoc;
    cbn [fmap option_fmap option_map]; [|left; by world_simpl].
  destruct (_ || _); [|left; by world_simpl].
  rewrite updateOrder_route. autorewrite with world. rewrite Hdoc.
  destruct (next_fault (served _ w)); [left; by world_simpl|].
  destruct (_ && _); [left; by world_simpl|].
  destruct (next_fault (served _ (served _ w))); [left; by world_simpl|].
  rewrite getOrder_eq. cbn [fst snd]. right.
  eexists user, old, _, _. split; [done|].
  rewrite db_served. unfold write_doc. cbn [db set_db]. by autorewrite with world.
Qed.

Lemma patch_order_timestamped session_userId id req_body w :
  timestamped w "orders" →
  timestamped (patch_order session_userId id req_body w).2 "orders".
Proof.
  intros Hts.
  destruct (patch_order_writes session_userId id req_body w)
    as [Hdb|(user & old & now & now' & Hold & Hdb)];
    intros id' d v; unfold document; rewrite Hdb; [apply Hts|].
  rewrite lookup_insert. case_decide as Heq; [|apply Hts].
  intros [= <-]. rewrite written_field_kept.
  - by apply (Hts id).
  - apply eq_None_not_Some. intros [x Hx].
    apply lookup_remove_undefined in Hx as [Hx _].
    rewrite lookup_insert_ne in Hx by done.
    by rewrite order_updates_keys in Hx.
Qed.

(** C3. An actor whose role is neither [livreur] nor [owner] cannot update an
    order: the handler leaves the store as it was and issues no write, the
    only store call being the read of the order; when that read succeeds on
    an existing order the answer is 403. *)
Theorem unauthorized_patch_rejected (w : World) (session_userId : Z) (id : string)
    (req_body : obj) (user : User.t) :
  users w !! session_userId = Some user →
  User.role user ≠ "livreur" →
  User.role user ≠ "owner" →
  let r := patch_order session_userId id req_body w in
  db r.2 = db w ∧
  calls r.2 = calls w ++ [CGetDoc "orders" id] ∧
  (next_fault w = false → is_Some (document w "orders" id) →
   r.1 = Ok (error 403 "Not authorized to update orders")).
Proof.
  intros Huser Hl%String.eqb_neq Ho%String.eqb_neq. simpl.
  unfold patch_order, try_catch, bind, getUserById, ret. rewrite Huser.
  rewrite getOrder_eq, Hl, Ho. simpl.
  destruct (next_fault w), (document w "orders" id) as [d|]; simpl;
    rewrite db_served, calls_served; split_and!; try done.
  all: by intros _ [? ?].
Qed.

Lemma unauthorized_patch_rejected_witness :
  let r := patch_order 4 "id-1" {["status" := VStr "delivered"]} stocked_world in
  r.1 = Ok (error 403 "Not authorized to update orders") ∧ db r.2 = db stocked_world.
Proof.
  destruct (unauthorized_patch_rejected stocked_world 4 "id-1"
              {["status" := VStr "delivered"]} (staff 4 "client"))
    as (Hdb & _ & Hresp); [by vm_compute..|].
  split; [|exact Hdb].
  apply Hresp; [by vm_compute|].
  apply (bool_decide_unpack _). by vm_compute.
Defined.

(** C2. A courier who sets the status of an order nobody has claimed to
    [confirmed] gets back, when the backend works, the order with status
    [confirmed] and [livreurId] equal to the courier's own identifier, and the
    stored document carries both.  An order whose [livreurId] is set keeps it
    through every status update of this handler, whoever the actor is,
    whatever the requested status and whether or not the backend fails on the
    way. *)
Theorem claim_assigns_and_sticks (w : World) (session_userId : Z) (id : string)
    (req_body d : obj) :
  document w "orders" id = Some d →
  let r := patch_order session_userId id req_body w in
  (∀ user,
     calm w →
     users w !! session_userId = Some user →
     User.role user = "livreur" →
     User.id user ≠ 0 →
     Order.livreurId (order_of_doc (id, d)) = VNull →
     get req_body "status" = VStr "confirmed" →
     ∃ o d',
       r.1 = Ok (json (JOrder (Some o))) ∧
       Order.status o = VStr "confirmed" ∧
       Order.livreurId o = VNum (User.id user) ∧
       document r.2 "orders" id = Some d' ∧
       get d' "status" = VStr "confirmed" ∧
       get d' "livreurId" = VNum (User.id user)) ∧
  (Order.livreurId (order_of_doc (id, d)) ≠ VNull →
   ∃ d', document r.2 "orders" id = Some d' ∧ d' !! "livreurId" = d !! "livreurId").
Proof.
  intros Hdoc. simpl. split.
  - intros user Hcalm Huser Hrole Hid Hnull Hstatus.
    apply js_or_null_falsy in Hnull.
    unfold patch_order, try_catch, bind, getUserById, ret, newDate. rewrite Huser.
    rewrite getOrder_eq. calm_rw. rewrite Hdoc. simpl. rewrite Hrole. simpl.
    rewrite updateOrder_route. rewrite Hstatus. simpl.
    change (next_fault (tick ?x)) with (next_fault x). calm_rw.
    change (document (tick ?x) ?c ?i) with (document x c i).
    rewrite document_served, Hdoc.
    change (next_fault (served ?c (tick ?x))) with (next_fault (served c x)).
    set (now := clock _ _). set (now2 := clock _ _).
    assert (truthy (Order.livreurId (order_of_doc (id, d))) = false) as Hfree
      by (cbn [order_of_doc Order.livreurId snd]; unfold js_or; by rewrite Hnull).
    rewrite (order_updates_claim user _ req_body _ Hstatus Hrole Hfree).
    match goal with |- context [write_doc _ _ (Some ?x)] => remember x as d' eqn:Hd' end.
    assert (d' !! "status" = Some (VStr "confirmed")) as Hs.
    { subst d'. apply (written_field_set _ _ _ (VStr "confirmed")).
      apply lookup_remove_undefined. split; [|done].
      by rewrite lookup_insert_ne, lookup_insert_ne, lookup_insert_eq. }
    assert (d' !! "livreurId" = Some (VNum (User.id user))) as Hl.
    { subst d'. apply (written_field_set _ _ _ (VNum (User.id user))).
      apply lookup_remove_undefined. split; [|done].
      by rewrite lookup_insert_ne, lookup_insert_eq. }
    clear Hd'.
    rewrite getOrder_eq. calm_rw.
    rewrite document_write_doc, decide_True by done.
    exists (order_of_doc (id, d')), d'.
    cbn [fmap option_fmap option_map fst snd order_of_doc Order.status Order.livreurId].
    rewrite document_served, document_write_doc, decide_True by done.
    unfold get. rewrite Hs, Hl.
    split_and!; try done.
    unfold js_or. cbn. by destruct (Z.eqb_spec (User.id user) 0).
  - intros Hset%js_or_null_truthy.
    destruct (patch_order_writes session_userId id req_body w)
      as [Hdb|(user & old & now & now' & Hold & Hdb)];
      unfold document; rewrite Hdb.
    + exists d. by split.
    + rewrite lookup_insert_eq. eexists. split; [done|].
      assert (old = d) as -> by congruence.
      apply written_field_kept, eq_None_not_Some. intros [v Hv].
      apply lookup_remove_undefined in Hv as [Hv _].
      rewrite lookup_insert_ne in Hv by done.
      by rewrite order_updates_livreurId in Hv.
Qed.

Lemma claim_assigns_and_sticks_witness :
  (∃ o, (patch_order 7 "id-1" {["status" := VStr "confirmed"]} stocked_world).1
          = Ok (json (JOrder (Some o))) ∧
        Order.status o = VStr "confirmed" ∧ Order.livreurId o = VNum 7) ∧
  (∃ d', document (patch_order 8 "id-1" {["status" := VStr "confirmed"]} claimed_world).2
           "orders" "id-1" = Some d' ∧
         d' !! "livreurId" = fields_of claimed_world "orders" "id-1" !! "livreurId").
Proof.
  split.
  - assert (document stocked_world "orders" "id-1"
            = Some (fields_of stocked_world "orders" "id-1")) as Hdoc.
    { apply document_fields_of, (bool_decide_unpack _). by vm_compute. }
    destruct (claim_assigns_and_sticks stocked_world 7 "id-1"
                {["status" := VStr "confirmed"]} _ Hdoc) as [Hclaim _].
    assert (calm stocked_world) as Hcalm by (vm_compute; constructor).
    assert (users stocked_world !! 7 = Some (staff 7 "livreur")) as Huser
      by (vm_compute; reflexivity).
    assert (User.id (staff 7 "livreur") ≠ 0) as Hid by (vm_compute; discriminate).
    assert (Order.livreurId (order_of_doc ("id-1", fields_of stocked_world "orders" "id-1"))
            = VNull) as Hfree by (vm_compute; reflexivity).
    assert (get ({["status" := VStr "confirmed"]} : obj) "status" = VStr "confirmed")
      as Hstatus by (vm_compute; reflexivity).
    destruct (Hclaim _ Hcalm Huser eq_refl Hid Hfree Hstatus)
      as (o & d' & Ho & Hs & Hl & _).
    exists o. exact (conj Ho (conj Hs Hl)).
  - assert (document claimed_world "orders" "id-1"
            = Some (fields_of claimed_world "orders" "id-1")) as Hdoc.
    { apply document_fields_of, (bool_decide_unpack _). by vm_compute. }
    destruct (claim_assigns_and_sticks claimed_world 8 "id-1"
                {["status" := VStr "confirmed"]} _ Hdoc) as [_ Hsticky].
    assert (Order.livreurId (order_of_doc ("id-1", fields_of claimed_world "orders" "id-1"))
            ≠ VNull) as Hset by (vm_compute; discriminate).
    exact (Hsticky Hset).
Defined.

(** ** Orders: the courier's view *)

Lemma orderMap_of_NoDup l m : NoDup m.*1 → NoDup (orderMap_of l m).*1.
Proof.
  revert m. induction l as [|o l IH]; intros m Hnd; [done|].
  apply IH. by apply Map_set_NoDup.
Qed.

Lemma orderMap_of_get_other k l m :
  k ∉ Order.id <$> l → Map_get k (orderMap_of l m) = Map_get k m.
Proof.
  revert m. induction l as [|o l IH]; intros m Hk; [done|].
  cbn [fmap list_fmap] in Hk. apply not_elem_of_cons in Hk as [Hne Hk].
  cbn [orderMap_of fold_left]. fold (orderMap_of l (Map_set (Order.id o) o m)).
  rewrite IH by done. by apply Map_get_set_ne.
Qed.

Lemma orderMap_of_get o l m :
  NoDup (Order.id <$> l) → o ∈ l → Map_get (Order.id o) (orderMap_of l m) = Some o.
Proof.
  revert m. induction l as [|x l IH]; intros m Hnd Hin; [by apply elem_of_nil in Hin|].
  cbn [fmap list_fmap] in Hnd. apply NoDup_cons in Hnd as [Hx Hnd].
  cbn [orderMap_of fold_left]. fold (orderMap_of l (Map_set (Order.id x) x m)).
  apply elem_of_cons in Hin as [->|Hin].
  - rewrite orderMap_of_get_other by done. apply Map_get_set_eq.
  - by apply IH.
Qed.

(** A list with one order per identifier holds one order for an
    identifier. *)
Lemma order_id_unique (l : list Order.t) o o' :
  NoDup (Order.id <$> l) → o ∈ l → o' ∈ l → Order.id o = Order.id o' → o = o'.
Proof.
  intros Hnd Ho Ho' Hid. induction l as [|x l IH]; [by apply elem_of_nil in Ho|].
  cbn [fmap list_fmap] in Hnd. apply NoDup_cons in Hnd as [Hx Hnd].
  apply elem_of_cons in Ho as [->|Ho], Ho' as [->|Ho']; [done| | |by apply IH].
  - destruct Hx. rewrite Hid. apply list_elem_of_fmap. by exists o'.
  - destruct Hx. rewrite <- Hid. apply list_elem_of_fmap. by exists o.
Qed.

(** Which order the map holds for an identifier once the pending orders and
    then the assigned ones have been set: the assigned one when there is one,
    else the pending one. *)
Lemma orderMap_get_Some k o pendingOrders assignedOrders :
  NoDup (Order.id <$> pendingOrders) → NoDup (Order.id <$> assignedOrders) →
  Map_get k (orderMap_of (pendingOrders ++ assignedOrders) []) = Some o ↔
  Order.id o = k ∧
  (o ∈ assignedOrders ∨ (o ∈ pendingOrders ∧ k ∉ Order.id <$> assignedOrders)).
Proof.
  intros Hp Ha. unfold orderMap_of. rewrite fold_left_app.
  fold (orderMap_of pendingOrders []).
  fold (orderMap_of assignedOrders (orderMap_of pendingOrders [])).
  assert (∀ l : list Order.t, o ∈ l → Order.id o ∈ Order.id <$> l) as Hid_in.
  { intros l Ho. apply list_elem_of_fmap. by exists o. }
  destruct (decide (k ∈ Order.id <$> assignedOrders)) as [Hin|Hnin].
  - apply list_elem_of_fmap in Hin as (o' & -> & Hin).
    rewrite orderMap_of_get by done. split.
    + intros [= ->]. split; [done|by left].
    + intros [Hid [Ho|[_ Hno]]].
      * f_equal. by apply (order_id_unique assignedOrders).
      * destruct Hno. apply list_elem_of_fmap. by exists o'.
  - rewrite orderMap_of_get_other by done.
    destruct (decide (k ∈ Order.id <$> pendingOrders)) as [Hin|Hnin'].
    + apply list_elem_of_fmap in Hin as (o' & -> & Hin).
      rewrite orderMap_of_get by done. split.
      * intros [= ->]. split; [done|]. right. by split.
      * intros [Hid [Ho|[Ho _]]].
        { destruct Hnin. rewrite <- Hid. by apply Hid_in. }
        f_equal. by apply (order_id_unique pendingOrders).
    + rewrite orderMap_of_get_other by done. cbn [Map_get]. split; [done|].
      intros [Hid [Ho|[Ho _]]].
      * destruct Hnin. rewrite <- Hid. by apply Hid_in.
      * destruct Hnin'. rewrite <- Hid. by apply Hid_in.
Qed.

(** The combined list has one order per identifier, and holds the assigned
    orders and the pending ones that are not among the assigned. *)
Lemma combine_orders_spec pendingOrders assignedOrders :
  NoDup (Order.id <$> pendingOrders) → NoDup (Order.id <$> assignedOrders) →
  NoDup (Order.id <$> combine_orders pendingOrders assignedOrders) ∧
  ∀ o, o ∈ combine_orders pendingOrders assignedOrders ↔
       o ∈ assignedOrders ∨
       (o ∈ pendingOrders ∧ Order.id o ∉ Order.id <$> assignedOrders).
Proof.
  intros Hp Ha. unfold combine_orders, Map_values.
  fold (orderMap_of (pendingOrders ++ assignedOrders) []).
  set (m := orderMap_of (pendingOrders ++ assignedOrders) []).
  assert (NoDup m.*1) as Hnd by (apply orderMap_of_NoDup; constructor).
  assert (∀ k o, (k, o) ∈ m ↔
                 Order.id o = k ∧
                 (o ∈ assignedOrders ∨
                  (o ∈ pendingOrders ∧ k ∉ Order.id <$> assignedOrders))) as Hm.
  { intros k o. rewrite <- Map_get_Some by done. by apply orderMap_get_Some. }
  split.
  - assert (Order.id <$> map snd m = m.*1) as ->; [|done].
    assert (∀ k o, (k, o) ∈ m → Order.id o = k) as Hkeys by (intros k o [? _]%Hm; done).
    clear Hm Hnd. induction m as [|[k o] m IH]; [done|].
    cbn [map fmap list_fmap fst snd]. f_equal.
    + apply Hkeys. left.
    + apply IH. intros k' o' Hin. apply Hkeys. by right.
  - intros o. rewrite list_elem_of_In, in_map_iff. split.
    + intros ([k o'] & Heq & Hin%list_elem_of_In). cbn in Heq. subst o'.
      apply Hm in Hin as [<- Hin]. exact Hin.
    + intros Ho. exists (Order.id o, o). split; [done|].
      apply list_elem_of_In, Hm. by split.
Qed.

Lemma order_ids (f : string * obj → Order.t) (l : list (string * obj)) :
  (∀ d, Order.id (f d) = d.1) → Order.id <$> map f l = l.*1.
Proof.
  intros Hf. induction l as [|d l IH]; [done|].
  cbn [map fmap list_fmap]. by rewrite Hf, <- IH.
Qed.

Lemma get_orders_livreur w session_userId user :
  users w !! session_userId = Some user → User.role user = "livreur" → calm w →
  (get_orders session_userId w).1 =
    Ok (json (JOrders (combine_orders
      (map order_of_pending_doc
           (run_query (mkQuery "orders" (Some ("status", VStr "pending"))
                               (Some ("createdAt", Desc))) w))
      (map order_of_livreur_doc
           (run_query (mkQuery "orders" (Some ("livreurId", VNum (User.id user)))
                               (Some ("createdAt", Desc))) w))))).
Proof.
  intros Huser Hrole Hcalm.
  unfold get_orders, try_catch, bind, getUserById, ret. rewrite Huser, Hrole.
  cbn [String.eqb Ascii.eqb Bool.eqb].
  rewrite getPendingOrders_eq, getOrdersByLivreur_eq. calm_rw.
  by rewrite run_query_served.
Qed.

(** C1, as the code has it.  For a courier and a working backend the route
    answers with one order per identifier, and the identifiers are those of
    the listed orders that are pending, whatever their [livreurId], or
    assigned to this courier.  Each order of the answer is the mapping of its
    document, the one of [getOrdersByLivreur] when the order is assigned to
    the courier: the later [set] wins. *)
Theorem livreur_sees_pending_and_own (w : World) (session_userId : Z) (user : User.t) :
  users w !! session_userId = Some user →
  User.role user = "livreur" →
  calm w →
  ∃ os, (get_orders session_userId w).1 = Ok (json (JOrders os)) ∧
        livreur_view visible_to_livreur w (User.id user) os ∧
        ∀ o, o ∈ os →
             ∃ d, document w "orders" (Order.id o) = Some d ∧
                  o = (if assigned_to (User.id user) d
                       then order_of_livreur_doc else order_of_pending_doc)
                        (Order.id o, d).
Proof.
  intros Huser Hrole Hcalm. eexists. split; [by apply get_orders_livreur|].
  set (qp := mkQuery "orders" (Some ("status", VStr "pending")) (Some ("createdAt", Desc))).
  set (qa := mkQuery "orders" (Some ("livreurId", VNum (User.id user)))
                     (Some ("createdAt", Desc))).
  assert (Order.id <$> map order_of_pending_doc (run_query qp w) = (run_query qp w).*1)
    as Hidp by by apply order_ids.
  assert (Order.id <$> map order_of_livreur_doc (run_query qa w) = (run_query qa w).*1)
    as Hida by by apply order_ids.
  destruct (combine_orders_spec (map order_of_pending_doc (run_query qp w))
                                (map order_of_livreur_doc (run_query qa w)))
    as [Hnd Hin].
  { rewrite Hidp. apply run_query_NoDup. }
  { rewrite Hida. apply run_query_NoDup. }
  rewrite Hida in Hin.
  assert (∀ id d, (id, d) ∈ run_query qa w ↔
                  document w "orders" id = Some d ∧ is_Some (d !! "createdAt") ∧
                  assigned_to (User.id user) d = true) as Hqa.
  { intros id d. rewrite elem_of_run_query, elem_of_collection. cbn.
    rewrite bool_decide_eq_true. unfold assigned_to. tauto. }
  assert (∀ id d, (id, d) ∈ run_query qp w ↔
                  document w "orders" id = Some d ∧ is_Some (d !! "createdAt") ∧
                  is_pending d = true) as Hqp.
  { intros id d. rewrite elem_of_run_query, elem_of_collection. cbn.
    rewrite bool_decide_eq_true. unfold is_pending. tauto. }
  assert (∀ o, o ∈ map order_of_livreur_doc (run_query qa w) ↔
               ∃ d, (Order.id o, d) ∈ run_query qa w ∧ o = order_of_livreur_doc (Order.id o, d))
    as Hma.
  { intros o. rewrite list_elem_of_In, in_map_iff. split.
    - intros ([id d] & <- & Hx%list_elem_of_In). by exists d.
    - intros (d & Hx & ->). exists (Order.id o, d). split; [done|by apply list_elem_of_In]. }
  assert (∀ o, o ∈ map order_of_pending_doc (run_query qp w) ↔
               ∃ d, (Order.id o, d) ∈ run_query qp w ∧ o = order_of_pending_doc (Order.id o, d))
    as Hmp.
  { intros o. rewrite list_elem_of_In, in_map_iff. split.
    - intros ([id d] & <- & Hx%list_elem_of_In). by exists d.
    - intros (d & Hx & ->). exists (Order.id o, d). split; [done|by apply list_elem_of_In]. }
  assert (∀ id, id ∈ (run_query qa w).*1 ↔ ∃ d, (id, d) ∈ run_query qa w) as Hidsa.
  { intros id. rewrite list_elem_of_fmap. split.
    - intros ([id' d] & -> & Hx). by exists d.
    - intros (d & Hx). by exists (id, d). }
  split; [split; [exact Hnd|]|].
  - intros id. rewrite list_elem_of_fmap. unfold visible_to_livreur. split.
    + intros (o & -> & [Ho|[Ho _]]%Hin).
      * apply Hma in Ho as (d & (Hdoc & Hat & Hass)%Hqa & _).
        exists d. by rewrite Hass, orb_true_r.
      * apply Hmp in Ho as (d & (Hdoc & Hat & Hpen)%Hqp & _).
        exists d. by rewrite Hpen.
    + intros (d & Hdoc & Hat & Hvis).
      destruct (assigned_to (User.id user) d) eqn:Hass.
      * exists (order_of_livreur_doc (id, d)). split; [done|].
        apply Hin. left. apply Hma. exists d. split; [|done]. by apply Hqa.
      * rewrite orb_false_r in Hvis.
        exists (order_of_pending_doc (id, d)). split; [done|].
        apply Hin. right. split.
        -- apply Hmp. exists d. split; [|done]. by apply Hqp.
        -- cbn [order_of_pending_doc Order.id fst]. intros (d' & Hx)%Hidsa.
           apply Hqa in Hx as (Hdoc' & _ & Hass'). congruence.
  - intros o [Ho|[Ho Hno]]%Hin.
    + apply Hma in Ho as (d & (Hdoc & Hat & Hass)%Hqa & Ho).
      exists d. by rewrite Hass.
    + apply Hmp in Ho as (d & (Hdoc & Hat & Hpen)%Hqp & Ho).
      exists d. split; [done|].
      destruct (assigned_to (User.id user) d) eqn:Hass; [|done].
      destruct Hno. apply Hidsa. exists d. rewrite Ho. cbn [order_of_pending_doc Order.id fst].
      by apply Hqa.
Qed.

Lemma livreur_sees_pending_and_own_witness :
  ∃ os, (get_orders 8 reopened_world).1 = Ok (json (JOrders os)) ∧
        livreur_view visible_to_livreur reopened_world 8 os.
Proof.
  destruct (livreur_sees_pending_and_own reopened_world 8 (staff 8 "livreur"))
    as (os & Hos & Hview & _).
  - vm_compute. reflexivity.
  - reflexivity.
  - vm_compute. constructor.
  - exists os. exact (conj Hos Hview).
Defined.

(** The order of the sample store once courier 7 has claimed it and the
    owner has set it back to [pending]: pending, and assigned to courier 7. *)
Lemma reopened_order :
  get (fields_of reopened_world "orders" "id-1") "status" = VStr "pending" ∧
  get (fields_of reopened_world "orders" "id-1") "livreurId" = VNum 7 ∧
  users reopened_world !! 8 = Some (staff 8 "livreur").
Proof. split_and!; vm_compute; reflexivity. Qed.

(** C1, as the specification words it, fails: courier 8 is shown the pending
    order that is assigned to courier 7. *)
Lemma livreur_sees_pending_of_other_courier :
  ¬ ∃ os, (get_orders 8 reopened_world).1 = Ok (json (JOrders os)) ∧
          livreur_view visible_as_specified reopened_world 8 os.
Proof.
  intros (os & Hos & _ & Hiff).
  assert (∃ o, (get_orders 8 reopened_world).1 = Ok (json (JOrders [o])) ∧
               Order.id o = "id-1") as (o & Hcode & Hid).
  { eexists. split; [vm_compute; reflexivity|reflexivity]. }
  rewrite Hcode in Hos. injection Hos as <-.
  destruct (proj1 (Hiff "id-1")) as (d & Hdoc & _ & Hvis).
  { rewrite <- Hid. cbn [fmap list_fmap]. left. }
  assert (d = fields_of reopened_world "orders" "id-1") as ->
    by (unfold fields_of; by rewrite Hdoc).
  vm_compute in Hvis. discriminate Hvis.
Qed.

(** ** The users in memory *)

(** The identifiers of the users are positive: [createUser] takes them from
    a positive counter, and initialization files the default user under 1. *)
Lemma createUser_users_wf email password name phone role w u w' :
  users_wf w →
  createUser email password name phone role w = (Ok u, w') →
  users_wf w' ∧ 0 < User.id u.
Proof.
  intros [Hcounter Hwf]. unfold createUser, bind, newDate. cbn.
  intros [= <- <-]. cbn. split; [|done]. split; cbn; [lia|].
  intros k u. rewrite lookup_insert. case_decide as Hk.
  - intros [= <-]. cbn. by subst k.
  - apply Hwf.
Qed.

Lemma forEach_setDoc_users (col : string) (l : list (string * obj)) w :
  users (forEach l (λ c, setDoc col c.1 c.2) w).2 = users w ∧
  userIdCounter (forEach l (λ c, setDoc col c.1 c.2) w).2 = userIdCounter w.
Proof.
  revert w. induction l as [|c l IH]; intros w; [done|].
  cbn [forEach]. unfold bind. rewrite setDoc_eq.
  destruct (refused_data c.2); [done|].
  destruct (next_fault w); cbn [fst snd].
  - unfold served, backend. cbn. by destruct (faults w) as [|[] fs].
  - destruct (IH (write_doc col c.1 (Some (stored <$> c.2)) (served (CSetDoc col c.1) w)))
      as [-> ->].
    unfold served, backend. cbn. by destruct (faults w) as [|[] fs].
Qed.

Lemma initializeCategories_users w :
  users (initializeCategories w).2 = users w ∧
  userIdCounter (initializeCategories w).2 = userIdCounter w.
Proof.
  assert (∀ c, users (served c w) = users w ∧
               userIdCounter (served c w) = userIdCounter w) as Hserved.
  { intros c. unfold served, backend. cbn. by destruct (faults w) as [|[] fs]. }
  rewrite initializeCategories_eq. cbv zeta.
  destruct (next_fault w); [apply Hserved|].
  destruct (collection w "categories"); [|apply Hserved].
  unfold try_catch, ret.
  pose proof (forEach_setDoc_users "categories" categoriesData
                (served (CGetDocs "categories") w)) as Hloop.
  destruct (forEach _ _ _) as [[[]|e] w']; cbn [snd] in *;
    destruct Hloop as [-> ->]; apply Hserved.
Qed.

Lemma initializeDefaultData_users_wf hashed w :
  users_wf w → users_wf (initializeDefaultData hashed w).2.
Proof.
  intros [_ Hwf]. unfold initializeDefaultData, bind, newDate. cbn [fst snd].
  destruct (initializeCategories _) as [o w'] eqn:Hinit.
  pose proof (initializeCategories_users
                (set_users
                   (<[1:=User.mk 1 "test@test.com" hashed "Test User" VNull "client" true
                           (clock w (ticks w))]> (users (tick w))) 2 (tick w))) as Hu.
  rewrite Hinit in Hu. cbn [snd] in Hu. destruct Hu as [Hu Hc].
  assert (users_wf w') as Hwf'.
  { unfold users_wf. rewrite Hu, Hc. cbn. split; [lia|].
    intros k u. rewrite lookup_insert. case_decide as Hk.
    - intros [= <-]. cbn. by subst k.
    - apply Hwf. }
  by destruct o.
Qed.

(** An actor found in a well-formed user store has a non-zero identifier. *)
Lemma users_wf_id w session_userId user :
  users_wf w → users w !! session_userId = Some user → User.id user ≠ 0.
Proof. intros [_ Hwf] Hu. destruct (Hwf _ _ Hu) as [-> ?]. lia. Qed.

(** ** The users in memory: construction, creation, lookup by email *)

#[global] Instance user_le_total : Total user_le.
Proof. intros a b. unfold user_le. lia. Qed.

#[global] Instance user_le_trans : Transitive user_le.
Proof. intros a b c. unfold user_le. lia. Qed.

Lemma elem_of_users_values w u : u ∈ users_values w ↔ ∃ k, users w !! k = Some u.
Proof.
  unfold users_values. rewrite list_elem_of_fmap. split.
  - intros ([k u'] & -> & Hin). rewrite merge_sort_Permutation in Hin.
    apply elem_of_map_to_list in Hin. by exists k.
  - intros [k Hk]. exists (k, u). split; [done|].
    rewrite merge_sort_Permutation. by apply elem_of_map_to_list.
Qed.

(** [find] on a list in the order of the identifiers returns the match with
    the least identifier. *)
Lemma find_sorted_first (f : User.t → bool) (l : list (Z * User.t)) :
  StronglySorted user_le l →
  match List.find f l.*2 with
  | Some u => f u = true ∧ ∃ k, (k, u) ∈ l ∧ ∀ j v, (j, v) ∈ l → f v = true → k ≤ j
  | None => ∀ j v, (j, v) ∈ l → f v = false
  end.
Proof.
  induction 1 as [|[k0 u0] l Hl IH Hhd]; cbn [fmap list_fmap List.find snd].
  - intros j v Hin. by apply elem_of_nil in Hin.
  - destruct (f u0) eqn:Hf.
    + split; [done|]. exists k0. split; [left|].
      intros j v [[= -> ->]|Hin]%elem_of_cons _; [done|].
      by apply (proj1 (Forall_forall _ _) Hhd (j, v)).
    + fold (fmap (M := list) (@snd Z User.t)) in IH |- *.
      destruct (List.find f l.*2) as [u|].
      * destruct IH as (Hu & k & Hin & Hleast). split; [done|].
        exists k. split; [by right|].
        intros j v [[= -> ->]|Hj]%elem_of_cons Hv; [congruence|by apply (Hleast j v)].
      * intros j v [[= -> ->]|Hj]%elem_of_cons; [done|by apply (IH j v)].
Qed.

Lemma getUserByEmail_eq email w :
  ∃ found, getUserByEmail email w = (Ok found, w) ∧
    match found with
    | Some u => User.email u = email ∧
                ∃ k, users w !! k = Some u ∧
                     ∀ j v, users w !! j = Some v → User.email v = email → k ≤ j
    | None => ∀ k u, users w !! k = Some u → User.email u ≠ email
    end.
Proof.
  unfold getUserByEmail, users_values. eexists. split; [reflexivity|].
  pose proof (find_sorted_first (λ u, String.eqb (User.email u) email)
                (merge_sort user_le (map_to_list (users w)))
                (StronglySorted_merge_sort _ _)) as Hfind.
  assert (∀ j v, (j, v) ∈ merge_sort user_le (map_to_list (users w)) ↔
                 users w !! j = Some v) as Hin.
  { intros j v. by rewrite merge_sort_Permutation, elem_of_map_to_list. }
  destruct (List.find _ _) as [u|].
  - destruct Hfind as (Hu%String.eqb_eq & k & Hk%Hin & Hleast). split; [done|].
    exists k. split; [done|]. intros j v Hj%Hin Hv. apply (Hleast j v Hj).
    by apply String.eqb_eq.
  - intros k u Hk%Hin Hu. apply Hfind in Hk. apply String.eqb_neq in Hk. done.
Qed.

Lemma createUser_eq email password name phone role w :
  let id := userIdCounter w in
  let user := User.mk id email password name (nullish phone VNull)
                      (default "client" role) true (clock w (ticks w)) in
  createUser email password name phone role w =
    (Ok user, set_users (<[id := user]> (users w)) (id + 1) (tick w)).
Proof. reflexivity. Qed.

Lemma createUser_users_fresh email password name phone role w :
  users_fresh w → users_fresh (createUser email password name phone role w).2.
Proof.
  intros Hfresh k. rewrite createUser_eq. cbn. rewrite lookup_insert.
  case_decide as Hk; [lia|]. intros Hsome%Hfresh. lia.
Qed.

Lemma users_fresh_counter w : users_fresh w → users w !! userIdCounter w = None.
Proof.
  intros Hfresh. apply eq_None_not_Some. intros Hsome%Hfresh. lia.
Qed.

Lemma initializeCategories_returns w : (initializeCategories w).1 = Ok tt.
Proof.
  unfold initializeCategories, try_catch. by destruct (bind _ _ w) as [[[]|e] w'].
Qed.

(** The users and the counter that the constructor leaves. *)
Lemma FirestoreStorage_new_eq hashed w :
  let r := FirestoreStorage_new hashed w in
  r.1 = Ok tt ∧
  users r.2 = {[1 := User.mk 1 "test@test.com" hashed "Test User" VNull "client" true
                             (clock w (ticks w))]} ∧
  userIdCounter r.2 = 2.
Proof.
  cbv zeta. unfold FirestoreStorage_new, initializeDefaultData, bind, newDate.
  cbn [fst snd].
  match goal with |- context [initializeCategories ?w0] =>
    pose proof (initializeCategories_users w0) as [Hu Hc];
    pose proof (initializeCategories_returns w0) as Hret;
    destruct (initializeCategories w0) as [o w'] end.
  cbn [fst snd] in *. subst o. rewrite Hu, Hc. done.
Qed.

Lemma FirestoreStorage_new_invariants hashed w :
  let w' := (FirestoreStorage_new hashed w).2 in
  users_wf w' ∧ users_fresh w' ∧ emails_unique w'.
Proof.
  cbv zeta. destruct (FirestoreStorage_new_eq hashed w) as (_ & Hu & Hc).
  unfold users_wf, users_fresh, emails_unique. rewrite Hu, Hc. split_and!.
  - lia.
  - intros k u [<- <-]%lookup_singleton_Some. by cbn.
  - intros k [u [<- _]%lookup_singleton_Some]. lia.
  - intros i j u v [<- _]%lookup_singleton_Some [<- _]%lookup_singleton_Some _. done.
Qed.

(** X1. The construction, with the initialization that it starts run to its
    end, never throws, whatever the backend does, and leaves
    one user, the test client filed under 1, and the counter at 2: the
    identifiers in use are positive, each user is filed under its own, they
    lie below the counter, and no email is used twice. *)
Theorem FirestoreStorage_new_users (hashed : string) (w : World) :
  let r := FirestoreStorage_new hashed w in
  r.1 = Ok tt ∧
  (∃ u, users r.2 = {[1 := u]} ∧ User.id u = 1 ∧ User.email u = "test@test.com" ∧
        User.password u = hashed ∧ User.role u = "client" ∧ User.active u = true) ∧
  userIdCounter r.2 = 2 ∧
  users_wf r.2 ∧ users_fresh r.2 ∧ emails_unique r.2.
Proof.
  cbv zeta. destruct (FirestoreStorage_new_eq hashed w) as (Hret & Hu & Hc).
  split; [exact Hret|]. split; [by eexists|]. split; [exact Hc|].
  apply FirestoreStorage_new_invariants.
Qed.

(** X2. [createUser] takes the identifier from the counter and moves the
    counter on.  When the identifiers in use lie below the counter, the new
    identifier was not in use, the user is found under it afterwards, every
    other user is as before, and the identifiers still lie below the counter.
    The role is [client] unless the input gives one, an absent phone is
    [null], and the document store is not involved. *)
Theorem createUser_fresh_id (email password name : string) (phone : value)
    (role : option string) (w : World) :
  users_fresh w →
  ∃ u w', createUser email password name phone role w = (Ok u, w') ∧
    User.id u = userIdCounter w ∧
    users w !! User.id u = None ∧
    (getUserById (User.id u) w').1 = Ok (Some u) ∧
    (∀ k, k ≠ User.id u → users w' !! k = users w !! k) ∧
    userIdCounter w' = userIdCounter w + 1 ∧
    users_fresh w' ∧
    User.role u = default "client" role ∧
    (phone = VUndef → User.phone u = VNull) ∧
    db w' = db w ∧ calls w' = calls w.
Proof.
  intros Hfresh. eexists _, _. split; [apply createUser_eq|].
  cbn [User.id User.role User.phone]. split_and!; try done.
  - by apply users_fresh_counter.
  - unfold getUserById. cbn. by rewrite lookup_insert_eq.
  - intros k Hk. cbn. by rewrite lookup_insert_ne.
  - apply (createUser_users_fresh email password name phone role w Hfresh).
  - by intros ->.
Qed.

Lemma users_fresh_empty_world : users_fresh empty_world.
Proof.
  intros k [u Hk]. cbn in Hk |- *.
  repeat (rewrite lookup_insert in Hk; case_decide; [lia|]).
  by rewrite lookup_empty in Hk.
Qed.

Lemma createUser_fresh_id_witness :
  ∃ u w', createUser "lina@test.com" "hash" "Lina" VUndef None empty_world = (Ok u, w') ∧
          User.id u = 9 ∧ users empty_world !! 9 = None ∧
          (getUserById 9 w').1 = Ok (Some u) ∧ User.role u = "client".
Proof.
  destruct (createUser_fresh_id "lina@test.com" "hash" "Lina" VUndef None empty_world
              users_fresh_empty_world)
    as (u & w' & Hrun & Hid & Hnone & Hget & _ & _ & _ & Hrole & _).
  exists u, w'. rewrite Hid in Hnone, Hget.
  exact (conj Hrun (conj Hid (conj Hnone (conj Hget Hrole)))).
Defined.

(** X3. [getUserByEmail] leaves the state as it is and returns a user with
    the given email, the one with the least identifier when there are
    several; it returns [undefined] exactly when no user has that email. *)
Theorem getUserByEmail_first_match (email : string) (w : World) :
  let r := getUserByEmail email w in
  r.2 = w ∧
  ((∃ u k, r.1 = Ok (Some u) ∧ users w !! k = Some u ∧ User.email u = email ∧
           ∀ j v, users w !! j = Some v → User.email v = email → k ≤ j) ∨
   (r.1 = Ok None ∧ ∀ k u, users w !! k = Some u → User.email u ≠ email)).
Proof.
  cbv zeta. destruct (getUserByEmail_eq email w) as (found & -> & Hfound).
  split; [done|]. destruct found as [u|].
  - left. destruct Hfound as (Hu & k & Hk & Hleast). by exists u, k.
  - by right.
Qed.

(** What the handler of [create-staff] does: it refuses, or it creates the
    user that the body describes, whose email nobody has. *)
Lemma create_staff_eq req_body hashedPassword w :
  (∃ msg, create_staff req_body hashedPassword w = (Ok (refuse 400 msg), w)) ∨
  (∃ email name role,
     StaffRequest.email req_body = Some email ∧
     StaffRequest.name req_body = Some name ∧
     StaffRequest.role req_body = VStr role ∧
     (role = "owner" ∨ role = "livreur") ∧
     (∀ k u, users w !! k = Some u → User.email u ≠ email) ∧
     create_staff req_body hashedPassword w =
       ((λ r, (Ok (respond 201 (withoutPassword r.1)), r.2))
          (User.mk (userIdCounter w) email hashedPassword name
                   (nullish (js_or (StaffRequest.phone req_body) VNull) VNull) role true
                   (clock w (ticks w)),
           set_users (<[userIdCounter w :=
                          User.mk (userIdCounter w) email hashedPassword name
                            (nullish (js_or (StaffRequest.phone req_body) VNull) VNull)
                            role true (clock w (ticks w))]> (users w))
                     (userIdCounter w + 1) (tick w)))).
Proof.
  unfold create_staff, try_catch.
  destruct (missing (StaffRequest.email req_body) || _ || _ || _) eqn:Hmissing;
    [left; by eexists|].
  repeat apply orb_false_elim in Hmissing as [Hmissing ?].
  destruct (StaffRequest.role req_body) as [| | | | | | |role| | | |] eqn:Hrole;
    try (left; by eexists).
  destruct (String.eqb role "owner" || String.eqb role "livreur") eqn:Hstaff;
    cbn [negb]; [|left; by eexists].
  unfold bind, ret.
  destruct (getUserByEmail_eq (default "" (StaffRequest.email req_body)) w)
    as (found & -> & Hfound).
  destruct found as [existingUser|]; [left; by eexists|].
  right. destruct (StaffRequest.email req_body) as [email|]; [|done].
  destruct (StaffRequest.name req_body) as [name|]; [|done].
  exists email, name, role. split_and!; try done.
  apply orb_true_iff in Hstaff as [->%String.eqb_eq | ->%String.eqb_eq]; auto.
Qed.

(** X4. The handler of [POST /api/users/create-staff], given the hash of
    the password, does not call the store and answers 400 or 201, never 500.
    On a user map whose identifiers lie below
    the counter and whose emails are distinct, it keeps both properties and
    every existing user; it refuses with 400 and leaves the users as they
    were, or it answers 201 with the new user, filed under the former value
    of the counter, whose role is [owner] or [livreur], whose email is the one
    of the body, which no user had, and who is found under that email
    afterwards.  When a user already has the email of the body the answer is
    400. *)
Theorem create_staff_registers_once (req_body : StaffRequest.t) (hashedPassword : string)
    (w : World) :
  users_fresh w → emails_unique w →
  let r := create_staff req_body hashedPassword w in
  db r.2 = db w ∧ calls r.2 = calls w ∧
  users_fresh r.2 ∧ emails_unique r.2 ∧
  (∀ k u, users w !! k = Some u → users r.2 !! k = Some u) ∧
  ((∃ msg, r.1 = Ok (refuse 400 msg) ∧ users r.2 = users w) ∨
   (∃ u, r.1 = Ok (respond 201 (withoutPassword u)) ∧
         User.id u = userIdCounter w ∧
         users r.2 = <[User.id u := u]> (users w) ∧
         StaffRequest.email req_body = Some (User.email u) ∧
         User.password u = hashedPassword ∧
         (User.role u = "owner" ∨ User.role u = "livreur") ∧
         StaffRequest.role req_body = VStr (User.role u) ∧
         (∀ k v, users w !! k = Some v → User.email v ≠ User.email u) ∧
         (getUserByEmail (User.email u) r.2).1 = Ok (Some u))) ∧
  (∀ k v, users w !! k = Some v → StaffRequest.email req_body = Some (User.email v) →
          ∃ msg, r.1 = Ok (refuse 400 msg)).
Proof.
  intros Hfresh Hunique. cbv zeta.
  destruct (create_staff_eq req_body hashedPassword w)
    as [(msg & ->)|(email & name & role & Hemail & Hname & Hrole & Hstaff & Hnew & ->)].
  { cbn [fst snd]. split_and!; try done.
    - left. by exists msg.
    - intros. by exists msg. }
  cbn [fst snd]. set (u := User.mk _ _ _ _ _ _ _ _).
  assert (users w !! userIdCounter w = None) as Hnone by by apply users_fresh_counter.
  assert (emails_unique (set_users (<[userIdCounter w := u]> (users w))
                                   (userIdCounter w + 1) (tick w))) as Hunique'.
  { intros i j x y. cbn. rewrite !lookup_insert.
    case_decide as Hi; case_decide as Hj.
    - congruence.
    - intros [= <-] Hy Heq. destruct (Hnew j y Hy). by rewrite <- Heq.
    - intros Hx [= <-] Heq. by destruct (Hnew i x Hx).
    - apply Hunique. }
  split_and!; try done.
  - intros k [x Hk]. cbn in Hk |- *. rewrite lookup_insert in Hk.
    case_decide; [lia|]. assert (k < userIdCounter w) by (apply Hfresh; by eexists). lia.
  - intros k x Hk. cbn. rewrite lookup_insert_ne; [done|]. intros <-. congruence.
  - right. exists u. split_and!; try done.
    destruct (getUserByEmail_eq (User.email u)
                (set_users (<[userIdCounter w := u]> (users w)) (userIdCounter w + 1) (tick w)))
      as (found & -> & Hfound).
    cbn [fst]. assert (users (set_users (<[userIdCounter w := u]> (users w))
                              (userIdCounter w + 1) (tick w)) !! userIdCounter w = Some u)
      as Hu by (cbn; by rewrite lookup_insert_eq).
    destruct found as [x|].
    + destruct Hfound as (Hx & k & Hk & _).
      assert (k = userIdCounter w) as -> by by apply (Hunique' _ _ x u).
      congruence.
    + by destruct (Hfound _ _ Hu).
  - intros k v Hk Hv. destruct (Hnew k v Hk). congruence.
Qed.

Lemma create_staff_registers_once_witness :
  let req_body := StaffRequest.mk (Some "sami@test.com") (Some "secret") (Some "Sami")
                                  VUndef (VStr "livreur") in
  let r := create_staff req_body "hash2" opened_world in
  (∃ u, r.1 = Ok (respond 201 (withoutPassword u)) ∧
        User.id u = 2 ∧ User.role u = "livreur") ∧
  ∃ msg, (create_staff req_body "hash2" r.2).1 = Ok (refuse 400 msg).
Proof.
  cbv zeta.
  set (req_body := StaffRequest.mk (Some "sami@test.com") (Some "secret") (Some "Sami")
                                   VUndef (VStr "livreur")).
  destruct (FirestoreStorage_new_invariants "hash" empty_world) as (_ & Hfresh & Hunique).
  destruct (FirestoreStorage_new_eq "hash" empty_world) as (_ & _ & Hcounter).
  fold opened_world in Hfresh, Hunique, Hcounter.
  destruct (create_staff_registers_once req_body "hash2" opened_world Hfresh Hunique)
    as (_ & _ & Hfresh1 & Hunique1 & _ & [(msg & H400 & _)|Hcreated] & _).
  { exfalso. revert H400.
    assert (∃ a, (create_staff req_body "hash2" opened_world).1 = Ok (respond 201 a))
      as (a & ->) by (eexists; vm_compute; reflexivity).
    discriminate. }
  destruct Hcreated as (u & H201 & Hid & Husers & Hemail & _ & Hstaff & Hrole & _).
  split.
  - exists u. split; [exact H201|]. split; [by rewrite Hid|].
    injection Hrole as <-. reflexivity.
  - destruct (create_staff_registers_once req_body "hash2"
                (create_staff req_body "hash2" opened_world).2 Hfresh1 Hunique1)
      as (_ & _ & _ & _ & _ & _ & Hdup).
    apply (Hdup (User.id u) u); [|exact Hemail].
    rewrite Husers. apply lookup_insert_eq.
Defined.

(** ** Created records: what is read back, and what a failure leaves *)

Lemma stored_nullish x y : stored x = x → stored y = y → stored (nullish x y) = nullish x y.
Proof. by destruct x. Qed.

Lemma stored_number_to_string x :
  stored x = x → stored (if is_number x then number_to_string x else x)
                 = if is_number x then number_to_string x else x.
Proof. by destruct x. Qed.

Lemma js_or_null_or_truthy v : null_or_truthy v → js_or v VNull = v.
Proof. unfold js_or. by intros [-> | ->]. Qed.

Lemma Timestamp_round_trip now : to_date (Timestamp_fromDate now) = DateMs now.
Proof. cbn. unfold Timestamp_toDate. by rewrite Z.div_mul. Qed.

(** Reads the field [k] of an object written as a chain of insertions. *)
Ltac read_field :=
  unfold get; rewrite ?lookup_fmap;
  repeat (rewrite lookup_insert_ne by done);
  rewrite lookup_insert_eq; cbn [fmap option_fmap option_map default].

Lemma menuItem_of_to_obj (m : MenuItem.t) :
  menuItem_of_doc (MenuItem.id m, MenuItem.to_obj m) = menuItem_as_read m.
Proof.
  unfold menuItem_of_doc, menuItem_as_read, MenuItem.to_obj. cbn [fst snd].
  f_equal; try (f_equal; []); by read_field.
Qed.

Lemma new_menuItem_stored id insertItem :
  dateless insertItem →
  stored <$> MenuItem.to_obj (new_menuItem id insertItem)
  = MenuItem.to_obj (new_menuItem id insertItem).
Proof.
  intros Hd. unfold MenuItem.to_obj. rewrite !fmap_insert, fmap_empty.
  cbn [new_menuItem MenuItem.id MenuItem.name MenuItem.description MenuItem.price
       MenuItem.deliveryFee MenuItem.categoryId MenuItem.imageUrl MenuItem.available
       MenuItem.popular].
  rewrite !Hd, !stored_nullish, !stored_number_to_string by (done || apply Hd).
  pose proof (Hd "deliveryFee") as Hfee.
  destruct (is_number (get insertItem "deliveryFee")) eqn:Hnumber.
  - by destruct (get insertItem "deliveryFee").
  - by rewrite stored_nullish.
Qed.

(** A document that the query selects is in its result. *)
Lemma run_query_elem q w id d :
  document w (q_col q) id = Some d →
  matches_where (q_where q) (id, d) = true →
  has_order_field (q_orderBy q) (id, d) = true →
  (id, d) ∈ run_query q w.
Proof. intros Hdoc Hw Ho. apply elem_of_run_query. by rewrite elem_of_collection. Qed.

Lemma elem_of_map_1 {A B} (f : A → B) (l : list A) x : x ∈ l → f x ∈ map f l.
Proof. rewrite !list_elem_of_In. apply in_map. Qed.

(** X5. A menu item that [createMenuItem] has returned is read back by
    [getMenuItem] under its identifier and is among the items of
    [getMenuItems], when the read is served and the input holds no [Date]:
    field by field the record read is the record created, except that a falsy
    [deliveryFee] reads as "0", a falsy [imageUrl] as [null], a falsy
    [popular] as [false], and [available] as a boolean.  The two records are
    equal when the created one has a non-empty [deliveryFee], an [imageUrl]
    that is [null] or non-empty, and booleans for the two flags.  A
    [deliveryFee] given as the empty string is created as such and read back
    as "0". *)
Theorem created_menuItem_read_back (insertItem : obj) (w w1 : World) (item : MenuItem.t) :
  createMenuItem insertItem w = (Ok item, w1) →
  next_fault w1 = false →
  dateless insertItem →
  (getMenuItem (MenuItem.id item) w1).1 = Ok (Some (menuItem_as_read item)) ∧
  (∃ items, (getMenuItems w1).1 = Ok items ∧ menuItem_as_read item ∈ items) ∧
  (truthy (MenuItem.deliveryFee item) = true →
   null_or_truthy (MenuItem.imageUrl item) →
   (∃ b, MenuItem.available item = VBool b) →
   (MenuItem.popular item = VBool false ∨ truthy (MenuItem.popular item) = true) →
   menuItem_as_read item = item) ∧
  (get insertItem "deliveryFee" = VStr "" →
   MenuItem.deliveryFee item = VStr "" ∧
   MenuItem.deliveryFee (menuItem_as_read item) = VStr "0").
Proof.
  rewrite createMenuItem_eq. cbv zeta. intros Hrun Hserved Hdateless.
  do 2 (case_match; [done|]). injection Hrun as <- <-.
  set (id := uuids w (drawn w)) in *. set (item := new_menuItem id insertItem) in *.
  assert (document (write_doc "menuItems" id (Some (stored <$> MenuItem.to_obj item))
                      (served (CSetDoc "menuItems" id) (draw w))) "menuItems" id
          = Some (MenuItem.to_obj item)) as Hdoc.
  { rewrite document_write_doc, decide_True by done.
    unfold item. by rewrite new_menuItem_stored. }
  split_and!.
  - rewrite getMenuItem_eq, Hserved. cbn [fst]. change (MenuItem.id item) with id.
    rewrite Hdoc. cbn [fmap option_fmap option_map].
    by rewrite <- (menuItem_of_to_obj item).
  - rewrite getMenuItems_eq, Hserved. eexists. split; [reflexivity|].
    rewrite <- (menuItem_of_to_obj item). apply elem_of_map_1.
    by apply run_query_elem.
  - intros Hfee Himage [b Havailable] Hpopular.
    unfold menuItem_as_read. rewrite js_or_null_or_truthy by done. rewrite Havailable.
    assert (js_or (MenuItem.deliveryFee item) (VStr "0") = MenuItem.deliveryFee item) as ->
      by (unfold js_or; by rewrite Hfee).
    assert (js_or (MenuItem.popular item) (VBool false) = MenuItem.popular item) as ->
      by (unfold js_or; by destruct Hpopular as [-> | ->]).
    assert (VBool (not_false (VBool b)) = MenuItem.available item) as ->
      by (rewrite Havailable; by destruct b).
    by destruct item.
  - intros Hfee. clear Hdoc. unfold item.
    cbn [new_menuItem menuItem_as_read MenuItem.deliveryFee].
    rewrite Hfee. split; reflexivity.
Qed.

Lemma dateless_sample_menuItem : dateless sample_menuItem.
Proof.
  intros k. unfold get, sample_menuItem.
  repeat (rewrite lookup_insert; case_decide; [done|]). by rewrite lookup_empty.
Qed.

Lemma created_menuItem_read_back_witness :
  let item := new_menuItem "id-0" sample_menuItem in
  let w1 := (createMenuItem sample_menuItem empty_world).2 in
  (getMenuItem "id-0" w1).1 = Ok (Some item) ∧
  ∃ items, (getMenuItems w1).1 = Ok items ∧ item ∈ items.
Proof.
  cbv zeta.
  assert (createMenuItem sample_menuItem empty_world
          = (Ok (new_menuItem "id-0" sample_menuItem),
             (createMenuItem sample_menuItem empty_world).2)) as Hrun.
  { apply run_pair. vm_compute. reflexivity. }
  destruct (created_menuItem_read_back sample_menuItem empty_world _ _ Hrun)
    as (Hread & Hlist & Hsame & _);
    [vm_compute; reflexivity | apply dateless_sample_menuItem |].
  assert (menuItem_as_read (new_menuItem "id-0" sample_menuItem)
          = new_menuItem "id-0" sample_menuItem) as Heq.
  { apply Hsame.
    - vm_compute. reflexivity.
    - left. vm_compute. reflexivity.
    - exists true. vm_compute. reflexivity.
    - left. vm_compute. reflexivity. }
  rewrite Heq in Hread, Hlist. exact (conj Hread Hlist).
Defined.

Lemma new_order_stored id insertOrder now :
  dateless insertOrder →
  stored <$> order_firestoreData (new_order id insertOrder now) now
  = order_firestoreData (new_order id insertOrder now) now.
Proof.
  intros Hd. unfold order_firestoreData. rewrite !fmap_insert, fmap_empty.
  cbn [new_order Order.id Order.userId Order.customerName Order.customerEmail
       Order.customerPhone Order.items Order.totalAmount Order.orderType
       Order.deliveryAddress Order.notes Order.status Order.livreurId].
  by rewrite !Hd, !stored_nullish by (done || apply Hd).
Qed.

Lemma order_of_firestoreData id insertOrder now :
  order_of_doc (id, order_firestoreData (new_order id insertOrder now) now)
  = order_as_read (new_order id insertOrder now).
Proof.
  unfold order_of_doc, order_as_read, order_firestoreData. cbn [fst snd].
  f_equal; try (f_equal; []); read_field; try done; apply Timestamp_round_trip.
Qed.

(** X6. An order that [createOrder] has returned is read back by [getOrder]
    under its identifier and is among the orders of [getOrders], when the
    read is served and the input holds no [Date]: the record read is the
    record created, with the same status and the same two instants, except
    that a falsy [userId], [deliveryAddress], [notes] or [livreurId] reads as
    [null].  The two records are equal when these four fields of the created
    order are [null] or truthy.  A note given as the empty string is created
    as such and read back as [null]. *)
Theorem created_order_read_back (insertOrder : obj) (w w1 : World) (o : Order.t) :
  createOrder insertOrder w = (Ok o, w1) →
  next_fault w1 = false →
  dateless insertOrder →
  (getOrder (Order.id o) w1).1 = Ok (Some (order_as_read o)) ∧
  (∃ os, (getOrders w1).1 = Ok os ∧ order_as_read o ∈ os) ∧
  (null_or_truthy (Order.userId o) → null_or_truthy (Order.deliveryAddress o) →
   null_or_truthy (Order.notes o) → null_or_truthy (Order.livreurId o) →
   order_as_read o = o) ∧
  (get insertOrder "notes" = VStr "" →
   Order.notes o = VStr "" ∧ Order.notes (order_as_read o) = VNull).
Proof.
  rewrite createOrder_eq. cbv zeta. intros Hrun Hserved Hdateless.
  do 2 (case_match; [done|]). injection Hrun as <- <-.
  set (id := uuids w (drawn w)) in *. set (now := clock w (ticks w)) in *.
  set (o := new_order id insertOrder now) in *.
  assert (document (write_doc "orders" id (Some (stored <$> order_firestoreData o now))
                      (served (CSetDoc "orders" id) (tick (draw w)))) "orders" id
          = Some (order_firestoreData o now)) as Hdoc.
  { rewrite document_write_doc, decide_True by done.
    unfold o. by rewrite new_order_stored. }
  split_and!.
  - rewrite getOrder_eq, Hserved. cbn [fst]. change (Order.id o) with id.
    rewrite Hdoc. cbn [fmap option_fmap option_map].
    unfold o. by rewrite <- order_of_firestoreData.
  - rewrite getOrders_eq, Hserved. eexists. split; [reflexivity|].
    unfold o. rewrite <- order_of_firestoreData. apply elem_of_map_1.
    apply run_query_elem; [exact Hdoc|done|].
    cbn. apply bool_decide_eq_true. unfold order_firestoreData.
    rewrite lookup_insert_ne, lookup_insert_eq by done. by eexists.
  - intros Hu Ha Hn Hl. unfold order_as_read.
    rewrite !js_or_null_or_truthy by done. by destruct o.
  - intros Hnotes. clear Hdoc. unfold o. cbn [new_order order_as_read Order.notes].
    rewrite Hnotes. split; reflexivity.
Qed.

Lemma dateless_sample_order : dateless sample_order.
Proof.
  intros k. unfold get, sample_order.
  repeat (rewrite lookup_insert; case_decide; [done|]). by rewrite lookup_empty.
Qed.

Lemma created_order_read_back_witness :
  let o := new_order "id-0" sample_order 1700000000000 in
  let w1 := (createOrder sample_order empty_world).2 in
  (getOrder "id-0" w1).1 = Ok (Some o) ∧
  ∃ os, (getOrders w1).1 = Ok os ∧ o ∈ os.
Proof.
  cbv zeta.
  assert (createOrder sample_order empty_world
          = (Ok (new_order "id-0" sample_order 1700000000000),
             (createOrder sample_order empty_world).2)) as Hrun.
  { apply run_pair. vm_compute. reflexivity. }
  destruct (created_order_read_back sample_order empty_world _ _ Hrun)
    as (Hread & Hlist & Hsame & _);
    [vm_compute; reflexivity | apply dateless_sample_order |].
  assert (order_as_read (new_order "id-0" sample_order 1700000000000)
          = new_order "id-0" sample_order 1700000000000) as Heq
    by (apply Hsame; left; vm_compute; reflexivity).
  rewrite Heq in Hread, Hlist. exact (conj Hread Hlist).
Defined.

Lemma new_reservation_stored id insertReservation now :
  dateless insertReservation →
  stored <$> reservation_firestoreData (new_reservation id insertReservation now) now
  = reservation_firestoreData (new_reservation id insertReservation now) now.
Proof.
  intros Hd. unfold reservation_firestoreData. rewrite !fmap_insert, fmap_empty.
  cbn [new_reservation Reservation.id Reservation.name Reservation.email
       Reservation.phone Reservation.date Reservation.time Reservation.partySize
       Reservation.specialRequests Reservation.status].
  by rewrite !Hd, !stored_nullish by (done || apply Hd).
Qed.

Lemma reservation_of_firestoreData id insertReservation now :
  reservation_of_doc
    (id, reservation_firestoreData (new_reservation id insertReservation now) now)
  = reservation_as_read (new_reservation id insertReservation now).
Proof.
  unfold reservation_of_doc, reservation_as_read, reservation_firestoreData.
  cbn [fst snd].
  f_equal; try (f_equal; []); read_field; try done; apply Timestamp_round_trip.
Qed.

(** X7. A reservation that [createReservation] has returned has the status
    [pending], whatever status the input carries, and the reading of the
    clock as its instant.  It is read back by [getReservations], when the
    read is served and the input holds no [Date], as the record created,
    except that falsy special requests read as [null]; the record read is the
    record created when the special requests are [null] or truthy. *)
Theorem created_reservation_read_back (insertReservation : obj) (w w1 : World)
    (r : Reservation.t) :
  createReservation insertReservation w = (Ok r, w1) →
  Reservation.status r = VStr "pending" ∧
  Reservation.createdAt r = DateMs (clock w (ticks w)) ∧
  (next_fault w1 = false → dateless insertReservation →
   (∃ rs, (getReservations w1).1 = Ok rs ∧ reservation_as_read r ∈ rs) ∧
   (null_or_truthy (Reservation.specialRequests r) → reservation_as_read r = r) ∧
   (get insertReservation "specialRequests" = VStr "" →
    Reservation.specialRequests r = VStr "" ∧
    Reservation.specialRequests (reservation_as_read r) = VNull)).
Proof.
  rewrite createReservation_eq. cbv zeta. intros Hrun.
  do 2 (case_match; [done|]). injection Hrun as <- <-.
  split; [done|]. split; [done|]. intros Hserved Hdateless.
  set (id := uuids w (drawn w)) in *. set (now := clock w (ticks w)) in *.
  set (r := new_reservation id insertReservation now) in *.
  split_and!.
  - rewrite getReservations_eq, Hserved. eexists. split; [reflexivity|].
    unfold r. rewrite <- reservation_of_firestoreData. apply elem_of_map_1.
    apply run_query_elem; [|done|].
    + cbn [q_col]. rewrite document_write_doc, decide_True by done.
      unfold r. by rewrite new_reservation_stored.
    + cbn. apply bool_decide_eq_true. unfold reservation_firestoreData.
      rewrite lookup_insert_eq. by eexists.
  - intros Hs. unfold reservation_as_read.
    rewrite js_or_null_or_truthy by done. by destruct r.
  - intros Hs. unfold r.
    cbn [new_reservation reservation_as_read Reservation.specialRequests].
    rewrite Hs. split; reflexivity.
Qed.

Lemma dateless_sample_reservation : dateless sample_reservation.
Proof.
  intros k. unfold get, sample_reservation.
  repeat (rewrite lookup_insert; case_decide; [done|]). by rewrite lookup_empty.
Qed.

Lemma created_reservation_read_back_witness :
  let r := new_reservation "id-0" (<["status" := VStr "confirmed"]> sample_reservation)
                           1700000000000 in
  let w1 := (createReservation (<["status" := VStr "confirmed"]> sample_reservation)
                               empty_world).2 in
  Reservation.status r = VStr "pending" ∧
  ∃ rs, (getReservations w1).1 = Ok rs ∧ r ∈ rs.
Proof.
  cbv zeta.
  set (input := <["status" := VStr "confirmed"]> sample_reservation).
  assert (createReservation input empty_world
          = (Ok (new_reservation "id-0" input 1700000000000),
             (createReservation input empty_world).2)) as Hrun.
  { apply run_pair. vm_compute. reflexivity. }
  destruct (created_reservation_read_back input empty_world _ _ Hrun)
    as (Hstatus & _ & Hread).
  split; [exact Hstatus|].
  destruct Hread as (Hlist & Hsame & _).
  - vm_compute. reflexivity.
  - intros k. unfold get, input, sample_reservation.
    repeat (rewrite lookup_insert; case_decide; [done|]). by rewrite lookup_empty.
  - rewrite Hsame in Hlist; [exact Hlist|]. left. vm_compute. reflexivity.
Defined.

Lemma reservation_firestoreData_accepted id insertReservation now :
  defined insertReservation "name" → defined insertReservation "email" →
  defined insertReservation "phone" → defined insertReservation "date" →
  defined insertReservation "time" → defined insertReservation "partySize" →
  carries_storable insertReservation →
  refused_data (reservation_firestoreData (new_reservation id insertReservation now) now)
  = false.
Proof.
  intros ? ? ? ? ? ? Hc. unfold reservation_firestoreData.
  cbn [new_reservation Reservation.id Reservation.name Reservation.email
       Reservation.phone Reservation.date Reservation.time Reservation.partySize
       Reservation.specialRequests Reservation.status].
  repeat (apply refused_data_insert;
          [reflexivity
          |first [ reflexivity
                 | by apply carries_required
                 | apply nullish_storable; [apply Hc|reflexivity] ]|]).
  apply refused_data_empty.
Qed.

(** X8. The three creations do not catch what the store throws, unlike the
    reads: when the backend fails the call they throw, and when they throw
    the store is as before, the one call at most having been made.  With the
    required fields present in an input that carries nothing the client
    library refuses, the only failure is the backend's. *)
Theorem creations_fail_cleanly (insert : obj) (w : World) :
  fails_cleanly (createMenuItem insert) "menuItems" w ∧
  fails_cleanly (createReservation insert) "reservations" w ∧
  fails_cleanly (createOrder insert) "orders" w ∧
  (carries_storable insert →
   defined insert "name" → defined insert "description" →
   defined insert "price" → defined insert "categoryId" →
   (createMenuItem insert w).1 ≠ Throw InvalidData) ∧
  (carries_storable insert →
   defined insert "name" → defined insert "email" → defined insert "phone" →
   defined insert "date" → defined insert "time" → defined insert "partySize" →
   (createReservation insert w).1 ≠ Throw InvalidData) ∧
  (carries_storable insert →
   defined insert "customerName" → defined insert "customerEmail" →
   defined insert "customerPhone" → defined insert "items" →
   defined insert "totalAmount" → defined insert "orderType" →
   (createOrder insert w).1 ≠ Throw InvalidData).
Proof.
  unfold fails_cleanly.
  rewrite createMenuItem_eq, createReservation_eq, createOrder_eq. cbv zeta.
  split_and!.
  - intros Hf. rewrite Hf. destruct (refused_data _); by eexists.
  - intros e. destruct (refused_data _); [intros [= <-]; split; [done|by left]|].
    destruct (next_fault w) eqn:Hf; [|done]. intros [= <-]. cbn [snd].
    rewrite db_served, calls_served. split; [done|]. right. by eauto.
  - intros Hf. rewrite Hf. destruct (refused_data _); by eexists.
  - intros e. destruct (refused_data _); [intros [= <-]; split; [done|by left]|].
    destruct (next_fault w) eqn:Hf; [|done]. intros [= <-]. cbn [snd].
    rewrite db_served, calls_served. split; [done|]. right. by eauto.
  - intros Hf. rewrite Hf. destruct (refused_data _); by eexists.
  - intros e. destruct (refused_data _); [intros [= <-]; split; [done|by left]|].
    destruct (next_fault w) eqn:Hf; [|done]. intros [= <-]. cbn [snd].
    rewrite db_served, calls_served. split; [done|]. right. by eauto.
  - intros. rewrite menuItem_obj_accepted by done. by destruct (next_fault w).
  - intros. rewrite reservation_firestoreData_accepted by done. by destruct (next_fault w).
  - intros. rewrite order_firestoreData_accepted by done. by destruct (next_fault w).
Qed.

Lemma creations_fail_cleanly_witness :
  let w := set_faults [true] empty_world in
  (createOrder sample_order w).1 = Throw BackendFailure ∧
  db (createOrder sample_order w).2 = db w ∧
  (createOrder sample_order empty_world).1 ≠ Throw InvalidData.
Proof.
  cbv zeta.
  destruct (creations_fail_cleanly sample_order (set_faults [true] empty_world))
    as (_ & _ & [Hthrows Hclean] & _).
  destruct (creations_fail_cleanly sample_order empty_world)
    as (_ & _ & _ & _ & _ & Hvalid).
  destruct (Hthrows eq_refl) as [e He].
  destruct (Hclean e He) as [Hdb [[-> _]|[-> _]]].
  - exfalso. revert He. vm_compute. discriminate.
  - split; [exact He|]. split; [exact Hdb|].
    apply Hvalid; [by carries_sample|vm_compute; reflexivity..].
Defined.

(** ** Orders: the views of the owner and of a customer *)

(** The result of an ordered read of the orders, as a view. *)
Lemma ordered_orders_view cond (f : string * obj → Order.t) w :
  (∀ d, Order.id (f d) = d.1) →
  let q := mkQuery "orders" cond (Some ("createdAt", Desc)) in
  orders_view (λ d, matches_where cond ("", d)) w (map f (run_query q w)) ∧
  ∀ o, o ∈ map f (run_query q w) →
       ∃ d, document w "orders" (Order.id o) = Some d ∧
            matches_where cond ("", d) = true ∧ o = f (Order.id o, d).
Proof.
  intros Hid q.
  assert (∀ id d, (id, d) ∈ run_query q w ↔
                  document w "orders" id = Some d ∧ is_Some (d !! "createdAt") ∧
                  matches_where cond ("", d) = true) as Hq.
  { intros id d. rewrite elem_of_run_query, elem_of_collection. cbn.
    rewrite bool_decide_eq_true.
    assert (matches_where cond (id, d) = matches_where cond ("", d)) as ->
      by by destruct cond as [[]|].
    tauto. }
  split; [split|].
  - rewrite order_ids by done. apply run_query_NoDup.
  - intros id. rewrite order_ids by done. rewrite list_elem_of_fmap. split.
    + intros ([id' d] & -> & Hin). exists d. by apply Hq.
    + intros (d & Hd). exists (id, d). split; [done|]. by apply Hq.
  - intros o Ho. apply list_elem_of_In, in_map_iff in Ho as ([id d] & <- & Hin%list_elem_of_In).
    rewrite Hid. cbn [fst]. exists d. apply Hq in Hin as (Hdoc & _ & Hcond). done.
Qed.

(** X9. The owner is shown every order: when the read is served, the answer
    of [GET /api/orders] holds one order per identifier, the identifiers are
    those of all the listed orders, and each order is the mapping of its
    document. *)
Theorem owner_sees_all_orders (w : World) (session_userId : Z) (user : User.t) :
  users w !! session_userId = Some user →
  User.role user = "owner" →
  next_fault w = false →
  ∃ os, (get_orders session_userId w).1 = Ok (json (JOrders os)) ∧
        orders_view (λ _, true) w os ∧
        ∀ o, o ∈ os → ∃ d, document w "orders" (Order.id o) = Some d ∧
                           o = order_of_doc (Order.id o, d).
Proof.
  intros Huser Hrole Hserved.
  unfold get_orders, try_catch, bind, getUserById, ret. rewrite Huser, Hrole.
  cbn [String.eqb Ascii.eqb Bool.eqb]. rewrite getOrders_eq, Hserved.
  eexists. split; [reflexivity|].
  destruct (ordered_orders_view None order_of_doc w) as [Hview Hmap]; [done|].
  split; [exact Hview|]. intros o Ho. destruct (Hmap o Ho) as (d & Hdoc & _ & Heq).
  by exists d.
Qed.

Lemma owner_sees_all_orders_witness :
  ∃ os, (get_orders 3 reopened_world).1 = Ok (json (JOrders os)) ∧
        orders_view (λ _, true) reopened_world os.
Proof.
  destruct (owner_sees_all_orders reopened_world 3 (staff 3 "owner"))
    as (os & Hos & Hview & _).
  - vm_compute. reflexivity.
  - reflexivity.
  - vm_compute. reflexivity.
  - exists os. exact (conj Hos Hview).
Defined.

(** X10. An actor who is neither owner nor courier is shown the orders
    placed under the actor's own identifier and no others: when the read is
    served, the answer of [GET /api/orders] holds one order per identifier,
    the identifiers are those of the listed orders whose [userId] is the
    actor's, and every order of the answer carries that [userId]. *)
Theorem customer_sees_own_orders (w : World) (session_userId : Z) (user : User.t) :
  users w !! session_userId = Some user →
  User.role user ≠ "owner" →
  User.role user ≠ "livreur" →
  next_fault w = false →
  ∃ os, (get_orders session_userId w).1 = Ok (json (JOrders os)) ∧
        orders_view (ordered_by (User.id user)) w os ∧
        ∀ o, o ∈ os → Order.userId o = VNum (User.id user) ∧
                      ∃ d, document w "orders" (Order.id o) = Some d ∧
                           o = order_of_user_doc (Order.id o, d).
Proof.
  intros Huser Howner%String.eqb_neq Hlivreur%String.eqb_neq Hserved.
  unfold get_orders, try_catch, bind, getUserById, ret. rewrite Huser, Howner, Hlivreur.
  rewrite getOrdersByUser_eq, Hserved.
  eexists. split; [reflexivity|].
  destruct (ordered_orders_view (Some ("userId", VNum (User.id user))) order_of_user_doc w)
    as [Hview Hmap]; [done|].
  split; [exact Hview|]. intros o Ho. destruct (Hmap o Ho) as (d & Hdoc & Hcond & Heq).
  split; [|by exists d].
  rewrite Heq. cbn [order_of_user_doc Order.userId snd]. cbn in Hcond.
  destruct (get d "userId"); try done. by apply Z.eqb_eq in Hcond as ->.
Qed.

Lemma customer_sees_own_orders_witness :
  ∃ os, (get_orders 4 ordered_world).1 = Ok (json (JOrders os)) ∧
        "id-2" ∈ (Order.id <$> os) ∧ ("id-1" ∉ Order.id <$> os) ∧
        ∀ o, o ∈ os → Order.userId o = VNum 4.
Proof.
  destruct (customer_sees_own_orders ordered_world 4 (staff 4 "client"))
    as (os & Hos & [_ Hview] & Hown).
  - vm_compute. reflexivity.
  - discriminate.
  - discriminate.
  - vm_compute. reflexivity.
  - exists os. split; [exact Hos|]. split_and!.
    + apply Hview. exists (fields_of ordered_world "orders" "id-2"). split_and!.
      * apply document_fields_of, (bool_decide_unpack _). by vm_compute.
      * apply (bool_decide_unpack _). by vm_compute.
      * vm_compute. reflexivity.
    + intros (d & Hdoc & _ & Hmine)%Hview.
      assert (d = fields_of ordered_world "orders" "id-1") as ->
        by (unfold fields_of; by rewrite Hdoc).
      vm_compute in Hmine. discriminate Hmine.
    + intros o Ho. exact (proj1 (Hown o Ho)).
Defined.

Lemma next_fault_served_cons c b fs w :
  faults w = b :: fs → next_fault (served c w) = match fs with true :: _ => true | _ => false end.
Proof. intros Hf. unfold next_fault. by rewrite faults_served, Hf. Qed.

(** X11. [GET /api/orders] never throws and never answers 500.  For a
    session whose user is unknown the answer is 404 and nothing is touched;
    for a known user the answer is 200 with a list of orders, the store is as
    before and only reads have been issued.  A failing backend shows as an
    empty list: for an owner or a customer when the read fails, for a courier
    when the two reads fail. *)
Theorem get_orders_answers (w : World) (session_userId : Z) :
  let r := get_orders session_userId w in
  (users w !! session_userId = None → r = (Ok (error 404 "User not found"), w)) ∧
  (∀ user, users w !! session_userId = Some user →
     ∃ os, r.1 = Ok (json (JOrders os)) ∧
           db r.2 = db w ∧
           (∃ reads, calls r.2 = calls w ++ reads ∧
                     Forall (λ c, c = CGetDocs "orders") reads) ∧
           (User.role user ≠ "livreur" → next_fault w = true → os = []) ∧
           (∀ fs, faults w = true :: true :: fs → os = [])).
Proof.
  cbv zeta. unfold get_orders, try_catch, bind, getUserById, ret. split.
  - by intros ->.
  - intros user ->. cbn [fst snd].
    destruct (String.eqb_spec (User.role user) "owner") as [Howner|Howner].
    { rewrite getOrders_eq. cbn [fst snd]. eexists. split; [reflexivity|].
      rewrite db_served, calls_served. split_and!.
      - done.
      - exists [CGetDocs "orders"]. split; [done|]. by constructor.
      - by intros _ ->.
      - intros fs Hf. unfold next_fault. by rewrite Hf. }
    destruct (String.eqb_spec (User.role user) "livreur") as [Hlivreur|Hlivreur].
    { rewrite getPendingOrders_eq. cbn [fst snd].
      rewrite getOrdersByLivreur_eq. cbn [fst snd]. eexists. split; [reflexivity|].
      rewrite !db_served, !calls_served, <- app_assoc. split_and!.
      - done.
      - exists [CGetDocs "orders"; CGetDocs "orders"]. split; [done|].
        by repeat constructor.
      - done.
      - intros fs Hf. rewrite (next_fault_served_cons _ _ _ _ Hf).
        unfold next_fault. by rewrite Hf. }
    rewrite getOrdersByUser_eq. cbn [fst snd]. eexists. split; [reflexivity|].
    rewrite db_served, calls_served. split_and!.
    + done.
    + exists [CGetDocs "orders"]. split; [done|]. by constructor.
    + by intros _ ->.
    + intros fs Hf. unfold next_fault. by rewrite Hf.
Qed.

Lemma get_orders_answers_witness :
  (get_orders 5 reopened_world).1 = Ok (error 404 "User not found") ∧
  ∃ os, (get_orders 3 (set_faults [true] reopened_world)).1 = Ok (json (JOrders os)) ∧
        os = [].
Proof.
  destruct (get_orders_answers reopened_world 5) as [Hunknown _].
  destruct (get_orders_answers (set_faults [true] reopened_world) 3) as [_ Hknown].
  split.
  - rewrite Hunknown; [reflexivity|]. vm_compute. reflexivity.
  - destruct (Hknown (staff 3 "owner")) as (os & Hos & _ & _ & Hempty & _).
    { vm_compute. reflexivity. }
    exists os. split; [exact Hos|]. apply Hempty; [discriminate|reflexivity].
Defined.

(** ** Orders: what a status update changes, and what it answers *)

Lemma updateOrder_returns id updates w : ∃ r, (updateOrder id updates w).1 = Ok r.
Proof.
  rewrite updateOrder_eq. cbv zeta.
  destruct (next_fault w); [by eexists|].
  destruct (document w "orders" id); [|by eexists].
  destruct (refused_update _); [by eexists|].
  destruct (next_fault _ || _); [by eexists|].
  rewrite getOrder_eq. by eexists.
Qed.

Lemma is_string_lit_eq v lit : is_string_lit v lit = true → v = VStr lit.
Proof. destruct v; try done. by intros ->%String.eqb_eq. Qed.

(** The payload of the route carries [livreurId] only in the claim of a
    courier, and [status] only when the body has one. *)
Lemma order_updates_livreurId_Some user order req_body now v :
  order_updates user order req_body now !! "livreurId" = Some v →
  v = VNum (User.id user) ∧ User.role user = "livreur" ∧
  get req_body "status" = VStr "confirmed" ∧ truthy (Order.livreurId order) = false.
Proof.
  unfold order_updates. destruct (truthy (get req_body "status")); [|done].
  destruct (is_string_lit _ _ && _ && _) eqn:Hclaim.
  - rewrite lookup_insert_eq. intros [= <-].
    apply andb_true_iff in Hclaim as [[Hs Hr]%andb_true_iff Hl].
    apply is_string_lit_eq in Hs. apply String.eqb_eq in Hr.
    apply negb_true_iff in Hl. done.
  - by rewrite lookup_insert_ne, lookup_singleton_ne.
Qed.

Lemma order_updates_status user order req_body now :
  order_updates user order req_body now !! "status" =
    if truthy (get req_body "status") then Some (get req_body "status") else None.
Proof.
  unfold order_updates. destruct (truthy (get req_body "status")); [|done].
  destruct (_ && _ && _).
  - by rewrite lookup_insert_ne, lookup_insert_eq.
  - by rewrite lookup_insert_eq.
Qed.

(** What a status update leaves in the store, with the actor and the two
    readings of the clock: the one of the route and the one of
    [updateOrder]. *)
Lemma patch_order_writes_by session_userId id req_body w :
  let w' := (patch_order session_userId id req_body w).2 in
  db w' = db w ∨
  ∃ user old,
    users w !! session_userId = Some user ∧
    (User.role user = "livreur" ∨ User.role user = "owner") ∧
    document w "orders" id = Some old ∧
    db w' = <[("orders", id) :=
                (stored <$> remove_undefined
                   (<["updatedAt" := Timestamp_fromDate (clock w (S (ticks w)))]>
                      (order_updates user (order_of_doc (id, old)) req_body
                                     (clock w (ticks w))))) ∪ old]>
              (db w).
Proof.
  cbv zeta. unfold patch_order, try_catch, bind, getUserById, ret, newDate.
  destruct (users w !! session_userId) as [user|] eqn:Huser; cbn [fst snd]; [|by left].
  rewrite getOrder_eq.
  destruct (next_fault w) eqn:Hf; [left; by world_simpl|].
  destruct (document w "orders" id) as [old|] eqn:Hdoc;
    cbn [fmap option_fmap option_map]; [|left; by world_simpl].
  destruct (_ || _) eqn:Hrole; [|left; by world_simpl].
  rewrite updateOrder_route. autorewrite with world. rewrite Hdoc.
  destruct (next_fault (served _ w)); [left; by world_simpl|].
  destruct (_ && _); [left; by world_simpl|].
  destruct (next_fault (served _ (served _ w))); [left; by world_simpl|].
  rewrite getOrder_eq. cbn [fst snd]. right.
  exists user, old. split; [done|]. split.
  { apply orb_true_iff in Hrole as [?%String.eqb_eq|?%String.eqb_eq]; auto. }
  split; [done|].
  rewrite db_served. unfold write_doc. cbn [db set_db]. autorewrite with world.
  cbn [tick clock ticks].
  destruct (clock_served (CGetDoc "orders" id) w) as [-> ->]. done.
Qed.

(** X12. The courier of an order changes in one way only.  When the
    [livreurId] of the stored order differs after a call of
    [PATCH /api/orders/:id] from what it was, the actor is a courier, the
    requested status is [confirmed], the order had no courier, and the new
    [livreurId] is the actor's identifier.  An owner, whatever the request,
    assigns nobody. *)
Theorem livreurId_changes_only_by_claim (w : World) (session_userId : Z) (id : string)
    (req_body d d' : obj) :
  document w "orders" id = Some d →
  document (patch_order session_userId id req_body w).2 "orders" id = Some d' →
  d' !! "livreurId" ≠ d !! "livreurId" →
  ∃ user, users w !! session_userId = Some user ∧
          User.role user = "livreur" ∧
          get req_body "status" = VStr "confirmed" ∧
          truthy (get d "livreurId") = false ∧
          d' !! "livreurId" = Some (VNum (User.id user)).
Proof.
  intros Hdoc Hdoc' Hchanged.
  destruct (patch_order_writes_by session_userId id req_body w)
    as [Hdb|(user & old & Huser & _ & Hold & Hdb)];
    unfold document in Hdoc'; rewrite Hdb in Hdoc'.
  { unfold document in Hdoc. congruence. }
  rewrite lookup_insert_eq in Hdoc'. injection Hdoc' as <-.
  assert (old = d) as -> by congruence.
  set (updates := order_updates _ _ _ _) in *.
  destruct (updates !! "livreurId") as [v|] eqn:Hv.
  - apply order_updates_livreurId_Some in Hv as Hclaim.
    destruct Hclaim as (-> & Hrole & Hstatus & Hfree).
    exists user. split_and!; try done.
    + cbn [order_of_doc Order.livreurId snd] in Hfree. unfold js_or in Hfree.
      destruct (truthy (get d "livreurId")) eqn:Hset; [congruence|done].
    + apply (written_field_set _ _ _ (VNum (User.id user))).
      apply lookup_remove_undefined. split; [|done].
      by rewrite lookup_insert_ne.
  - destruct Hchanged. apply written_field_kept, eq_None_not_Some. intros [x Hx].
    apply lookup_remove_undefined in Hx as [Hx _].
    rewrite lookup_insert_ne in Hx by done. congruence.
Qed.

Lemma livreurId_changes_only_by_claim_witness :
  ∃ user, users stocked_world !! 7 = Some user ∧ User.role user = "livreur" ∧
          fields_of claimed_world "orders" "id-1" !! "livreurId"
          = Some (VNum (User.id user)).
Proof.
  destruct (livreurId_changes_only_by_claim stocked_world 7 "id-1"
              {["status" := VStr "confirmed"]}
              (fields_of stocked_world "orders" "id-1")
              (fields_of claimed_world "orders" "id-1"))
    as (user & Huser & Hrole & _ & _ & Hnew).
  - apply document_fields_of, (bool_decide_unpack _). by vm_compute.
  - apply (document_fields_of claimed_world), (bool_decide_unpack _). by vm_compute.
  - vm_compute. discriminate.
  - exists user. exact (conj Huser (conj Hrole Hnew)).
Defined.

(** X13. A status update keeps the order.  After any call of
    [PATCH /api/orders/:id] on a stored order the order is still stored, and
    every field other than [status], [livreurId] and [updatedAt] is what it
    was, whatever the body of the request carries.  The status is what it
    was, or the status of the body; [updatedAt] is what it was, or the
    timestamp of the reading of the clock that [updateOrder] takes.  No other
    document of the store changes. *)
Theorem patch_order_keeps_the_order (w : World) (session_userId : Z) (id : string)
    (req_body d : obj) :
  document w "orders" id = Some d →
  let r := patch_order session_userId id req_body w in
  (∃ d', document r.2 "orders" id = Some d' ∧
     (∀ k, k ≠ "status" → k ≠ "livreurId" → k ≠ "updatedAt" → d' !! k = d !! k) ∧
     (d' !! "status" = d !! "status" ∨
      (truthy (get req_body "status") = true ∧
       d' !! "status" = Some (stored (get req_body "status")))) ∧
     (d' !! "updatedAt" = d !! "updatedAt" ∨
      d' !! "updatedAt" = Some (Timestamp_fromDate (clock w (S (ticks w)))))) ∧
  (∀ col id', (col, id') ≠ ("orders", id) → document r.2 col id' = document w col id').
Proof.
  intros Hdoc. cbv zeta.
  destruct (patch_order_writes_by session_userId id req_body w)
    as [Hdb|(user & old & Huser & _ & Hold & Hdb)]; unfold document; rewrite Hdb.
  { split; [|done]. exists d. split_and!; auto. }
  assert (old = d) as -> by congruence.
  set (updates := order_updates _ _ _ _) in *. split.
  - rewrite lookup_insert_eq. eexists. split; [reflexivity|]. split_and!.
    + intros k Hs Hl Hu. apply written_field_kept, eq_None_not_Some. intros [x Hx].
      apply lookup_remove_undefined in Hx as [Hx _].
      rewrite lookup_insert_ne in Hx by done.
      unfold updates in Hx. by rewrite order_updates_keys in Hx.
    + pose proof (order_updates_status user (order_of_doc (id, d)) req_body
                    (clock w (ticks w))) as Hstatus.
      fold updates in Hstatus.
      destruct (truthy (get req_body "status")) eqn:Htruthy.
      * right. split; [done|]. apply written_field_set.
        apply lookup_remove_undefined. split; [by rewrite lookup_insert_ne|].
        by destruct (get req_body "status").
      * left. apply written_field_kept, eq_None_not_Some. intros [x Hx].
        apply lookup_remove_undefined in Hx as [Hx _].
        rewrite lookup_insert_ne in Hx by done. congruence.
    + right. apply (written_field_set _ _ _ (Timestamp_fromDate _)).
      apply lookup_remove_undefined. split; [|done]. by rewrite lookup_insert_eq.
  - intros col id' Hne. by rewrite lookup_insert_ne.
Qed.

Lemma patch_order_keeps_the_order_witness :
  let body := <["totalAmount" := VStr "0"]> {["status" := VStr "delivered"]} in
  ∃ d', document (patch_order 3 "id-1" body stocked_world).2 "orders" "id-1" = Some d' ∧
        d' !! "totalAmount" = fields_of stocked_world "orders" "id-1" !! "totalAmount" ∧
        fields_of stocked_world "orders" "id-1" !! "totalAmount" = Some (VStr "12").
Proof.
  cbv zeta.
  destruct (patch_order_keeps_the_order stocked_world 3 "id-1"
              (<["totalAmount" := VStr "0"]> {["status" := VStr "delivered"]})
              (fields_of stocked_world "orders" "id-1"))
    as [(d' & Hdoc' & Hkept & _) _].
  - apply document_fields_of, (bool_decide_unpack _). by vm_compute.
  - exists d'. split; [exact Hdoc'|]. split; [by apply Hkept|].
    vm_compute. reflexivity.
Defined.

(** A status update by a courier or an owner against a working backend,
    with a status that the client library accepts. *)
Lemma patch_order_calm session_userId id req_body w user old :
  calm w →
  users w !! session_userId = Some user →
  User.role user = "livreur" ∨ User.role user = "owner" →
  document w "orders" id = Some old →
  (truthy (get req_body "status") = true → storable (get req_body "status")) →
  let d' := (stored <$> remove_undefined
               (<["updatedAt" := Timestamp_fromDate (clock w (S (ticks w)))]>
                  (order_updates user (order_of_doc (id, old)) req_body
                                 (clock w (ticks w))))) ∪ old in
  (patch_order session_userId id req_body w).1
    = Ok (json (JOrder (Some (order_of_doc (id, d'))))) ∧
  document (patch_order session_userId id req_body w).2 "orders" id = Some d'.
Proof.
  intros Hcalm Huser Hrole Hdoc Hstatus. cbv zeta.
  unfold patch_order, try_catch, bind, getUserById, ret, newDate. rewrite Huser.
  rewrite getOrder_eq. calm_rw. rewrite Hdoc. cbn [fmap option_fmap option_map fst snd].
  assert (String.eqb (User.role user) "livreur" || String.eqb (User.role user) "owner" = true)
    as -> by (destruct Hrole as [-> | ->]; reflexivity).
  rewrite updateOrder_route. cbv zeta.
  assert (truthy (get req_body "status") && refused_value false (get req_body "status")
          = false) as ->.
  { destruct (truthy (get req_body "status")); [|done]. by apply Hstatus. }
  change (next_fault (tick ?x)) with (next_fault x). calm_rw.
  change (document (tick ?x) ?c ?i) with (document x c i).
  rewrite document_served, Hdoc.
  change (next_fault (served ?c (tick ?x))) with (next_fault (served c x)). calm_rw.
  cbn [tick clock ticks].
  destruct (clock_served (CGetDoc "orders" id) w) as [-> ->].
  match goal with |- context [write_doc _ _ (Some ?x)] => remember x as d' eqn:Hd' end.
  rewrite getOrder_eq. calm_rw.
  rewrite document_write_doc, decide_True by done.
  cbn [fmap option_fmap option_map fst snd].
  rewrite document_served, document_write_doc, decide_True by done.
  split; reflexivity.
Qed.

(** X14. [PATCH /api/orders/:id] never throws and never answers 500.  An
    unknown user is answered 404 and nothing is touched; a known user asking
    for an order that does not exist is answered 404 after the one read.  For
    a courier or an owner and a stored order, a working backend gives 200
    with the order as it is stored after the update, whose [updatedAt] is the
    reading of the clock that [updateOrder] takes, when the status of the
    body is falsy or a value that the client library accepts.  When the
    status is truthy and the library refuses it, as it does an array inside
    an array, the answer is still 200, with no order, and the store is as
    before; so it is when the backend fails after the first read. *)
Theorem patch_order_answers (w : World) (session_userId : Z) (id : string)
    (req_body : obj) :
  let r := patch_order session_userId id req_body w in
  (∃ resp, r.1 = Ok resp ∧ status_code resp ≠ 500) ∧
  (users w !! session_userId = None → r = (Ok (error 404 "User not found"), w)) ∧
  (is_Some (users w !! session_userId) → next_fault w = false →
   document w "orders" id = None →
   r.1 = Ok (error 404 "Order not found") ∧ db r.2 = db w ∧
   calls r.2 = calls w ++ [CGetDoc "orders" id]) ∧
  (∀ user old,
     users w !! session_userId = Some user →
     User.role user = "livreur" ∨ User.role user = "owner" →
     document w "orders" id = Some old →
     (calm w →
      (truthy (get req_body "status") = true → storable (get req_body "status")) →
      ∃ d', r.1 = Ok (json (JOrder (Some (order_of_doc (id, d'))))) ∧
            document r.2 "orders" id = Some d' ∧
            d' !! "updatedAt" = Some (Timestamp_fromDate (clock w (S (ticks w)))) ∧
            Order.updatedAt (order_of_doc (id, d')) = DateMs (clock w (S (ticks w)))) ∧
     (next_fault w = false →
      truthy (get req_body "status") = true → ¬ storable (get req_body "status") →
      r.1 = Ok (json (JOrder None)) ∧ db r.2 = db w) ∧
     (next_fault w = false → next_fault (served (CGetDoc "orders" id) w) = true →
      r.1 = Ok (json (JOrder None)) ∧ db r.2 = db w)).
Proof.
  cbv zeta. split_and!.
  - unfold patch_order, try_catch, bind, getUserById, ret, newDate.
    destruct (users w !! session_userId) as [user|]; cbn [fst snd];
      [|eexists; split; [reflexivity|done]].
    rewrite getOrder_eq.
    destruct (next_fault w); [eexists; split; [reflexivity|done]|].
    destruct (document w "orders" id) as [old|];
      cbn [fmap option_fmap option_map]; [|eexists; split; [reflexivity|done]].
    destruct (_ || _); [|eexists; split; [reflexivity|done]].
    match goal with |- context [updateOrder ?i ?u ?w0] =>
      destruct (updateOrder_returns i u w0) as [x Hx];
      destruct (updateOrder i u w0) as [o w'] end.
    cbn [fst] in Hx. subst o. eexists. split; [reflexivity|done].
  - unfold patch_order, try_catch, bind, getUserById, ret. by intros ->.
  - intros [user Huser] Hserved Hnone.
    unfold patch_order, try_catch, bind, getUserById, ret. rewrite Huser.
    rewrite getOrder_eq, Hserved, Hnone. cbn [fmap option_fmap option_map fst snd].
    by rewrite db_served, calls_served.
  - intros user old Huser Hrole Hdoc. split_and!.
    + intros Hcalm Hstatus.
      destruct (patch_order_calm session_userId id req_body w user old
                  Hcalm Huser Hrole Hdoc Hstatus) as [Hanswer Hstored].
      eexists. split; [exact Hanswer|]. split; [exact Hstored|].
      assert (∀ payload : obj,
                ((stored <$> remove_undefined
                    (<["updatedAt" := Timestamp_fromDate (clock w (S (ticks w)))]> payload))
                 ∪ old) !! "updatedAt"
                = Some (Timestamp_fromDate (clock w (S (ticks w))))) as Hupdated.
      { intros payload. apply (written_field_set _ _ _ (Timestamp_fromDate _)).
        apply lookup_remove_undefined. split; [|done]. by rewrite lookup_insert_eq. }
      split; [apply Hupdated|].
      cbn [order_of_doc Order.updatedAt snd]. unfold get. rewrite Hupdated.
      apply Timestamp_round_trip.
    + intros Hserved Htruthy Hrefused. apply not_false_iff_true in Hrefused.
      unfold patch_order, try_catch, bind, getUserById, ret, newDate. rewrite Huser.
      rewrite getOrder_eq, Hserved, Hdoc. cbn [fmap option_fmap option_map fst snd].
      assert (String.eqb (User.role user) "livreur" || String.eqb (User.role user) "owner"
              = true) as -> by (destruct Hrole as [-> | ->]; reflexivity).
      rewrite updateOrder_route. cbv zeta. rewrite Htruthy, Hrefused. cbn [andb].
      change (next_fault (tick ?x)) with (next_fault x).
      change (document (tick ?x) ?c ?i) with (document x c i).
      rewrite document_served, Hdoc.
      destruct (next_fault (served _ w)); cbn [fst snd];
        by rewrite ?db_tick, db_served, db_tick, db_served.
    + intros Hserved Hfails.
      unfold patch_order, try_catch, bind, getUserById, ret, newDate. rewrite Huser.
      rewrite getOrder_eq, Hserved, Hdoc. cbn [fmap option_fmap option_map fst snd].
      assert (String.eqb (User.role user) "livreur" || String.eqb (User.role user) "owner"
              = true) as -> by (destruct Hrole as [-> | ->]; reflexivity).
      rewrite updateOrder_eq. cbv zeta.
      change (next_fault (tick ?x)) with (next_fault x). rewrite Hfails.
      cbn [fst snd]. by rewrite db_served, db_tick, db_served.
Qed.

Lemma patch_order_answers_witness :
  (patch_order 5 "id-1" {["status" := VStr "delivered"]} stocked_world).1
    = Ok (error 404 "User not found") ∧
  (patch_order 3 "id-9" {["status" := VStr "delivered"]} stocked_world).1
    = Ok (error 404 "Order not found") ∧
  (∃ d', (patch_order 3 "id-1" {["status" := VStr "delivered"]} stocked_world).1
           = Ok (json (JOrder (Some (order_of_doc ("id-1", d'))))) ∧
         Order.updatedAt (order_of_doc ("id-1", d')) = DateMs 1700000000002) ∧
  (patch_order 3 "id-1" {["status" := VArr [VArr []]]} stocked_world).1
    = Ok (json (JOrder None)) ∧
  (patch_order 3 "id-1" {["status" := VStr "delivered"]}
               (set_faults [false; true] stocked_world)).1
    = Ok (json (JOrder None)).
Proof.
  destruct (patch_order_answers stocked_world 5 "id-1" {["status" := VStr "delivered"]})
    as (_ & Hunknown & _).
  destruct (patch_order_answers stocked_world 3 "id-9" {["status" := VStr "delivered"]})
    as (_ & _ & Hmissing & _).
  destruct (patch_order_answers stocked_world 3 "id-1" {["status" := VStr "delivered"]})
    as (_ & _ & _ & Hknown).
  destruct (patch_order_answers stocked_world 3 "id-1" {["status" := VArr [VArr []]]})
    as (_ & _ & _ & Hrefused).
  destruct (patch_order_answers (set_faults [false; true] stocked_world) 3 "id-1"
              {["status" := VStr "delivered"]}) as (_ & _ & _ & Hfailing).
  split_and!.
  - rewrite Hunknown; [reflexivity|]. vm_compute. reflexivity.
  - apply Hmissing.
    + apply (bool_decide_unpack _). by vm_compute.
    + vm_compute. reflexivity.
    + vm_compute. reflexivity.
  - destruct (Hknown (staff 3 "owner") (fields_of stocked_world "orders" "id-1"))
      as [Hcalm _].
    + vm_compute. reflexivity.
    + by right.
    + apply document_fields_of, (bool_decide_unpack _). by vm_compute.
    + destruct Hcalm as (d' & Hanswer & _ & _ & Hupdated).
      { vm_compute. constructor. }
      { reflexivity. }
      exists d'. split; [exact Hanswer|]. rewrite Hupdated. vm_compute. reflexivity.
  - destruct (Hrefused (staff 3 "owner") (fields_of stocked_world "orders" "id-1"))
      as (_ & Hrefuses & _).
    + vm_compute. reflexivity.
    + by right.
    + apply document_fields_of, (bool_decide_unpack _). by vm_compute.
    + apply Hrefuses; [vm_compute; reflexivity|reflexivity|discriminate].
  - destruct (Hfailing (staff 3 "owner")
                (fields_of (set_faults [false; true] stocked_world) "orders" "id-1"))
      as (_ & _ & Hfails).
    + vm_compute. reflexivity.
    + by right.
    + apply (document_fields_of (set_faults [false; true] stocked_world)),
        (bool_decide_unpack _). by vm_compute.
    + apply Hfails; vm_compute; reflexivity.
Defined.

(** ** The public reads *)

(** X15. The four public reads never answer 500 and never throw: the three
    lists are answered with 200, with the empty list when the backend fails,
    and the read of one menu item is answered with the item, or with 404 when
    the item does not exist or the backend fails. *)
Theorem public_reads_never_fail (w : World) (id : string) :
  (∃ cs, (get_categories w).1 = Ok (respond 200 cs) ∧ (next_fault w = true → cs = [])) ∧
  (∃ items, (get_menu_items w).1 = Ok (respond 200 items) ∧
            (next_fault w = true → items = [])) ∧
  (∃ rs, (get_reservations w).1 = Ok (respond 200 rs) ∧ (next_fault w = true → rs = [])) ∧
  (get_menu_item id w).1 =
    Ok (if next_fault w then refuse 404 "Menu item not found"
        else match document w "menuItems" id with
             | Some data => respond 200 (menuItem_of_doc (id, data))
             | None => refuse 404 "Menu item not found"
             end).
Proof.
  unfold get_categories, get_menu_items, get_reservations, get_menu_item,
    try_catch, bind, ret.
  rewrite getCategories_eq, getMenuItems_eq, getReservations_eq, getMenuItem_eq.
  cbn [fst snd]. split_and!.
  - eexists. split; [reflexivity|]. by intros ->.
  - eexists. split; [reflexivity|]. by intros ->.
  - eexists. split; [reflexivity|]. by intros ->.
  - destruct (next_fault w); [done|]. by destruct (document w "menuItems" id).
Qed.

Lemma public_reads_never_fail_witness :
  (get_menu_items (set_faults [true] stocked_world)).1 = Ok (respond 200 []) ∧
  is_Some (document (set_faults [true] stocked_world) "menuItems" "id-0") ∧
  (get_menu_item "id-0" (set_faults [true] stocked_world)).1
    = Ok (refuse 404 "Menu item not found").
Proof.
  destruct (public_reads_never_fail (set_faults [true] stocked_world) "id-0")
    as (_ & (items & Hitems & Hempty) & _ & Hitem).
  split_and!.
  - rewrite Hitems. by rewrite Hempty.
  - apply (bool_decide_unpack _). by vm_compute.
  - exact Hitem.
Defined.

(** ** Menu items: what the routes change *)

Lemma delete_image_eq v w :
  string_or_falsy v → delete_image v w = (Ok tt, w).
Proof.
  unfold string_or_falsy, delete_image. destruct v; try (by intros ->).
  intros _. by destruct (_ && _).
Qed.

Lemma string_or_falsy_js_or v : string_or_falsy v → string_or_falsy (js_or v VNull).
Proof. unfold js_or. destruct (truthy v) eqn:Ht; [done|]. by intros _. Qed.

(** X16. [DELETE /api/menu-items/:id] on a stored item whose image
    reference is a string or falsy: with a working backend the answer is the
    success, the item is gone, a later read of it is answered 404, and no
    other document has changed.  When the backend refuses the deletion the
    answer is 404, as for an item that does not exist, and the item is still
    stored. *)
Theorem delete_menu_item_removes (w : World) (id : string) (old : obj) :
  document w "menuItems" id = Some old →
  string_or_falsy (get old "imageUrl") →
  let r := delete_menu_item id w in
  (calm w →
   r.1 = Ok (json JSuccess) ∧
   document r.2 "menuItems" id = None ∧
   (get_menu_item id r.2).1 = Ok (refuse 404 "Menu item not found") ∧
   ∀ col id', (col, id') ≠ ("menuItems", id) → document r.2 col id' = document w col id') ∧
  (next_fault w = false → next_fault (served (CGetDoc "menuItems" id) w) = true →
   r.1 = Ok (error 404 "Menu item not found") ∧
   document r.2 "menuItems" id = Some old).
Proof.
  intros Hdoc Himage. cbv zeta.
  assert (next_fault w = false →
            delete_menu_item id w =
              (let w1 := served (CGetDoc "menuItems" id) w in
               if next_fault w1
               then (Ok (error 404 "Menu item not found"),
                     served (CDeleteDoc "menuItems" id) w1)
               else (Ok (json JSuccess),
                     write_doc "menuItems" id None (served (CDeleteDoc "menuItems" id) w1))))
    as Hrun.
  { intros Hserved. unfold delete_menu_item, try_catch, bind, ret.
    rewrite getMenuItem_eq, Hserved, Hdoc. cbn [fmap option_fmap option_map fst snd].
    rewrite delete_image_eq
      by (cbn [menuItem_of_doc MenuItem.imageUrl snd]; by apply string_or_falsy_js_or).
    rewrite deleteMenuItem_eq. cbv zeta. by destruct (next_fault (served _ w)). }
  split.
  - intros Hcalm. rewrite Hrun by by apply calm_next_fault. cbv zeta. calm_rw.
    cbn [fst snd]. split; [done|].
    assert (document (write_doc "menuItems" id None
                        (served (CDeleteDoc "menuItems" id)
                                (served (CGetDoc "menuItems" id) w))) "menuItems" id = None)
      as Hgone by (by rewrite document_write_doc, decide_True).
    split; [exact Hgone|]. split.
    + unfold get_menu_item, try_catch, bind, ret. rewrite getMenuItem_eq. calm_rw.
      by rewrite Hgone.
    + intros col id' Hne. rewrite document_write_doc, decide_False by congruence.
      by rewrite !document_served.
  - intros Hserved Hfails. rewrite (Hrun Hserved). cbv zeta. rewrite Hfails.
    cbn [fst snd]. split; [done|]. by rewrite !document_served.
Qed.

Lemma delete_menu_item_removes_witness :
  (delete_menu_item "id-0" stocked_world).1 = Ok (json JSuccess) ∧
  document (delete_menu_item "id-0" stocked_world).2 "menuItems" "id-0" = None ∧
  document (delete_menu_item "id-0" stocked_world).2 "orders" "id-1"
    = document stocked_world "orders" "id-1".
Proof.
  destruct (delete_menu_item_removes stocked_world "id-0"
              (fields_of stocked_world "menuItems" "id-0")) as [Hcalm _].
  - apply document_fields_of, (bool_decide_unpack _). by vm_compute.
  - vm_compute. reflexivity.
  - destruct Hcalm as (Hanswer & Hgone & _ & Hothers); [vm_compute; constructor|].
    split; [exact Hanswer|]. split; [exact Hgone|]. by apply Hothers.
Defined.

(** The payload of an update whose keys are names of fields, with values
    that the client library accepts, is such an update. *)
Lemma normalized_plain_update (updates : obj) :
  plain_update (remove_undefined updates) →
  plain_update (remove_undefined (normalizedUpdates updates)).
Proof.
  intros Hplain k v [Hk Hv]%lookup_remove_undefined.
  pose proof (lookup_normalizedUpdates _ _ _ Hk Hv) as Hval.
  assert (is_undefined (get updates k) = false →
          plain_name k ∧ storable (get updates k)) as Hsupplied.
  { intros Hd. unfold get in *. destruct (updates !! k) as [x|] eqn:Hx; [|done].
    apply (Hplain k x), lookup_remove_undefined. done. }
  case_decide as Hamount.
  - assert (is_undefined (get updates k) = false) as Hd
      by (subst v; by destruct (get updates k)).
    destruct (Hsupplied Hd) as [Hname Hx]. split; [exact Hname|].
    subst v. revert Hx. unfold storable. by destruct (get updates k).
  - subst v. by apply Hsupplied.
Qed.

(** An update of a stored menu item against a working backend, by names of
    fields and with values that the client library accepts. *)
Lemma updateMenuItem_calm id updates w old :
  calm w → document w "menuItems" id = Some old →
  plain_update (remove_undefined updates) →
  let d' := (stored <$> remove_undefined (normalizedUpdates updates)) ∪ old in
  (updateMenuItem id updates w).1 = Ok (Some (menuItem_of_doc (id, d'))) ∧
  document (updateMenuItem id updates w).2 "menuItems" id = Some d' ∧
  (∀ col id', (col, id') ≠ ("menuItems", id) →
              document (updateMenuItem id updates w).2 col id' = document w col id').
Proof.
  intros Hcalm Hdoc Hplain. cbv zeta. rewrite updateMenuItem_eq. cbv zeta. calm_rw.
  destruct (plain_update_accepted _ (normalized_plain_update _ Hplain))
    as (-> & -> & Happly).
  rewrite Hdoc, Happly. calm_rw. cbn [orb]. rewrite getMenuItem_eq. calm_rw. cbn [fst snd].
  rewrite !document_served, !document_write_doc, !decide_True by done.
  split; [done|]. split; [done|].
  intros col id' Hne. rewrite document_served, document_write_doc, decide_False by congruence.
  by rewrite !document_served.
Qed.

(** A field that the update does not carry stays as it was. *)
Lemma updated_field_kept (updates old : obj) k :
  get updates k = VUndef →
  ((stored <$> remove_undefined (normalizedUpdates updates)) ∪ old) !! k = old !! k.
Proof.
  intros Hk. by apply written_field_kept, lookup_remove_undefined_None, get_normalizedUpdates.
Qed.

(** A field of the update other than the two amounts is written as it is. *)
Lemma updated_field_set (updates old : obj) k v :
  k ≠ "price" → k ≠ "deliveryFee" → updates !! k = Some v → is_undefined v = false →
  ((stored <$> remove_undefined (normalizedUpdates updates)) ∪ old) !! k = Some (stored v).
Proof.
  intros Hp Hf Hk Hv. apply written_field_set, lookup_remove_undefined. split; [|done].
  unfold normalizedUpdates. by rewrite !lookup_insert_ne.
Qed.

(** X17. [DELETE /api/menu-items/:id/image] on a stored item whose image
    reference is a string or falsy: with a working backend the answer holds
    the updated item, whose [imageUrl] is [null], the stored [imageUrl] is
    [null], every other field of the document is what it was, and no other
    document has changed.  When the backend fails after the first read the
    answer is still the success, with no item, and the store is as before. *)
Theorem delete_menu_item_image_clears (w : World) (id : string) (old : obj) :
  document w "menuItems" id = Some old →
  string_or_falsy (get old "imageUrl") →
  let r := delete_menu_item_image id w in
  (calm w →
   ∃ d', r.1 = Ok (respond 200 (Some (menuItem_of_doc (id, d')))) ∧
         MenuItem.imageUrl (menuItem_of_doc (id, d')) = VNull ∧
         document r.2 "menuItems" id = Some d' ∧
         d' !! "imageUrl" = Some VNull ∧
         (∀ k, k ≠ "imageUrl" → d' !! k = old !! k) ∧
         ∀ col id', (col, id') ≠ ("menuItems", id) →
                    document r.2 col id' = document w col id') ∧
  (next_fault w = false → next_fault (served (CGetDoc "menuItems" id) w) = true →
   r.1 = Ok (respond 200 None) ∧ db r.2 = db w).
Proof.
  intros Hdoc Himage. cbv zeta.
  assert (next_fault w = false →
          delete_menu_item_image id w =
            (let r := updateMenuItem id {["imageUrl" := VNull]}
                                     (served (CGetDoc "menuItems" id) w) in
             match r.1 with
             | Ok updatedItem => (Ok (respond 200 updatedItem), r.2)
             | Throw _ => (Ok (refuse 500 "Failed to remove menu item image"), r.2)
             end)) as Hrun.
  { intros Hserved. unfold delete_menu_item_image, try_catch, bind, ret.
    rewrite getMenuItem_eq, Hserved, Hdoc. cbn [fmap option_fmap option_map fst snd].
    rewrite delete_image_eq
      by (cbn [menuItem_of_doc MenuItem.imageUrl snd]; by apply string_or_falsy_js_or).
    cbv zeta. by destruct (updateMenuItem _ _ _) as [[x|e] w']. }
  split.
  - intros Hcalm. rewrite Hrun by by apply calm_next_fault. cbv zeta.
    destruct (updateMenuItem_calm id {["imageUrl" := VNull]}
                (served (CGetDoc "menuItems" id) w) old)
      as (Hanswer & Hstored & Hothers);
      [auto with calm | by rewrite document_served | |].
    { intros k v [Hk _]%lookup_remove_undefined.
      apply lookup_singleton_Some in Hk as [<- <-]. by split. }
    rewrite Hanswer. cbn [fst snd]. eexists. split; [reflexivity|].
    assert (∀ d : obj, ((stored <$> remove_undefined
                           (normalizedUpdates {["imageUrl" := VNull]})) ∪ d) !! "imageUrl"
                       = Some VNull) as Hnull.
    { intros d. by apply (updated_field_set _ _ _ VNull). }
    split_and!.
    + cbn [menuItem_of_doc MenuItem.imageUrl snd]. unfold get. by rewrite Hnull.
    + exact Hstored.
    + apply Hnull.
    + intros k Hk. apply updated_field_kept. unfold get.
      by rewrite lookup_singleton_ne.
    + intros col id' Hne. rewrite Hothers by done. apply document_served.
  - intros Hserved Hfails. rewrite (Hrun Hserved). cbv zeta.
    rewrite updateMenuItem_eq. cbv zeta. rewrite Hfails. cbn [fst snd].
    by rewrite !db_served.
Qed.

Lemma delete_menu_item_image_clears_witness :
  ∃ d', (delete_menu_item_image "id-0" stocked_world).1
          = Ok (respond 200 (Some (menuItem_of_doc ("id-0", d')))) ∧
        d' !! "imageUrl" = Some VNull ∧
        d' !! "price" = Some (VStr "12").
Proof.
  destruct (delete_menu_item_image_clears stocked_world "id-0"
              (fields_of stocked_world "menuItems" "id-0")) as [Hcalm _].
  - apply document_fields_of, (bool_decide_unpack _). by vm_compute.
  - vm_compute. reflexivity.
  - destruct Hcalm as (d' & Hanswer & _ & _ & Hnull & Hkept & _);
      [vm_compute; constructor|].
    exists d'. split; [exact Hanswer|]. split; [exact Hnull|].
    rewrite Hkept by done. vm_compute. reflexivity.
Defined.

(** A supplied field is in the normalized update, as a string when it is
    one of the two amounts and a number. *)
Lemma normalizedUpdates_supplied (updates : obj) k v :
  updates !! k = Some v → is_undefined v = false →
  normalizedUpdates updates !! k
  = Some (if decide (k = "price" ∨ k = "deliveryFee") then number_to_string v else v).
Proof.
  intros Hk Hv. unfold normalizedUpdates. rewrite lookup_insert. case_decide as Hfee.
  { subst k. rewrite decide_True by by right. unfold get. rewrite Hk. cbn [default].
    cbn [from_option id]. by rewrite Hv. }
  rewrite lookup_insert. case_decide as Hprice.
  { subst k. rewrite decide_True by by left. unfold get. rewrite Hk.
    cbn [from_option id]. by rewrite Hv. }
  rewrite decide_False by (intros [?|?]; congruence). exact Hk.
Qed.

(** X18. [PATCH /api/menu-items/:id] always writes the two flags.  On a
    stored item and a working backend, when the request has no file, or a
    file whose upload goes through while the stored image reference is a
    string or falsy, and the body has names of fields for keys and values
    that the client library accepts, the answer is 200 with the item as it
    is stored afterwards, and in the stored document [available] and
    [popular] are booleans, [true] exactly when the body has [true] or the
    string "true": a body without [available] makes the item unavailable.
    With a file the stored [imageUrl] is the new path under
    [/storage/menu-items/]; every other field that the body does not carry
    is what it was.  A body with a key that is no path of fields, or with a
    value that the library refuses, under a key other than the two flags and
    [imageUrl], is answered 404 and nothing is written.  When the upload
    fails the answer is 500 and the store is as before. *)
Theorem patch_menu_item_writes_flags (w : World) (id : string) (req_body old : obj)
    (req_file : option Upload) :
  document w "menuItems" id = Some old →
  let r := patch_menu_item id req_body req_file w in
  (calm w →
   (∀ file, req_file = Some file →
            upload_succeeds file = true ∧ string_or_falsy (get old "imageUrl")) →
   plain_update req_body →
   ∃ d', r.1 = Ok (respond 200 (menuItem_of_doc (id, d'))) ∧
         document r.2 "menuItems" id = Some d' ∧
         d' !! "available" = Some (true_flag (get req_body "available")) ∧
         d' !! "popular" = Some (true_flag (get req_body "popular")) ∧
         (get req_body "available" = VUndef →
          MenuItem.available (menuItem_of_doc (id, d')) = VBool false) ∧
         (∀ file, req_file = Some file →
                  d' !! "imageUrl"
                  = Some (VStr ("/storage/" +:+ upload_fileName (clock w (ticks w)) file))) ∧
         (∀ k, k ≠ "available" → k ≠ "popular" → (k = "imageUrl" → req_file = None) →
               get req_body k = VUndef → d' !! k = old !! k)) ∧
  (calm w →
   (∀ file, req_file = Some file →
            upload_succeeds file = true ∧ string_or_falsy (get old "imageUrl")) →
   ∀ k v, req_body !! k = Some v →
          k ≠ "available" → k ≠ "popular" → k ≠ "imageUrl" →
          v ≠ VUndef → field_path k = None ∨ ¬ storable v →
          r.1 = Ok (refuse 404 "Menu item not found") ∧ db r.2 = db w) ∧
  (next_fault w = false →
   ∀ file, req_file = Some file → upload_succeeds file = false →
           r.1 = Ok (refuse 500 "Failed to update menu item") ∧ db r.2 = db w).
Proof.
  intros Hdoc. cbv zeta.
  set (updates := match req_file with
                  | None => with_flags req_body
                  | Some file =>
                      <["imageUrl" := VStr ("/storage/"
                                            +:+ upload_fileName (clock w (ticks w)) file)]>
                        (with_flags req_body)
                  end).
  assert (calm w →
          (∀ file, req_file = Some file →
                   upload_succeeds file = true ∧ string_or_falsy (get old "imageUrl")) →
          ∃ w1, calm w1 ∧ document w1 "menuItems" id = Some old ∧ db w1 = db w ∧
                patch_menu_item id req_body req_file w =
                  (let r := updateMenuItem id updates w1 in
                   match r.1 with
                   | Ok (Some updatedItem) => (Ok (respond 200 updatedItem), r.2)
                   | Ok None => (Ok (refuse 404 "Menu item not found"), r.2)
                   | Throw _ => (Ok (refuse 500 "Failed to update menu item"), r.2)
                   end)) as Hrun.
  { intros Hcalm Hfile.
    unfold patch_menu_item, try_catch, bind, ret, newDate.
    rewrite getMenuItem_eq. calm_rw. rewrite Hdoc.
    cbn [fmap option_fmap option_map fst snd]. unfold updates.
    destruct req_file as [file|].
    - destruct (Hfile file eq_refl) as [Hupload Himage].
      unfold Client_upload. rewrite Hupload. unfold ret.
      rewrite delete_image_eq
        by (cbn [menuItem_of_doc MenuItem.imageUrl snd]; by apply string_or_falsy_js_or).
      exists (tick (served (CGetDoc "menuItems" id) w)).
      split; [auto with calm|]. split; [by rewrite document_tick, document_served|].
      split; [by rewrite db_tick, db_served|].
      cbn [tick clock ticks].
      destruct (clock_served (CGetDoc "menuItems" id) w) as [-> ->].
      cbv zeta. by destruct (updateMenuItem _ _ _) as [[[x|]|e] w'].
    - exists (served (CGetDoc "menuItems" id) w).
      split; [auto with calm|]. split; [by rewrite document_served|].
      split; [by rewrite db_served|].
      cbv zeta. by destruct (updateMenuItem _ _ _) as [[[x|]|e] w']. }
  assert (∀ k, k ≠ "available" → k ≠ "popular" → (k = "imageUrl" → req_file = None) →
               updates !! k = req_body !! k) as Hbody.
  { intros k Ha Hp Hi. unfold updates, with_flags. destruct req_file as [file|].
    - rewrite lookup_insert_ne by (intros <-; by specialize (Hi eq_refl)).
      by rewrite !lookup_insert_ne.
    - by rewrite !lookup_insert_ne. }
  assert (updates !! "available" = Some (true_flag (get req_body "available")))
    as Havailable.
  { unfold updates, with_flags. destruct req_file;
      by rewrite ?(lookup_insert_ne _ "imageUrl"), lookup_insert_ne, lookup_insert_eq. }
  assert (updates !! "popular" = Some (true_flag (get req_body "popular"))) as Hpopular.
  { unfold updates, with_flags. destruct req_file;
      by rewrite ?(lookup_insert_ne _ "imageUrl"), lookup_insert_eq. }
  split_and!.
  - intros Hcalm Hfile Hplain.
    destruct (Hrun Hcalm Hfile) as (w1 & Hcalm1 & Hdoc1 & _ & ->). cbv zeta.
    destruct (updateMenuItem_calm id updates w1 old Hcalm1 Hdoc1)
      as (Hanswer & Hstored & _).
    { intros k v [Hk _]%lookup_remove_undefined.
      destruct (decide (k = "available")) as [->|Ha].
      { rewrite Havailable in Hk. injection Hk as <-.
        split; [reflexivity|]. unfold true_flag. by destruct (_ || _). }
      destruct (decide (k = "popular")) as [->|Hp].
      { rewrite Hpopular in Hk. injection Hk as <-.
        split; [reflexivity|]. unfold true_flag. by destruct (_ || _). }
      destruct (decide (k = "imageUrl" ∧ is_Some req_file)) as [[-> [file ->]]|Hi].
      { unfold updates in Hk. rewrite lookup_insert_eq in Hk. injection Hk as <-.
        by split. }
      apply (Hplain k v). rewrite <- Hbody; [done|done|done|].
      intros ->. destruct req_file; [|done]. destruct Hi. by eauto. }
    rewrite Hanswer. cbn [fst snd]. eexists. split; [reflexivity|].
    split; [exact Hstored|].
    split_and!.
    + by apply (updated_field_set _ _ _ (true_flag _)).
    + by apply (updated_field_set _ _ _ (true_flag _)).
    + intros Habsent. cbn [menuItem_of_doc MenuItem.available snd]. unfold get.
      rewrite (updated_field_set _ _ _ (true_flag (get req_body "available")))
        by done.
      by rewrite Habsent.
    + intros file ->. apply (updated_field_set _ _ _ (VStr _)); try done.
      unfold updates. apply lookup_insert_eq.
    + intros k Ha Hp Hi Hk. apply updated_field_kept.
      unfold get. by rewrite Hbody.
  - intros Hcalm Hfile k v Hk Ha Hp Hi Hv Hbad.
    destruct (Hrun Hcalm Hfile) as (w1 & Hcalm1 & Hdoc1 & Hdb & ->). cbv zeta.
    rewrite updateMenuItem_eq. cbv zeta.
    rewrite (calm_next_fault _ Hcalm1), Hdoc1.
    assert (refused_update (remove_undefined (normalizedUpdates updates)) = true) as ->.
    { apply not_false_iff_true. intros Hok.
      assert (is_undefined v = false) as Hdefined by (by destruct v).
      destruct (proj1 (refused_update_spec _) Hok k
                  (if decide (k = "price" ∨ k = "deliveryFee")
                   then number_to_string v else v)) as [Hpath Hvalue].
      { apply lookup_remove_undefined. split.
        - apply normalizedUpdates_supplied; [|done]. by rewrite Hbody.
        - case_decide; by destruct v. }
      destruct Hbad as [Hnone|Hrefused].
      - rewrite Hnone in Hpath. by destruct Hpath.
      - apply Hrefused. unfold storable. revert Hvalue. case_decide; by destruct v. }
    cbn [fst snd]. by rewrite db_served.
  - intros Hserved file -> Hupload.
    unfold patch_menu_item, try_catch, bind, ret, newDate.
    rewrite getMenuItem_eq, Hserved, Hdoc.
    cbn [fmap option_fmap option_map fst snd].
    unfold Client_upload. rewrite Hupload. unfold throw. cbn [fst snd].
    by rewrite db_tick, db_served.
Qed.

Lemma patch_menu_item_writes_flags_witness :
  (∃ d', (patch_menu_item "id-0" {["price" := VNum 15]} None stocked_world).1
           = Ok (respond 200 (menuItem_of_doc ("id-0", d'))) ∧
         fields_of stocked_world "menuItems" "id-0" !! "available" = Some (VBool true) ∧
         d' !! "available" = Some (VBool false) ∧
         MenuItem.available (menuItem_of_doc ("id-0", d')) = VBool false ∧
         d' !! "name" = Some (VStr "Crêpe sucre")) ∧
  (patch_menu_item "id-0" {["name.first" := VArr [VArr []]]} None stocked_world).1
    = Ok (refuse 404 "Menu item not found").
Proof.
  split.
  - destruct (patch_menu_item_writes_flags stocked_world "id-0" {["price" := VNum 15]}
                (fields_of stocked_world "menuItems" "id-0") None) as [Hcalm _].
    + apply document_fields_of, (bool_decide_unpack _). by vm_compute.
    + destruct Hcalm as (d' & Hanswer & _ & Havailable & _ & Hfalse & _ & Hkept);
        [vm_compute; constructor | discriminate | |].
      { intros k v Hk. apply lookup_singleton_Some in Hk as [<- <-]. by split. }
      exists d'. split; [exact Hanswer|]. split; [vm_compute; reflexivity|].
      split; [exact Havailable|]. split; [by apply Hfalse|].
      rewrite Hkept by done. vm_compute. reflexivity.
  - destruct (patch_menu_item_writes_flags stocked_world "id-0"
                {["name.first" := VArr [VArr []]]}
                (fields_of stocked_world "menuItems" "id-0") None) as (_ & Hrefused & _).
    + apply document_fields_of, (bool_decide_unpack _). by vm_compute.
    + apply (Hrefused ltac:(vm_compute; constructor) ltac:(discriminate)
               "name.first" (VArr [VArr []])); try done.
      right. discriminate.
Defined.

(** ** The creation routes *)

Lemma createReservation_cases insertReservation w :
  let r := createReservation insertReservation w in
  (∃ e, r.1 = Throw e ∧ db r.2 = db w) ∨
  (∃ d w1,
     r = (Ok (new_reservation (uuids w (drawn w)) insertReservation (clock w (ticks w))),
          w1) ∧
     document w1 "reservations" (uuids w (drawn w)) = Some d ∧
     ∀ col id, (col, id) ≠ ("reservations", uuids w (drawn w)) →
               document w1 col id = document w col id).
Proof.
  cbv zeta. rewrite createReservation_eq. cbv zeta.
  destruct (refused_data _); [left; by eexists|].
  destruct (next_fault w); [left; eexists; split; [done|]; cbn [snd]; by rewrite db_served|].
  right. eexists _, _. split; [reflexivity|]. split.
  - by rewrite document_write_doc, decide_True.
  - intros col id Hne. rewrite document_write_doc, decide_False by congruence.
    by rewrite document_served.
Qed.

Lemma createOrder_cases insertOrder w :
  let r := createOrder insertOrder w in
  (∃ e, r.1 = Throw e ∧ db r.2 = db w) ∨
  (∃ d w1,
     r = (Ok (new_order (uuids w (drawn w)) insertOrder (clock w (ticks w))), w1) ∧
     document w1 "orders" (uuids w (drawn w)) = Some d ∧
     get d "userId" = stored (nullish (get insertOrder "userId") VNull) ∧
     ∀ col id, (col, id) ≠ ("orders", uuids w (drawn w)) →
               document w1 col id = document w col id).
Proof.
  cbv zeta. rewrite createOrder_eq. cbv zeta.
  destruct (refused_data _); [left; by eexists|].
  destruct (next_fault w); [left; eexists; split; [done|]; cbn [snd]; by rewrite db_served|].
  right. eexists _, _. split; [reflexivity|]. split_and!.
  - by rewrite document_write_doc, decide_True.
  - unfold get, order_firestoreData. rewrite lookup_fmap.
    by rewrite !lookup_insert_ne, lookup_insert_eq by done.
  - intros col id Hne. rewrite document_write_doc, decide_False by congruence.
    by rewrite document_served.
Qed.

Lemma createMenuItem_cases insertItem w :
  let r := createMenuItem insertItem w in
  (∃ e, r.1 = Throw e ∧ db r.2 = db w) ∨
  (∃ d w1,
     r = (Ok (new_menuItem (uuids w (drawn w)) insertItem), w1) ∧
     document w1 "menuItems" (uuids w (drawn w)) = Some d ∧
     ∀ col id, (col, id) ≠ ("menuItems", uuids w (drawn w)) →
               document w1 col id = document w col id).
Proof.
  cbv zeta. rewrite createMenuItem_eq. cbv zeta.
  destruct (refused_data _); [left; by eexists|].
  destruct (next_fault w); [left; eexists; split; [done|]; cbn [snd]; by rewrite db_served|].
  right. eexists _, _. split; [reflexivity|]. split.
  - by rewrite document_write_doc, decide_True.
  - intros col id Hne. rewrite document_write_doc, decide_False by congruence.
    by rewrite document_served.
Qed.

(** X19. Whatever the validators are, the three creation routes store
    exactly what they report: each answers 400 and touches nothing, or 500
    with the store as before, or 201 with the created record, which is then
    stored under its identifier while no other document has changed.  A body
    that its validator rejects is answered 400. *)
Theorem creation_routes_store_what_they_report
    (insertReservationSchema insertOrderSchema insertMenuItemSchema : obj → value + obj)
    (session_userId : option Z) (req_body : obj) (w : World) :
  stores_what_it_reports (post_reservations insertReservationSchema req_body)
    "reservations" Reservation.id w ∧
  stores_what_it_reports (post_orders insertOrderSchema session_userId req_body)
    "orders" Order.id w ∧
  stores_what_it_reports (post_menu_items insertMenuItemSchema req_body)
    "menuItems" MenuItem.id w ∧
  (∀ errors, insertReservationSchema req_body = inl errors →
     post_reservations insertReservationSchema req_body w
     = (Ok (mkAnswer 400 (Refused "Invalid reservation data" errors)), w)).
Proof.
  unfold stores_what_it_reports, post_reservations, post_orders, post_menu_items.
  split_and!.
  - destruct (insertReservationSchema req_body) as [errors|validatedData].
    { eexists. split; [reflexivity|]. by left. }
    unfold try_catch, bind, ret.
    destruct (createReservation_cases validatedData w)
      as [(e & He & Hdb)|(d & w1 & Hrun & Hdoc & Hothers)].
    + destruct (createReservation validatedData w) as [o w']. cbn [fst snd] in *.
      subst o. eexists. split; [reflexivity|]. right. left. by split.
    + rewrite Hrun. cbn [fst snd]. eexists. split; [reflexivity|]. right. right.
      split; [done|]. eexists. split; [reflexivity|]. split; [by eexists|done].
  - destruct (insertOrderSchema _) as [errors|validatedData].
    { eexists. split; [reflexivity|]. by left. }
    unfold try_catch, bind, ret.
    destruct (createOrder_cases validatedData w)
      as [(e & He & Hdb)|(d & w1 & Hrun & Hdoc & _ & Hothers)].
    + destruct (createOrder validatedData w) as [o w']. cbn [fst snd] in *.
      subst o. eexists. split; [reflexivity|]. right. left. by split.
    + rewrite Hrun. cbn [fst snd]. eexists. split; [reflexivity|]. right. right.
      split; [done|]. eexists. split; [reflexivity|]. split; [by eexists|done].
  - destruct (insertMenuItemSchema _) as [errors|validatedData].
    { eexists. split; [reflexivity|]. by left. }
    unfold try_catch, bind, ret.
    destruct (createMenuItem_cases validatedData w)
      as [(e & He & Hdb)|(d & w1 & Hrun & Hdoc & Hothers)].
    + destruct (createMenuItem validatedData w) as [o w']. cbn [fst snd] in *.
      subst o. eexists. split; [reflexivity|]. right. left. by split.
    + rewrite Hrun. cbn [fst snd]. eexists. split; [reflexivity|]. right. right.
      split; [done|]. eexists. split; [reflexivity|]. split; [by eexists|done].
  - by intros errors ->.
Qed.

Lemma creation_routes_store_what_they_report_witness :
  let reject (data : obj) : value + obj := inl (VStr "partySize: Required") in
  (post_reservations reject sample_reservation empty_world
   = (Ok (mkAnswer 400 (Refused "Invalid reservation data" (VStr "partySize: Required"))),
      empty_world)) ∧
  stores_what_it_reports (post_reservations accept_all sample_reservation)
    "reservations" Reservation.id empty_world.
Proof.
  cbv zeta.
  destruct (creation_routes_store_what_they_report
              (λ _, inl (VStr "partySize: Required")) accept_all accept_all None
              sample_reservation empty_world) as (_ & _ & _ & Hrejected).
  destruct (creation_routes_store_what_they_report
              accept_all accept_all accept_all None
              sample_reservation empty_world) as (Hstored & _).
  split; [by apply Hrejected|exact Hstored].
Defined.

(** X20. The user of a created order is the user of the session.  When the
    validator accepts the data and keeps the [userId] it is given, the order
    that [POST /api/orders] creates has the identifier of the session as its
    [userId], or [null] when the session has none, whatever [userId] the body
    carries; the stored order has the same. *)
Theorem post_orders_takes_user_from_session
    (insertOrderSchema : obj → value + obj) (session_userId : option Z)
    (req_body validated : obj) (w w' : World) (o : Order.t) :
  let userId := js_or (from_option VNum VUndef session_userId) VNull in
  insertOrderSchema (<["userId" := userId]> req_body) = inr validated →
  get validated "userId" = userId →
  post_orders insertOrderSchema session_userId req_body w = (Ok (respond 201 o), w') →
  Order.userId o = userId ∧
  (userId = VNull ∨ ∃ uid, session_userId = Some uid ∧ uid ≠ 0 ∧ userId = VNum uid) ∧
  ∃ d, document w' "orders" (Order.id o) = Some d ∧ get d "userId" = userId.
Proof.
  cbv zeta. intros Hparse Hkept. unfold post_orders. rewrite Hparse.
  unfold try_catch, bind, ret.
  assert (nullish (get validated "userId") VNull
          = js_or (from_option VNum VUndef session_userId) VNull) as Huser.
  { rewrite Hkept. unfold js_or.
    destruct session_userId as [uid|]; cbn; [by destruct (uid =? 0)|done]. }
  destruct (createOrder_cases validated w)
    as [(e & He & Hdb)|(d & w1 & Hrun & Hdoc & Hd & Hothers)].
  - destruct (createOrder validated w) as [x w0]. cbn [fst] in He. by subst x.
  - rewrite Hrun. intros [= <- <-]. clear Hrun Hparse Hothers.
    cbn [new_order Order.userId Order.id].
    split; [exact Huser|]. split.
    + clear Hdoc Hd Huser Hkept.
      destruct session_userId as [uid|]; [|left; reflexivity]. cbn [from_option].
      unfold js_or. cbn [truthy]. destruct (Z.eqb_spec uid 0) as [->|Hne].
      * left. reflexivity.
      * right. exists uid. split; [reflexivity|]. split; [exact Hne|reflexivity].
    + exists d. split; [exact Hdoc|]. rewrite Hd, Huser. clear Hdoc Hd Huser Hkept.
      unfold js_or.
      destruct session_userId as [uid|]; cbn; [destruct (uid =? 0)|]; reflexivity.
Qed.

Lemma post_orders_takes_user_from_session_witness :
  ∃ o, (post_orders accept_all (Some 4) (<["userId" := VNum 3]> sample_order)
                    empty_world).1 = Ok (respond 201 o) ∧
       Order.userId o = VNum 4.
Proof.
  set (body := <["userId" := VNum 3]> sample_order).
  assert (∃ o, post_orders accept_all (Some 4) body empty_world
               = (Ok (respond 201 o), (post_orders accept_all (Some 4) body empty_world).2))
    as [o Hrun].
  { eexists. apply run_pair. vm_compute. reflexivity. }
  destruct (post_orders_takes_user_from_session accept_all (Some 4) body
              (<["userId" := VNum 4]> body) empty_world
              (post_orders accept_all (Some 4) body empty_world).2 o) as (Huser & _).
  - reflexivity.
  - vm_compute. reflexivity.
  - exact Hrun.
  - exists o. rewrite Hrun. split; [reflexivity|exact Huser].
Defined.

(** X21. A menu item created through [POST /api/menu-items] gets its two
    flags from the route, not from the defaults of [createMenuItem].  When
    the validator accepts the data and keeps the flags it is given, the
    created item has booleans for [available] and [popular], [true] exactly
    when the body has [true] or the string "true": an item created from a
    body without [available] is not available. *)
Theorem post_menu_items_flags
    (insertMenuItemSchema : obj → value + obj) (req_body validated : obj)
    (w w' : World) (item : MenuItem.t) :
  insertMenuItemSchema (with_flags req_body) = inr validated →
  get validated "available" = get (with_flags req_body) "available" →
  get validated "popular" = get (with_flags req_body) "popular" →
  post_menu_items insertMenuItemSchema req_body w = (Ok (respond 201 item), w') →
  MenuItem.available item = true_flag (get req_body "available") ∧
  MenuItem.popular item = true_flag (get req_body "popular") ∧
  (get req_body "available" = VUndef → MenuItem.available item = VBool false).
Proof.
  intros Hparse Havailable Hpopular. unfold post_menu_items. cbv zeta. rewrite Hparse.
  unfold try_catch, bind, ret.
  assert (get (with_flags req_body) "available" = true_flag (get req_body "available"))
    as Ha by (unfold get, with_flags; by rewrite lookup_insert_ne, lookup_insert_eq).
  assert (get (with_flags req_body) "popular" = true_flag (get req_body "popular"))
    as Hp by (unfold get, with_flags; by rewrite lookup_insert_eq).
  destruct (createMenuItem_cases validated w) as [(e & He & Hdb)|(d & w1 & Hrun & _)].
  - destruct (createMenuItem validated w) as [x w0]. cbn [fst] in He. by subst x.
  - rewrite Hrun. intros [= <- <-]. clear Hrun Hparse.
    cbn [new_menuItem MenuItem.available MenuItem.popular].
    rewrite Havailable, Hpopular, Ha, Hp. split; [reflexivity|]. split; [reflexivity|].
    intros ->. reflexivity.
Qed.

Lemma post_menu_items_flags_witness :
  ∃ item, (post_menu_items accept_all sample_menuItem empty_world).1
            = Ok (respond 201 item) ∧
          get sample_menuItem "available" = VUndef ∧
          MenuItem.available item = VBool false.
Proof.
  assert (∃ item, post_menu_items accept_all sample_menuItem empty_world
                  = (Ok (respond 201 item),
                     (post_menu_items accept_all sample_menuItem empty_world).2))
    as [item Hrun].
  { eexists. apply run_pair. vm_compute. reflexivity. }
  destruct (post_menu_items_flags accept_all sample_menuItem (with_flags sample_menuItem)
              empty_world (post_menu_items accept_all sample_menuItem empty_world).2 item)
    as (_ & _ & Hfalse); [reflexivity | reflexivity | reflexivity | exact Hrun |].
  exists item. rewrite Hrun. split; [reflexivity|]. split; [vm_compute; reflexivity|].
  apply Hfalse. vm_compute. reflexivity.
Defined.

(** ** Seeding the categories: a failure on the way *)

(** A loop of [setDoc] calls stops at the first call that the backend
    refuses; the documents before it have been written. *)
Lemma forEach_setDoc_stops (col : string) (written rest : list (string * obj))
    (c : string * obj) (fs : list bool) w :
  Forall (λ c, refused_data c.2 = false) (written ++ c :: rest) →
  faults w = replicate (length written) false ++ true :: fs →
  ∃ w', forEach (written ++ c :: rest) (λ c, setDoc col c.1 c.2) w
          = (Throw BackendFailure, w') ∧
        db w' = foldl (λ s c, <[(col, c.1) := stored <$> c.2]> s) (db w) written.
Proof.
  revert w. induction written as [|x written IH]; intros w Hdef Hfaults.
  - cbn [app forEach]. apply Forall_cons in Hdef as [Hc _].
    unfold bind. rewrite setDoc_eq, Hc. unfold next_fault. rewrite Hfaults.
    cbn [replicate length app]. eexists. split; [reflexivity|]. apply db_served.
  - cbn [app forEach]. apply Forall_cons in Hdef as [Hx Hdef].
    unfold bind at 1. rewrite setDoc_eq, Hx. unfold next_fault at 1. rewrite Hfaults.
    cbn [replicate length app].
    destruct (IH (write_doc col x.1 (Some (stored <$> x.2)) (served (CSetDoc col x.1) w)))
      as (w' & Hrun & Hdb); [done| |].
    { cbn. rewrite faults_served, Hfaults. reflexivity. }
    exists w'. split; [exact Hrun|]. rewrite Hdb. cbn [foldl].
    unfold write_doc. cbn. by rewrite db_served.
Qed.

Lemma db_set_faults fs w : db (set_faults fs w) = db w.
Proof. reflexivity. Qed.

Lemma collection_db w w' col : db w' = db w → collection w' col = collection w col.
Proof. unfold collection. by intros ->. Qed.

(** X22. A seeding that fails on the way is not repaired.  When the
    category collection is empty, the read and the writes of the first
    categories succeed and the next write fails, initialization returns
    normally and leaves those first categories and no others; and from then
    on, as long as the store is the same, initialization writes nothing,
    whatever the backend does: the categories that are missing stay
    missing. *)
Theorem partial_seeding_is_not_repaired (w : World)
    (written rest : list (string * obj)) (c : string * obj) (fs : list bool) :
  categoriesData = written ++ c :: rest →
  written ≠ [] →
  collection w "categories" = [] →
  faults w = false :: replicate (length written) false ++ true :: fs →
  let w1 := (initializeCategories w).2 in
  (initializeCategories w).1 = Ok tt ∧
  (∀ id d, document w1 "categories" id = Some d ↔ (id, d) ∈ written) ∧
  (∀ id, c.1 = id → document w1 "categories" id = None) ∧
  (∀ w2, db w2 = db w1 → db (initializeCategories w2).2 = db w1).
Proof.
  intros Hsplit Hsome Hnil Hfaults. cbv zeta.
  assert (NoDup (written ++ c :: rest).*1) as Hnd
    by (rewrite <- Hsplit; apply categoriesData_NoDup).
  assert (Forall (λ c, refused_data c.2 = false) (written ++ c :: rest)) as Hdef
    by (rewrite <- Hsplit; apply categoriesData_defined).
  assert (Forall (λ c, stored <$> c.2 = c.2) written) as Hstored.
  { pose proof categoriesData_stored as Hall. rewrite Hsplit in Hall.
    by apply Forall_app in Hall as [? _]. }
  rewrite fmap_app in Hnd. apply NoDup_app in Hnd as (Hnd & Hdisjoint & _).
  destruct (forEach_setDoc_stops "categories" written rest c fs
              (served (CGetDocs "categories") w) Hdef) as (w' & Hrun & Hdb).
  { rewrite faults_served, Hfaults. reflexivity. }
  assert (initializeCategories w = (Ok tt, w')) as Hinit.
  { rewrite initializeCategories_eq. cbv zeta. unfold next_fault. rewrite Hfaults, Hnil.
    unfold try_catch. rewrite Hsplit, Hrun. reflexivity. }
  rewrite Hinit. cbn [fst snd]. rewrite db_served in Hdb.
  assert (∀ id d, document w' "categories" id = Some d ↔ (id, d) ∈ written) as Hdocs.
  { intros id d. unfold document. rewrite Hdb, foldl_setDoc_lookup by done.
    rewrite (elem_of_list_to_map (M := gmap string)) by done.
    destruct (list_to_map written !! id) as [d0|] eqn:Hd0.
    - assert (stored <$> d0 = d0) as ->; [|done].
      apply elem_of_list_to_map_2 in Hd0.
      by apply (proj1 (Forall_forall _ _) Hstored (id, d0)).
    - fold (document w "categories" id).
      by rewrite (proj1 (collection_nil w "categories") Hnil id). }
  split; [reflexivity|]. split; [exact Hdocs|]. split.
  - intros id <-. apply eq_None_not_Some. intros [d Hd%Hdocs].
    apply (Hdisjoint c.1).
    + apply list_elem_of_fmap. by exists (c.1, d).
    + cbn. left.
  - intros w2 Hsame. rewrite initializeCategories_keeps; [cbn [snd]; by rewrite db_served|].
    rewrite (collection_db w' w2) by done. intros Hempty.
    destruct written as [|[id d] written']; [done|].
    apply collection_nil with (id := id) in Hempty.
    assert (document w' "categories" id = Some d) as Hin by (apply Hdocs; left).
    congruence.
Qed.

Lemma partial_seeding_is_not_repaired_witness :
  let w := set_faults [false; false; false; true] empty_world in
  let w1 := (initializeCategories w).2 in
  is_Some (document w1 "categories" "cheesecake") ∧
  document w1 "categories" "donuts" = None ∧
  db (initializeCategories (set_faults [] w1)).2 = db w1.
Proof.
  cbv zeta.
  destruct (partial_seeding_is_not_repaired
              (set_faults [false; false; false; true] empty_world)
              (take 2 categoriesData) (drop 3 categoriesData)
              ("donuts", category_obj "donuts" "Donuts" "Donuts moelleux et gourmands" 3)
              [])
    as (_ & Hwritten & Hmissing & Hlater); [reflexivity|discriminate| |reflexivity|].
  { vm_compute. reflexivity. }
  split_and!.
  - eexists. apply Hwritten. cbn. right. left.
  - by apply Hmissing.
  - apply Hlater, db_set_faults.
Defined.

(** ** The seeded categories as they are listed *)

(** The documents of the category collection after a seeding of the empty
    collection against a working backend. *)
Lemma initializeCategories_documents w :
  calm w → collection w "categories" = [] →
  calm (initializeCategories w).2 ∧
  ∀ id d, document (initializeCategories w).2 "categories" id = Some d
          ↔ (id, d) ∈ categoriesData.
Proof.
  intros Hcalm Hnil.
  destruct (initializeCategories_seeds w Hcalm Hnil) as (w' & -> & Hcalm' & Hdb).
  cbn [snd]. split; [exact Hcalm'|]. intros id d. unfold document. rewrite Hdb.
  rewrite foldl_setDoc_lookup by apply categoriesData_NoDup.
  rewrite (elem_of_list_to_map (M := gmap string)) by apply categoriesData_NoDup.
  destruct (list_to_map categoriesData !! id) as [d0|] eqn:Hd0.
  - assert (stored <$> d0 = d0) as ->; [|done].
    apply elem_of_list_to_map_2 in Hd0.
    by apply (proj1 (Forall_forall _ _) categoriesData_stored (id, d0)).
  - fold (document w "categories" id).
    by rewrite (proj1 (collection_nil w "categories") Hnil id).
Qed.

Lemma key_le_antisym x y : key_le x y → key_le y x → x = y.
Proof.
  destruct x as [[[r1 a1] s1] i1], y as [[[r2 a2] s2] i2]. unfold key_le.
  intros [?|[-> [?|[-> H12]]]] [?|[? [?|[? H21]]]]; try lia.
  destruct H12 as [[Hle12 Hne12]|[-> Hi12]], H21 as [[Hle21 Hne21]|[? Hi21]]; try done.
  - destruct Hne12. by apply (anti_symm String.le).
  - by rewrite (anti_symm String.le i1 i2).
Qed.

(** Orders two categories of the default list by their [order] numbers. *)
Ltac by_order :=
  cbn; right; split; [reflexivity|]; left; pose proof number_unit_pos; nia.

Lemma categoriesData_sorted :
  StronglySorted (doc_le (Some ("order", Asc))) categoriesData.
Proof.
  unfold categoriesData, doc_le.
  repeat (constructor; [|repeat (constructor; [by_order|]); constructor]).
  constructor.
Qed.

Lemma categoriesData_ordered : Forall (λ c, is_Some (c.2 !! "order")) categoriesData.
Proof.
  unfold categoriesData, category_obj.
  repeat (constructor;
          [cbn [fst snd]; rewrite !lookup_insert_ne, lookup_insert_eq by done; by eexists|]).
  constructor.
Qed.

Lemma categoriesData_ids : Forall (λ c, c.2 ∪ {["id" := VStr c.1]} = c.2) categoriesData.
Proof.
  assert (∀ (m : obj) k v v0, m !! k = Some v0 → m ∪ {[k := v]} = m) as Habsorb.
  { intros m k v v0 Hk. apply map_eq. intros j.
    destruct (m !! j) as [x|] eqn:Hj.
    - by apply lookup_union_Some_l.
    - apply lookup_union_None_2; [done|]. apply lookup_singleton_ne. congruence. }
  unfold categoriesData, category_obj.
  repeat (constructor; [cbn [fst snd]; eapply Habsorb, lookup_insert_eq|]).
  constructor.
Qed.

(** The query of [getCategories] on the seeded collection returns the
    default list as it is written. *)
Lemma seeded_categories_query w :
  (∀ id d, document w "categories" id = Some d ↔ (id, d) ∈ categoriesData) →
  run_query (mkQuery "categories" None (Some ("order", Asc))) w = categoriesData.
Proof.
  intros Hdocs. set (q := mkQuery "categories" None (Some ("order", Asc))).
  assert (∀ x, x ∈ run_query q w ↔ x ∈ categoriesData) as Hsame.
  { intros [id d]. rewrite elem_of_run_query, elem_of_collection. cbn.
    rewrite Hdocs, bool_decide_eq_true. split; [tauto|]. intros Hin. split_and!; [done..|].
    by apply (proj1 (Forall_forall _ _) categoriesData_ordered (id, d)). }
  assert (NoDup categoriesData) as Hnd
    by (eapply NoDup_fmap_1; apply categoriesData_NoDup).
  apply (StronglySorted_unique_strong (doc_le (Some ("order", Asc)))).
  - intros [i1 d1] [i2 d2] Hin1%Hsame Hin2 Hle Hge.
    change (key_le (fs_key (get d1 "order"), i1) (fs_key (get d2 "order"), i2)) in Hle.
    change (key_le (fs_key (get d2 "order"), i2) (fs_key (get d1 "order"), i1)) in Hge.
    pose proof (key_le_antisym _ _ Hle Hge) as [= _ <-].
    f_equal. apply Hdocs in Hin1, Hin2. congruence.
  - exact (run_query_sorted q w).
  - apply categoriesData_sorted.
  - apply NoDup_Permutation; [|exact Hnd|exact Hsame].
    eapply NoDup_fmap_1. apply (run_query_NoDup q w).
Qed.

(** X23. After a seeding of the empty collection against a working backend,
    [GET /api/categories] answers with the eight default categories in the
    order of the source list, which is the ascending order of their [order]
    numbers, each with the identifier it was seeded under. *)
Theorem seeded_categories_listed_in_order (w : World) :
  calm w → collection w "categories" = [] →
  (get_categories (initializeCategories w).2).1 = Ok (respond 200 categoriesData.*2) ∧
  Forall (λ c, get c.2 "id" = VStr c.1) categoriesData ∧
  StronglySorted (λ a b, fs_le (get a "order") (get b "order")) categoriesData.*2.
Proof.
  intros Hcalm Hnil.
  destruct (initializeCategories_documents w Hcalm Hnil) as [Hcalm' Hdocs].
  split_and!.
  - unfold get_categories, try_catch, bind, ret. rewrite getCategories_eq. calm_rw.
    cbn [fst snd]. rewrite (seeded_categories_query _ Hdocs).
    assert (map (λ d : string * obj, d.2 ∪ {["id" := VStr d.1]}) categoriesData
            = categoriesData.*2) as ->; [|reflexivity].
    clear Hdocs. pose proof categoriesData_ids as Hids.
    induction Hids as [|c l Hc _ IH]; [reflexivity|]. cbn [map fmap list_fmap].
    f_equal; [exact Hc|exact IH].
  - unfold categoriesData, category_obj.
    repeat (constructor; [unfold get; cbn [fst snd]; by rewrite lookup_insert_eq|]).
    constructor.
  - eapply (StronglySorted_map (doc_le (Some ("order", Asc)))); [|apply categoriesData_sorted].
    intros x y _ _. cbn. apply key_le_fs_le.
Qed.

Lemma seeded_categories_listed_in_order_witness :
  (get_categories (initializeCategories empty_world).2).1
    = Ok (respond 200 categoriesData.*2) ∧
  categoriesData.*1 = ["crepe"; "cheesecake"; "donuts"; "mini-pancakes"; "fondant";
                       "tiramisu"; "boissons-fraiches"; "boissons-chaudes"].
Proof.
  destruct (seeded_categories_listed_in_order empty_world) as (Hlisted & _).
  - vm_compute. constructor.
  - vm_compute. reflexivity.
  - split; [exact Hlisted|reflexivity].
Defined.

(** ** Orders: one record for all the views *)

Lemma fs_eqb_num v n : fs_eqb v (VNum n) = true → v = VNum n.
Proof. destruct v; try done. cbn. by intros ->%Z.eqb_eq. Qed.

(** The four mappings of an order document agree on a document that has a
    status, and whose [userId], or [livreurId], is the non-zero identifier
    that the query has selected. *)
Lemma order_of_pending_doc_eq id d :
  truthy (get d "status") = true → order_of_pending_doc (id, d) = order_of_doc (id, d).
Proof.
  intros Hs. unfold order_of_pending_doc, order_of_doc. cbn [fst snd].
  f_equal. unfold js_or. by rewrite Hs.
Qed.

Lemma order_of_user_doc_eq id d uid :
  truthy (get d "status") = true → get d "userId" = VNum uid → uid ≠ 0 →
  order_of_user_doc (id, d) = order_of_doc (id, d).
Proof.
  intros Hs Hu Hne. unfold order_of_user_doc, order_of_doc. cbn [fst snd].
  f_equal; unfold js_or; [|by rewrite Hs].
  rewrite Hu. cbn. by destruct (Z.eqb_spec uid 0).
Qed.

Lemma order_of_livreur_doc_eq id d uid :
  truthy (get d "status") = true → get d "livreurId" = VNum uid → uid ≠ 0 →
  order_of_livreur_doc (id, d) = order_of_doc (id, d).
Proof.
  intros Hs Hu Hne. unfold order_of_livreur_doc, order_of_doc. cbn [fst snd].
  f_equal; unfold js_or; [by rewrite Hs|].
  rewrite Hu. cbn. by destruct (Z.eqb_spec uid 0).
Qed.

Lemma order_firestoreData_status o now :
  get (stored <$> order_firestoreData o now) "status" = stored (Order.status o).
Proof. unfold order_firestoreData. by read_field. Qed.

(** The gateway keeps a status on every order: a new order is pending, and a
    status update writes a truthy status or none. *)
Lemma createOrder_has_status insertOrder w o w1 :
  orders_have_status w →
  createOrder insertOrder w = (Ok o, w1) →
  orders_have_status w1.
Proof.
  intros Hinv. rewrite createOrder_eq. cbv zeta. intros Hrun.
  do 2 (case_match; [done|]). injection Hrun as <- <-.
  intros id d. rewrite document_write_doc. case_decide.
  - intros [= <-]. rewrite order_firestoreData_status. reflexivity.
  - autorewrite with world. apply Hinv.
Qed.

Lemma truthy_stored v : truthy (stored v) = truthy v.
Proof. by destruct v. Qed.

Lemma patch_order_has_status session_userId id req_body w :
  orders_have_status w →
  orders_have_status (patch_order session_userId id req_body w).2.
Proof.
  intros Hinv.
  destruct (patch_order_writes session_userId id req_body w)
    as [Hdb|(user & old & now & now' & Hold & Hdb)];
    intros id' d; unfold document; rewrite Hdb; [apply Hinv|].
  rewrite lookup_insert. case_decide as Heq; [|apply Hinv].
  intros [= <-]. unfold get.
  pose proof (order_updates_status user (order_of_doc (id, old)) req_body now) as Hstatus.
  destruct (truthy (get req_body "status")) eqn:Htruthy.
  - rewrite (written_field_set _ _ _ (get req_body "status")).
    + change (default VUndef (Some ?x)) with x. by rewrite truthy_stored.
    + apply lookup_remove_undefined. split; [by rewrite lookup_insert_ne|].
      by destruct (get req_body "status").
  - rewrite written_field_kept; [by apply (Hinv id)|].
    apply eq_None_not_Some. intros [x Hx].
    apply lookup_remove_undefined in Hx as [Hx _].
    rewrite lookup_insert_ne in Hx by done. congruence.
Qed.

Lemma listed_order (f : string * obj → Order.t) cond w o :
  o ∈ map f (run_query (mkQuery "orders" cond (Some ("createdAt", Desc))) w) →
  ∃ id d, o = f (id, d) ∧ document w "orders" id = Some d ∧
          matches_where cond (id, d) = true ∧
          (id, d) ∈ run_query (mkQuery "orders" None (Some ("createdAt", Desc))) w.
Proof.
  intros Ho. apply list_elem_of_In, in_map_iff in Ho as ([id d] & <- & Hin%list_elem_of_In).
  apply elem_of_run_query in Hin as (Hcol & Hcond & Hfield).
  exists id, d. split_and!; [done|by apply elem_of_collection|done|].
  by apply elem_of_run_query.
Qed.

(** X24. All the views show the owner's record.  On a store whose orders
    have a status, as [createOrder] and the status update leave them, with
    users filed under their positive identifiers and a working backend, every
    order in the answer of [GET /api/orders], whatever the role of the actor,
    is one of the records that [getOrders] returns: the courier and the
    customer are shown, field for field, what the owner is shown. *)
Theorem every_view_shows_the_owners_record (w : World) (session_userId : Z)
    (user : User.t) :
  users_wf w → orders_have_status w → calm w →
  users w !! session_userId = Some user →
  ∃ os all, (get_orders session_userId w).1 = Ok (json (JOrders os)) ∧
            (getOrders w).1 = Ok all ∧
            ∀ o, o ∈ os → o ∈ all.
Proof.
  intros Hwf Hstatus Hcalm Huser.
  assert (User.id user ≠ 0) as Hid by by eapply users_wf_id.
  rewrite getOrders_eq. calm_rw. cbn [fst].
  set (q0 := mkQuery "orders" None (Some ("createdAt", Desc))).
  destruct (String.eqb_spec (User.role user) "owner") as [Howner|Howner].
  { unfold get_orders, try_catch, bind, getUserById, ret. rewrite Huser, Howner.
    cbn [String.eqb Ascii.eqb Bool.eqb]. rewrite getOrders_eq. calm_rw.
    eexists _, _. split; [reflexivity|]. split; [reflexivity|]. done. }
  destruct (String.eqb_spec (User.role user) "livreur") as [Hlivreur|Hlivreur].
  { rewrite (get_orders_livreur w session_userId user Huser Hlivreur Hcalm).
    eexists _, _. split; [reflexivity|]. split; [reflexivity|].
    intros o Ho. apply combine_orders_spec in Ho;
      [|rewrite order_ids by done; apply run_query_NoDup..].
    destruct Ho as [Ho|[Ho _]];
      apply listed_order in Ho as (id & d & -> & Hdoc & Hcond & Hin).
    - rewrite (order_of_livreur_doc_eq id d (User.id user));
        [by apply elem_of_map_1 | by apply (Hstatus id) | by apply fs_eqb_num | done].
    - rewrite order_of_pending_doc_eq by by apply (Hstatus id).
      by apply elem_of_map_1. }
  unfold get_orders, try_catch, bind, getUserById, ret. rewrite Huser.
  apply String.eqb_neq in Howner, Hlivreur. rewrite Howner, Hlivreur.
  rewrite getOrdersByUser_eq. calm_rw. cbn [fst snd].
  eexists _, _. split; [reflexivity|]. split; [reflexivity|].
  intros o Ho. apply listed_order in Ho as (id & d & -> & Hdoc & Hcond & Hin).
  rewrite (order_of_user_doc_eq id d (User.id user));
    [by apply elem_of_map_1 | by apply (Hstatus id) | by apply fs_eqb_num | done].
Qed.

Lemma users_wf_empty_world : users_wf empty_world.
Proof.
  split; [done|]. intros k u Hk. cbn in Hk.
  repeat (rewrite lookup_insert in Hk; case_decide;
          [injection Hk as <-; subst k; cbn; split; [reflexivity|lia]|]).
  by rewrite lookup_empty in Hk.
Qed.

Lemma users_reopened_world : users reopened_world = users empty_world.
Proof. vm_compute. reflexivity. Qed.

Lemma every_view_shows_the_owners_record_witness :
  ∃ os all, (get_orders 8 reopened_world).1 = Ok (json (JOrders os)) ∧
            (getOrders reopened_world).1 = Ok all ∧
            ∀ o, o ∈ os → o ∈ all.
Proof.
  apply (every_view_shows_the_owners_record reopened_world 8 (staff 8 "livreur")).
  - destruct users_wf_empty_world as [Hcounter Hwf]. split.
    + vm_compute. reflexivity.
    + intros k u. rewrite users_reopened_world. apply Hwf.
  - unfold reopened_world, claimed_world.
    do 2 apply patch_order_has_status.
    unfold stocked_world.
    eapply createOrder_has_status; [|apply run_pair; vm_compute; reflexivity].
    intros id d Hdoc. exfalso. revert Hdoc.
    rewrite createMenuItem_eq. cbv zeta.
    assert (refused_data (MenuItem.to_obj (new_menuItem (uuids empty_world (drawn empty_world))
                                                         sample_menuItem)) = false) as ->
      by (vm_compute; reflexivity).
    assert (next_fault empty_world = false) as -> by reflexivity.
    cbn [snd]. rewrite document_write_doc, decide_False by done.
    rewrite document_served. vm_compute. discriminate.
  - vm_compute. constructor.
  - vm_compute. reflexivity.
Defined.

(** ** Orders: the order of the courier's list *)

Lemma Map_set_ids o (m : list (string * Order.t)) :
  Forall (λ e, Order.id e.2 = e.1) m →
  Forall (λ e, Order.id e.2 = e.1) (Map_set (Order.id o) o m).
Proof.
  induction 1 as [|[k v] m Hk Hm IH]; cbn [Map_set fst snd].
  - by repeat constructor.
  - destruct (String.eqb k (Order.id o)); constructor; done.
Qed.

Lemma orderMap_of_ids l (m : list (string * Order.t)) :
  Forall (λ e, Order.id e.2 = e.1) m →
  Forall (λ e, Order.id e.2 = e.1) (orderMap_of l m).
Proof.
  revert m. induction l as [|o l IH]; intros m Hm; [done|].
  apply IH. by apply Map_set_ids.
Qed.

(** The keys of the map in the order of their insertion: those it had,
    then the new ones among the identifiers of the list. *)
Lemma orderMap_of_keys l (m : list (string * Order.t)) :
  NoDup (Order.id <$> l) →
  (orderMap_of l m).*1
  = m.*1 ++ List.filter (λ i, bool_decide (i ∉ m.*1)) (Order.id <$> l).
Proof.
  revert m. induction l as [|o l IH]; intros m Hnd.
  - cbn. by rewrite app_nil_r.
  - cbn [fmap list_fmap] in Hnd. apply NoDup_cons in Hnd as [Ho Hnd].
    cbn [orderMap_of fold_left]. fold (orderMap_of l (Map_set (Order.id o) o m)).
    rewrite IH by done. rewrite Map_set_keys. cbn [fmap list_fmap List.filter].
    destruct (decide (Order.id o ∈ m.*1)) as [Hin|Hnin].
    + by rewrite bool_decide_eq_false_2 by by intros ?.
    + rewrite bool_decide_eq_true_2 by done. rewrite <- app_assoc. cbn [app].
      do 2 f_equal. apply filter_ext_in. intros i Hi%list_elem_of_In.
      apply bool_decide_ext. rewrite !elem_of_app, list_elem_of_singleton.
      split; [tauto|]. intros Hno [?| ->]; done.
Qed.

Lemma combine_orders_ids pendingOrders assignedOrders :
  NoDup (Order.id <$> pendingOrders) → NoDup (Order.id <$> assignedOrders) →
  Order.id <$> combine_orders pendingOrders assignedOrders
  = (Order.id <$> pendingOrders)
    ++ List.filter (λ i, bool_decide (i ∉ Order.id <$> pendingOrders))
                   (Order.id <$> assignedOrders).
Proof.
  intros Hp Ha. unfold combine_orders, Map_values.
  fold (orderMap_of (pendingOrders ++ assignedOrders) []).
  set (m := orderMap_of (pendingOrders ++ assignedOrders) []).
  assert (Order.id <$> map snd m = m.*1) as ->.
  { assert (Forall (λ e, Order.id e.2 = e.1) m) as Hids
      by (apply orderMap_of_ids; constructor).
    induction Hids as [|[k v] m' Hk _ IH]; [done|].
    cbn [map fmap list_fmap fst snd] in *. by f_equal. }
  unfold m, orderMap_of. rewrite fold_left_app.
  fold (orderMap_of pendingOrders []).
  fold (orderMap_of assignedOrders (orderMap_of pendingOrders [])).
  rewrite orderMap_of_keys by done. rewrite (orderMap_of_keys pendingOrders []) by done.
  cbn [fmap list_fmap app].
  rewrite filter_true; [done|]. intros i. apply bool_decide_eq_true_2, not_elem_of_nil.
Qed.

(** X25. The list of a courier is in the order of the map that the route
    fills: first the pending orders, in the order of their query, the most
    recent first, then the orders assigned to the courier that are not
    pending, in the order of theirs.  An order that is both keeps the place
    it has among the pending ones. *)
Theorem courier_list_order (w : World) (session_userId : Z) (user : User.t) :
  users w !! session_userId = Some user →
  User.role user = "livreur" →
  calm w →
  let pending := run_query (mkQuery "orders" (Some ("status", VStr "pending"))
                                    (Some ("createdAt", Desc))) w in
  let assigned := run_query (mkQuery "orders" (Some ("livreurId", VNum (User.id user)))
                                     (Some ("createdAt", Desc))) w in
  ∃ os, (get_orders session_userId w).1 = Ok (json (JOrders os)) ∧
        Order.id <$> os
        = pending.*1 ++ List.filter (λ i, bool_decide (i ∉ pending.*1)) assigned.*1.
Proof.
  intros Huser Hrole Hcalm. cbv zeta.
  rewrite (get_orders_livreur w session_userId user Huser Hrole Hcalm).
  eexists. split; [reflexivity|].
  rewrite combine_orders_ids by (rewrite order_ids by done; apply run_query_NoDup).
  by rewrite !order_ids.
Qed.

Lemma courier_list_order_witness :
  ∃ os, (get_orders 7 reopened_world).1 = Ok (json (JOrders os)) ∧
        Order.id <$> os = ["id-1"].
Proof.
  destruct (courier_list_order reopened_world 7 (staff 7 "livreur")) as (os & Hos & Hids).
  - vm_compute. reflexivity.
  - reflexivity.
  - vm_compute. constructor.
  - exists os. split; [exact Hos|]. rewrite Hids. vm_compute. reflexivity.
Defined.

(** ** Updates: what is written and what is reported *)

(** X26. An update creates nothing, and may report nothing after writing.
    On an identifier that has no document, [updateOrder] and [updateMenuItem]
    return [undefined] and leave the store as it is, whatever the backend
    does.  On a stored order and an update whose keys are names of fields,
    with values that the client library accepts, when the read and the write
    succeed and the read-back fails, [updateOrder] returns [undefined]
    although the order has been written: the stored order carries the fields
    of the update and the new [updatedAt]. *)
Theorem update_creates_nothing_and_may_report_nothing (id : string) (updates : obj)
    (w : World) :
  (document w "orders" id = None →
   (updateOrder id updates w).1 = Ok None ∧ db (updateOrder id updates w).2 = db w) ∧
  (document w "menuItems" id = None →
   (updateMenuItem id updates w).1 = Ok None ∧ db (updateMenuItem id updates w).2 = db w) ∧
  (∀ old fs, document w "orders" id = Some old →
     faults w = false :: false :: true :: fs →
     plain_update (remove_undefined updates) →
     (updateOrder id updates w).1 = Ok None ∧
     ∃ d', document (updateOrder id updates w).2 "orders" id = Some d' ∧
           d' !! "updatedAt" = Some (Timestamp_fromDate (clock w (ticks w))) ∧
           ∀ k v, k ≠ "updatedAt" → updates !! k = Some v → is_undefined v = false →
                  d' !! k = Some (stored v)).
Proof.
  split_and!.
  - intros Hnone. rewrite updateOrder_eq. cbv zeta. rewrite Hnone.
    destruct (next_fault w); cbn [fst snd]; by rewrite db_served.
  - intros Hnone. rewrite updateMenuItem_eq. cbv zeta. rewrite Hnone.
    destruct (next_fault w); cbn [fst snd]; by rewrite db_served.
  - intros old fs Hdoc Hfaults Hplain. rewrite updateOrder_eq. cbv zeta.
    assert (next_fault w = false) as -> by (unfold next_fault; by rewrite Hfaults).
    rewrite Hdoc.
    assert (next_fault (served (CGetDoc "orders" id) w) = false) as ->
      by by rewrite (next_fault_served_cons _ _ _ _ Hfaults).
    destruct (plain_update_accepted
                (remove_undefined
                   (<["updatedAt" := Timestamp_fromDate (clock w (ticks w))]> updates)))
      as (-> & -> & Happly).
    { intros k v [Hk Hv]%lookup_remove_undefined. revert Hk.
      rewrite lookup_insert. case_decide as Hat; [intros [= <-]; by subst k|].
      intros Hk. by apply (Hplain k v), lookup_remove_undefined. }
    rewrite Happly. cbn [orb].
    rewrite getOrder_eq.
    assert (next_fault
              (write_doc "orders" id
                 (Some ((stored <$> remove_undefined
                           (<["updatedAt" := Timestamp_fromDate (clock w (ticks w))]> updates))
                        ∪ old))
                 (served (CUpdateDoc "orders" id) (tick (served (CGetDoc "orders" id) w))))
            = true) as ->.
    { rewrite next_fault_write_doc. unfold next_fault.
      rewrite faults_served. cbn [tick faults]. rewrite faults_served, Hfaults.
      reflexivity. }
    cbn [fst snd]. split; [reflexivity|].
    rewrite document_served, document_write_doc, decide_True by done.
    eexists. split; [reflexivity|]. split.
    + apply (written_field_set _ _ _ (Timestamp_fromDate _)).
      apply lookup_remove_undefined. split; [|done]. by rewrite lookup_insert_eq.
    + intros k v Hk Hv Hdef. apply written_field_set.
      apply lookup_remove_undefined. split; [|done]. by rewrite lookup_insert_ne.
Qed.

Lemma update_creates_nothing_and_may_report_nothing_witness :
  let w := set_faults [false; false; true] stocked_world in
  let r := updateOrder "id-1" {["status" := VStr "delivered"]} w in
  r.1 = Ok None ∧
  (∃ d', document r.2 "orders" "id-1" = Some d' ∧ d' !! "status" = Some (VStr "delivered")) ∧
  (updateOrder "id-9" {["status" := VStr "delivered"]} stocked_world).1 = Ok None.
Proof.
  cbv zeta.
  destruct (update_creates_nothing_and_may_report_nothing "id-1"
              {["status" := VStr "delivered"]} (set_faults [false; false; true] stocked_world))
    as (_ & _ & Hwritten).
  destruct (update_creates_nothing_and_may_report_nothing "id-9"
              {["status" := VStr "delivered"]} stocked_world) as (Hnone & _).
  destruct (Hwritten (fields_of stocked_world "orders" "id-1") [])
    as (Hanswer & d' & Hdoc & _ & Hfields).
  - apply (document_fields_of (set_faults [false; false; true] stocked_world)),
      (bool_decide_unpack _). by vm_compute.
  - reflexivity.
  - intros k v [Hk _]%lookup_remove_undefined.
    apply lookup_singleton_Some in Hk as [<- <-]. by split.
  - split; [exact Hanswer|]. split.
    + exists d'. split; [exact Hdoc|].
      apply (Hfields "status" (VStr "delivered")); [done| |done].
      apply lookup_singleton_eq.
    + apply Hnone. vm_compute. reflexivity.
Defined.

(** ** The menu as it is listed *)

Lemma menuItem_ids (l : list (string * obj)) : MenuItem.id <$> map menuItem_of_doc l = l.*1.
Proof. induction l as [|d l IH]; [done|]. cbn [map fmap list_fmap]. by rewrite <- IH. Qed.

(** What the mapping of a menu item guarantees of the fields that it
    defaults. *)
Lemma menuItem_of_doc_normal (x : string * obj) :
  let item := menuItem_of_doc x in
  truthy (MenuItem.deliveryFee item) = true ∧
  (∃ b, MenuItem.available item = VBool b) ∧
  null_or_truthy (MenuItem.imageUrl item) ∧
  (MenuItem.popular item = VBool false ∨ truthy (MenuItem.popular item) = true).
Proof.
  cbv zeta. unfold null_or_truthy.
  cbn [menuItem_of_doc MenuItem.deliveryFee MenuItem.available MenuItem.imageUrl
       MenuItem.popular]. unfold js_or. split_and!.
  - by destruct (truthy (get x.2 "deliveryFee")) eqn:E.
  - by eexists.
  - destruct (truthy (get x.2 "imageUrl")) eqn:E; auto.
  - destruct (truthy (get x.2 "popular")) eqn:E; auto.
Qed.

(** X27. The menu lists every stored item once.  When the read is served,
    the answer of [GET /api/menu-items] holds one item per identifier, the
    identifiers are those of all the documents of the collection, and each
    item is the mapping of its document: its [deliveryFee] is truthy ("0"
    when the document has none), its [available] is a boolean, its [imageUrl]
    is [null] or truthy, and its [popular] is [false] or truthy. *)
Theorem menu_lists_every_item (w : World) :
  next_fault w = false →
  ∃ items, (get_menu_items w).1 = Ok (respond 200 items) ∧
    NoDup (MenuItem.id <$> items) ∧
    (∀ id, id ∈ MenuItem.id <$> items ↔ is_Some (document w "menuItems" id)) ∧
    ∀ item, item ∈ items →
      (∃ d, document w "menuItems" (MenuItem.id item) = Some d ∧
            item = menuItem_of_doc (MenuItem.id item, d)) ∧
      truthy (MenuItem.deliveryFee item) = true ∧
      (∃ b, MenuItem.available item = VBool b) ∧
      null_or_truthy (MenuItem.imageUrl item) ∧
      (MenuItem.popular item = VBool false ∨ truthy (MenuItem.popular item) = true).
Proof.
  intros Hserved. unfold get_menu_items, try_catch, bind, ret.
  rewrite getMenuItems_eq, Hserved. cbn [fst snd].
  eexists. split; [reflexivity|].
  assert (∀ id d, (id, d) ∈ run_query (plain "menuItems") w ↔
                  document w "menuItems" id = Some d) as Hq.
  { intros id d. rewrite elem_of_run_query, elem_of_collection. cbn. tauto. }
  rewrite menuItem_ids. split_and!.
  - apply run_query_NoDup.
  - intros id. rewrite list_elem_of_fmap. split.
    + intros ([id' d] & -> & Hin%Hq). by eexists.
    + intros [d Hd%Hq]. by exists (id, d).
  - intros item Hin.
    apply list_elem_of_In, in_map_iff in Hin as ([id d] & <- & Hin%list_elem_of_In).
    split; [|apply menuItem_of_doc_normal].
    exists d. split; [by apply Hq|done].
Qed.

Lemma menu_lists_every_item_witness :
  ∃ items, (get_menu_items stocked_world).1 = Ok (respond 200 items) ∧
           "id-0" ∈ (MenuItem.id <$> items) ∧
           ∀ item, item ∈ items → truthy (MenuItem.deliveryFee item) = true.
Proof.
  destruct (menu_lists_every_item stocked_world) as (items & Hitems & _ & Hids & Hall).
  - vm_compute. reflexivity.
  - exists items. split; [exact Hitems|]. split.
    + apply Hids, (bool_decide_unpack _). by vm_compute.
    + intros item Hin. exact (proj1 (proj2 (Hall item Hin))).
Defined.

(** ** The check of an image file in the client *)

(** X28. [validateImageFile] accepts a file exactly when its type is one of
    the five image types and its size is at most 5242880 bytes, and it gives
    an error message exactly when it rejects.  The type is checked first: a
    file of another type gets the message on types whatever its size.  A file
    of an allowed type that is too large gets the message "File size must be
    less than 5MB"; a file of exactly that size is accepted. *)
Theorem validateImageFile_accepts (file_type : string) (file_size : Z) :
  let r := ImageFile.validateImageFile file_type file_size in
  let allowed := file_type ∈ ImageFile.ALLOWED_IMAGE_TYPES in
  (ImageFile.valid r = true ↔ allowed ∧ file_size ≤ 5242880) ∧
  (ImageFile.valid r = true ↔ ImageFile.error r = None) ∧
  (¬ allowed →
   ImageFile.error r
   = Some "Invalid file type. Only JPG, PNG, GIF, and WEBP are allowed.") ∧
  (allowed → 5242880 < file_size →
   ImageFile.error r = Some "File size must be less than 5MB").
Proof.
  cbv zeta. unfold ImageFile.validateImageFile.
  assert (existsb (String.eqb file_type) ImageFile.ALLOWED_IMAGE_TYPES = true
          ↔ file_type ∈ ImageFile.ALLOWED_IMAGE_TYPES) as Hallowed.
  { rewrite existsb_exists. split.
    - intros (x & Hin%list_elem_of_In & ->%String.eqb_eq). done.
    - intros Hin. exists file_type. split; [by apply list_elem_of_In|].
      apply String.eqb_refl. }
  change ImageFile.MAX_FILE_SIZE with 5242880.
  change (Number_toString (5242880 / 1024 / 1024)) with "5".
  destruct (existsb _ _) eqn:Htype; cbn [negb].
  - destruct (Z.ltb_spec 5242880 file_size) as [Hlarge|Hsmall]; cbn.
    + split_and!; [|done| |done].
      * split; [done|]. intros [_ ?]. lia.
      * intros Hnot. destruct Hnot. by apply Hallowed.
    + split_and!; [|done| |].
      * split; [|done]. intros _. split; [by apply Hallowed|done].
      * intros Hnot. destruct Hnot. by apply Hallowed.
      * intros _ ?. lia.
  - cbn. split_and!; [|done|done|].
    + split; [done|]. intros [Hin%Hallowed _]. done.
    + intros Hin%Hallowed. done.
Qed.

Lemma validateImageFile_accepts_witness :
  ImageFile.valid (ImageFile.validateImageFile "image/png" 5242880) = true ∧
  ImageFile.error (ImageFile.validateImageFile "image/png" 5242881)
    = Some "File size must be less than 5MB" ∧
  ImageFile.error (ImageFile.validateImageFile "image/svg+xml" 5242881)
    = Some "Invalid file type. Only JPG, PNG, GIF, and WEBP are allowed.".
Proof.
  assert ("image/png" ∈ ImageFile.ALLOWED_IMAGE_TYPES) as Hpng
    by (apply (bool_decide_unpack _); by vm_compute).
  assert ("image/svg+xml" ∉ ImageFile.ALLOWED_IMAGE_TYPES) as Hsvg
    by (apply (bool_decide_unpack _); by vm_compute).
  destruct (validateImageFile_accepts "image/png" 5242880) as (Hvalid & _).
  destruct (validateImageFile_accepts "image/png" 5242881) as (_ & _ & _ & Hlarge).
  destruct (validateImageFile_accepts "image/svg+xml" 5242881) as (_ & _ & Htype & _).
  split_and!.
  - apply Hvalid. split; [exact Hpng|lia].
  - apply Hlarge; [exact Hpng|lia].
  - apply Htype. exact Hsvg.
Defined.
